(** * JetStream consumer client core: a shallow embedding

    The development follows the TypeScript client (the JetStream client,
    its push/ordered subscription and its pull subscription).  JavaScript
    numbers that carry counts, sequences and durations are integers [Z];
    an optional property is an [option]; a thrown exception is the [Throw]
    branch of [Completion]; calls made on the transport are recorded, in
    program order, in an effect log. *)

From Stdlib Require Import ZArith Ascii String List Bool Lia DecimalString.
Import ListNotations.
Open Scope Z_scope.
Open Scope string_scope.

(** ** JavaScript values and truthiness *)
Module Js.

(** The errors the client code throws or receives. [NatsError] carries
    the [code] property, which a plain [Error] lacks. *)
Inductive JsError :=
| TypeError
| Error (message : string)
| NatsError (message : string) (code : string).

Inductive Completion (A : Type) :=
| Normal (a : A)
| Throw (e : JsError).
Arguments Normal {A} a.
Arguments Throw {A} e.

Definition bind {A B : Type} (c : Completion A) (k : A -> Completion B) : Completion B :=
  match c with
  | Normal a => k a
  | Throw e => Throw e
  end.

(** A validation that may throw, followed by the rest of the method. *)
Definition guard {A : Type} (thrown : option JsError) (k : Completion A)
  : Completion A :=
  match thrown with
  | Some e => Throw e
  | None => k
  end.

(** [err.code]: a property read, [undefined] on a plain error. *)
Definition code_of (e : JsError) : option string :=
  match e with
  | NatsError _ c => Some c
  | _ => None
  end.

(** [n || d] on an optional number: [undefined] and [0] are falsy. *)
Definition num_or (n : option Z) (d : Z) : Z :=
  match n with
  | Some v => if (v =? 0)%Z then d else v
  | None => d
  end.

(** [b || false] on an optional boolean. *)
Definition bool_or_false (b : option bool) : bool :=
  match b with
  | Some v => v
  | None => false
  end.

(** Truthiness of an optional string: [undefined] and [""] are falsy. *)
Definition truthy_str (s : option string) : bool :=
  match s with
  | Some v => negb (v =? "")%string
  | None => false
  end.

(** [s ?? d] on an optional string. *)
Definition str_nullish (s : option string) (d : string) : string :=
  match s with
  | Some v => v
  | None => d
  end.

(** *** Numbers as text

    The template literal [`${n}`] prints a number with the fewest digits
    that read back as the same number: an integer below 2^53 in full,
    a larger one rounded to the number that holds it, padded with zeros
    below 10^21 and in exponent form from there on. *)

(** The binary exponent of the 53-bit significand of a positive [x]. *)
Definition binary_exponent (x : Z) : Z := Z.max 0 (Z.log2 x - 52).

(** The number a positive integer is held as: the nearest one with a
    53-bit significand, ties to the even significand. *)
Definition to_number (n : Z) : Z :=
  let e := binary_exponent n in
  if (e =? 0)%Z then n
  else
    let q := Z.shiftr n e in
    let r := n - Z.shiftl q e in
    let half := Z.shiftl 1 (e - 1) in
    if (half <? r)%Z || ((r =? half)%Z && Z.odd q)
    then Z.shiftl (q + 1) e
    else Z.shiftl q e.

(** Whether the integer [c] is held as the number [x]: it lies within
    half a gap of [x], the ends included when the significand is even;
    the gap below a power of two is half the gap above. *)
Definition reads_back (x c : Z) : bool :=
  let e := binary_exponent x in
  let m := Z.shiftr x e in
  let up := Z.shiftl 1 (e + 1) in
  let down := if (m =? Z.shiftl 1 52)%Z then Z.shiftl 1 e else up in
  if (e =? 0)%Z then (c =? x)%Z
  else if Z.even m
  then (4 * x - down <=? 4 * c)%Z && (4 * c <=? 4 * x + up)%Z
  else (4 * x - down <? 4 * c)%Z && (4 * c <? 4 * x + up)%Z.

(** The multiples of [10^j] around [x]. *)
Definition below (x j : Z) : Z := x / 10 ^ j * 10 ^ j.
Definition above (x j : Z) : Z := below x j + 10 ^ j.

(** The largest number of trailing zeros with which [x] still reads
    back, counted up from [j]. *)
Fixpoint zeros (fuel : nat) (x j : Z) : Z :=
  match fuel with
  | O => j
  | S fuel' =>
    if reads_back x (below x (j + 1)) || reads_back x (above x (j + 1))
    then zeros fuel' x (j + 1)
    else j
  end.

(** The integer with the fewest significant digits that reads back as
    [x]; of two, the nearer one, and of two equally near the even one. *)
Definition shortest (x : Z) : Z :=
  let j := zeros 400 x 0 in
  let lo := below x j in
  let hi := above x j in
  if negb (reads_back x hi) then lo
  else if negb (reads_back x lo) then hi
  else if (x - lo <? hi - x)%Z then lo
  else if (hi - x <? x - lo)%Z then hi
  else if Z.even (lo / 10 ^ j) then lo else hi.

Definition digits (n : Z) : string := NilZero.string_of_int (Z.to_int n).

Fixpoint strip_zeros (fuel : nat) (c : Z) : Z :=
  match fuel with
  | O => c
  | S fuel' => if (c mod 10 =? 0)%Z then strip_zeros fuel' (c / 10) else c
  end.

(** [d.ddde+n], or [de+n] for a single digit. *)
Definition exponent_form (c : Z) : string :=
  let n := Z.of_nat (String.length (digits c)) in
  match digits (strip_zeros 400 c) with
  | String d EmptyString => String d EmptyString ++ "e+" ++ digits (n - 1)
  | String d rest => String d ("." ++ rest) ++ "e+" ++ digits (n - 1)
  | EmptyString => EmptyString
  end.

Definition show_positive (n : Z) : string :=
  let x := to_number n in
  if (Z.shiftl 1 1024 <=? x)%Z then "Infinity"
  else
    let c := shortest x in
    if (c <? 10 ^ 21)%Z then digits c else exponent_form c.

(** The template literal [`${n}`] of an integer. *)
Definition show (n : Z) : string :=
  if (n =? 0)%Z then "0"
  else if (n <? 0)%Z then "-" ++ show_positive (- n)
  else show_positive n.
Arguments show : simpl never.

(** The values that flow through the [filter_subjects] test of
    [_maybeCreateConsumer]: [undefined], a boolean, or an array of
    subjects. *)
Inductive Value :=
| Undefined
| Boolean (b : bool)
| Array (l : list string).

Definition truthy (v : Value) : bool :=
  match v with
  | Undefined => false
  | Boolean b => b
  | Array _ => true
  end.

(** [a && b]: the left operand when it is falsy, the right one otherwise. *)
Definition and (a b : Value) : Value := if truthy a then b else a.

(** [Array.isArray(v)]. *)
Definition isArray (v : Value) : bool :=
  match v with
  | Array _ => true
  | _ => false
  end.

Definition of_subjects (o : option (list string)) : Value :=
  match o with
  | Some l => Array l
  | None => Undefined
  end.

End Js.

(** ** Consumer configuration and subscription info (jsapi_types, types) *)
Module Types.

Inductive AckPolicy := AckNone | AckAll | AckExplicit | AckNotSet.
Inductive DeliverPolicy :=
| DeliverAll | DeliverLast | DeliverNew | StartSequence | StartTime | LastPerSubject.
Inductive ReplayPolicy := Instant | Original.

Definition AckPolicy_eqb (a b : AckPolicy) : bool :=
  match a, b with
  | AckNone, AckNone | AckAll, AckAll
  | AckExplicit, AckExplicit | AckNotSet, AckNotSet => true
  | _, _ => false
  end.

(** The properties [_maybeCreateConsumer] has a default for. *)
Inductive Defaulted :=
| DeliverPolicyProp
| AckPolicyProp
| AckWaitProp
| ReplayPolicyProp.

Definition Defaulted_eqb (a b : Defaulted) : bool :=
  match a, b with
  | DeliverPolicyProp, DeliverPolicyProp | AckPolicyProp, AckPolicyProp
  | AckWaitProp, AckWaitProp | ReplayPolicyProp, ReplayPolicyProp => true
  | _, _ => false
  end.

(** [Partial<ConsumerConfig>]: a property reads [None] when it is absent
    and when it is present with the value [undefined]; [own_undefined]
    lists the defaulted properties that the object has with the value
    [undefined], the one case in which the code tells the two apart. *)
Record ConsumerConfig := mkConfigObject {
  ack_policy : option AckPolicy;
  durable_name : option string;
  deliver_subject : option string;
  deliver_group : option string;
  max_deliver : option Z;
  cfg_flow_control : option bool;
  idle_heartbeat : option Z;
  ack_wait : option Z;
  mem_storage : option bool;
  num_replicas : option Z;
  filter_subject : option string;
  filter_subjects : option (list string);
  deliver_policy : option DeliverPolicy;
  opt_start_seq : option Z;
  replay_policy : option ReplayPolicy;
  own_undefined : list Defaulted
}.

(** A config object none of whose properties is present with the value
    [undefined]. *)
Definition mkConfig (ack_policy : option AckPolicy)
  (durable_name deliver_subject deliver_group : option string)
  (max_deliver : option Z) (cfg_flow_control : option bool)
  (idle_heartbeat ack_wait : option Z) (mem_storage : option bool)
  (num_replicas : option Z) (filter_subject : option string)
  (filter_subjects : option (list string))
  (deliver_policy : option DeliverPolicy) (opt_start_seq : option Z)
  (replay_policy : option ReplayPolicy) : ConsumerConfig :=
  mkConfigObject ack_policy durable_name deliver_subject deliver_group
                 max_deliver cfg_flow_control idle_heartbeat ack_wait
                 mem_storage num_replicas filter_subject filter_subjects
                 deliver_policy opt_start_seq replay_policy [].

(** Whether the object has the property [p] with the value [undefined]. *)
Definition has_undefined (p : Defaulted) (c : ConsumerConfig) : bool :=
  existsb (Defaulted_eqb p) (own_undefined c).

Definition empty_config : ConsumerConfig :=
  mkConfig None None None None None None None None None None None None None None None.

Record ConsumerInfo := mkConsumerInfo {
  ci_name : string;
  ci_config : ConsumerConfig;
  push_bound : option bool
}.

Record OrderedConsumerSequence := mkSeq {
  stream_seq : Z;
  delivery_seq : Z
}.

Record FlowControl := mkFlow {
  heartbeat_count : Z;
  fc_count : Z;
  consumer_restarts : Z
}.

(** [JetStreamSubscriptionInfo]; [api_prefix] is [info.api.prefix]. *)
Record SubscriptionInfo := mkInfo {
  stream : string;
  config : ConsumerConfig;
  deliver : string;
  attached : bool;
  isBind : bool;
  ordered : bool;
  name : option string;
  last : option ConsumerInfo;
  ordered_consumer_sequence : option OrderedConsumerSequence;
  flow_control : FlowControl;
  api_prefix : string
}.

(** The metadata of a JetStream message the client reads. *)
Record JsMsg := mkJsMsg {
  streamSequence : Z;
  deliverySequence : Z;
  pending : Z;
  data_length : Z
}.

End Types.

(** ** JetStreamSubscriptionImpl: ordered-consumer check and heartbeat handler *)
Module Subscription.
Import Js Types.

(** The frame [newJsErrorMsg(code, description, subject)] builds. *)
Record StatusMsg := mkStatusMsg {
  status_code : Z;
  description : string;
  msg_subject : string
}.

(** What the subscription does to its collaborators, in program order. *)
Inductive Effect :=
| Resub (newDeliver : string)
| Request (subj : string) (stream_name : string) (cfg : ConsumerConfig)
| Callback (err : option JsError) (msg : option StatusMsg).

(** The subscription object: [info] is [this.info], [isClosed] is
    [this.sub.isClosed()], [subject] is [this.sub.subject], [connected]
    is [this.js.nc.protocol.connected], [inboxes] counts the inboxes
    allocated so far. *)
Record Subscription := mkSub {
  info : option SubscriptionInfo;
  isClosed : bool;
  subject : string;
  noIterator : bool;
  connected : bool;
  inboxes : nat;
  effects : list Effect
}.

(** A method either returns or throws; the object survives both. *)
Inductive Result (A : Type) :=
| Ok (s : Subscription) (a : A)
| Thrown (s : Subscription) (e : JsError).
Arguments Ok {A} s a.
Arguments Thrown {A} s e.

Definition set_info (i : SubscriptionInfo) (s : Subscription) : Subscription :=
  mkSub (Some i) (isClosed s) (subject s) (noIterator s) (connected s)
        (inboxes s) (effects s).

Definition log (es : list Effect) (s : Subscription) : Subscription :=
  mkSub (info s) (isClosed s) (subject s) (noIterator s) (connected s)
        (inboxes s) (effects s ++ es).

(** Modelled from the spec: [nci._resub] ("rebind the raw subscription to
    listen on new_deliver in place of the current deliver subject"); the
    inbox just allocated is consumed. *)
Definition _resub (newDeliver : string) (s : Subscription) : Subscription :=
  mkSub (info s) (isClosed s) newDeliver (noIterator s) (connected s)
        (S (inboxes s)) (effects s ++ [Resub newDeliver]).

(** The four assignments to [info.config] of a recreate. *)
Definition recreate_config (newDeliver : string) (sseq : Z) (c : ConsumerConfig)
  : ConsumerConfig :=
  mkConfigObject
    (ack_policy c) (durable_name c) (Some newDeliver) (deliver_group c)
    (max_deliver c) (cfg_flow_control c) (idle_heartbeat c) (ack_wait c)
    (mem_storage c) (num_replicas c) (filter_subject c) (filter_subjects c)
    (Some StartSequence) (Some sseq) (replay_policy c) (own_undefined c).

Definition set_sequence (o : OrderedConsumerSequence) (i : SubscriptionInfo)
  : SubscriptionInfo :=
  mkInfo (stream i) (config i) (deliver i) (attached i) (isBind i) (ordered i)
         (name i) (last i) (Some o) (flow_control i) (api_prefix i).

Section Methods.

(** [createInbox]: the n-th inbox the connection hands out. *)
Variable createInbox : nat -> string.
(** [Js409Errors.IdleHeartbeatMissed]. *)
Variable IdleHeartbeatMissed : string.
(** [ErrorCode.RequestError]. *)
Variable RequestError : string.

Definition create_subject (i : SubscriptionInfo) : string :=
  api_prefix i ++ ".CONSUMER.CREATE." ++ stream i.

(** [_resetOrderedConsumer(sseq)], up to the moment the create request
    is sent. *)
Definition _resetOrderedConsumer (sseq : Z) (s : Subscription) : Result unit :=
  match info s with
  | None => Ok s tt
  | Some i =>
    if isClosed s then Ok s tt
    else
      let newDeliver := createInbox (inboxes s) in
      let s1 := _resub newDeliver s in
      match ordered_consumer_sequence i with
      | None => Thrown s1 TypeError
      | Some ocs =>
        let fc := flow_control i in
        let cfg := recreate_config newDeliver sseq (config i) in
        let i' :=
          mkInfo (stream i) cfg newDeliver (attached i) (isBind i) (ordered i)
                 (name i) (last i) (Some (mkSeq (stream_seq ocs) 0))
                 (mkFlow 0 0 (consumer_restarts fc + 1)) (api_prefix i) in
        Ok (log [Request (create_subject i) (stream i) cfg] (set_info i' s1)) tt
      end
  end.

(** The [then] branch of the create request: adopt the server's answer. *)
Definition _resetOrderedConsumer_then (ci : ConsumerInfo) (s : Subscription)
  : Result unit :=
  match info s with
  | None => Thrown s TypeError
  | Some i =>
    Ok (set_info
          (mkInfo (stream i) (ci_config ci) (deliver i) (attached i) (isBind i)
                  (ordered i) (Some (ci_name ci)) (last i)
                  (ordered_consumer_sequence i) (flow_control i) (api_prefix i))
          s) tt
  end.

(** The [catch] branch: an error is injected into the subscription. *)
Definition _resetOrderedConsumer_catch (stream_name : string) (sseq : Z)
  (s : Subscription) : Subscription :=
  log [Callback
         (Some (NatsError ("unable to recreate ordered consumer " ++ stream_name
                           ++ " at seq " ++ show sseq) RequestError))
         None] s.

(** [_checkOrderedConsumer(jm)]: the boolean is the ingest decision. *)
Definition _checkOrderedConsumer (jm : JsMsg) (s : Subscription) : Result bool :=
  match info s with
  | None => Thrown s TypeError
  | Some i =>
    match ordered_consumer_sequence i with
    | None => Thrown s TypeError
    | Some ord =>
      let sseq := streamSequence jm in
      let dseq := deliverySequence jm in
      if negb (dseq =? delivery_seq ord + 1)%Z then
        match _resetOrderedConsumer (stream_seq ord + 1) s with
        | Ok s' _ => Ok s' false
        | Thrown s' e => Thrown s' e
        end
      else Ok (set_info (set_sequence (mkSeq sseq dseq) i) s) true
    end
  end.

(** [this.info?.ordered], as a condition. *)
Definition is_ordered (s : Subscription) : bool :=
  match info s with
  | Some i => ordered i
  | None => false
  end.

(** [newJsErrorMsg(409, `${IdleHeartbeatMissed}: ${v}`, this.sub.subject)]. *)
Definition missed_msg (v : Z) (s : Subscription) : StatusMsg :=
  mkStatusMsg 409 (IdleHeartbeatMissed ++ ": " ++ show v) (subject s).

(** The [handler] closure of [_setupHbMonitoring]; the boolean is what
    it returns to the monitor. *)
Definition handler (v : Z) (s : Subscription) : Result bool :=
  let msg := missed_msg v s in
  if negb (is_ordered s) then
    Ok (log [Callback None (Some msg)] s) (negb (noIterator s))
  else if negb (connected s) then Ok s false
  else
    let seq :=
      match info s with
      | Some i =>
        match ordered_consumer_sequence i with
        | Some o => num_or (Some (stream_seq o)) 0
        | None => 0
        end
      | None => 0
      end in
    match _resetOrderedConsumer (seq + 1) s with
    | Ok s' _ => Ok s' false
    | Thrown s' e => Thrown s' e
    end.

(** The sequence pair recorded on a subscription. *)
Definition recorded (s : Subscription) : option OrderedConsumerSequence :=
  match info s with
  | Some i => ordered_consumer_sequence i
  | None => None
  end.

(** The create request of a recreate at [sseq], listening on [nd]. *)
Definition recreate_request (i : SubscriptionInfo) (nd : string) (sseq : Z) : Effect :=
  Request (create_subject i) (stream i) (recreate_config nd sseq (config i)).

(** A live ordered subscription that has accepted delivery 4 (stream
    sequence 17), and an inbox allocator. *)
Definition sample_info : SubscriptionInfo :=
  mkInfo "ORDERS" empty_config "_INBOX.0" false false true (Some "c1") None
         (Some (mkSeq 17 4)) (mkFlow 0 0 0) "$JS.API".

Definition sample_sub : Subscription :=
  mkSub (Some sample_info) false "_INBOX.0" false true 1 [].

Definition sample_inbox (n : nat) : string := "_INBOX." ++ show (Z.of_nat n).

(** *** Properties *)

Lemma num_or_zero (n : Z) : num_or (Some n) 0 = n.
Proof.
  unfold num_or. destruct (Z.eqb_spec n 0); congruence.
Qed.

Lemma reset_live (sseq : Z) (s : Subscription) (i : SubscriptionInfo)
  (ord : OrderedConsumerSequence) :
  info s = Some i ->
  ordered_consumer_sequence i = Some ord ->
  isClosed s = false ->
  exists s',
    _resetOrderedConsumer sseq s = Ok s' tt /\
    effects s' = (effects s ++ [Resub (createInbox (inboxes s));
                                recreate_request i (createInbox (inboxes s)) sseq])%list /\
    recorded s' = Some (mkSeq (stream_seq ord) 0) /\
    isClosed s' = false.
Proof.
  intros Hi Ho Hc. unfold _resetOrderedConsumer. rewrite Hi, Hc, Ho.
  eexists. split; [reflexivity|]. cbn. rewrite <- app_assoc. auto.
Qed.

Lemma reset_closed (sseq : Z) (s : Subscription) :
  isClosed s = true -> _resetOrderedConsumer sseq s = Ok s tt.
Proof.
  intros Hc. unfold _resetOrderedConsumer. rewrite Hc. now destruct (info s).
Qed.

(** An accepted message: the check ran on a recorded pair whose delivery
    sequence it continues, and only the recorded pair changed. *)
Lemma check_accept_inv (jm : JsMsg) (s s' : Subscription) :
  _checkOrderedConsumer jm s = Ok s' true ->
  exists i ord,
    info s = Some i /\ ordered_consumer_sequence i = Some ord /\
    deliverySequence jm = delivery_seq ord + 1 /\
    s' = set_info (set_sequence (mkSeq (streamSequence jm) (deliverySequence jm)) i) s.
Proof.
  unfold _checkOrderedConsumer.
  destruct (info s) as [i|]; [|discriminate].
  destruct (ordered_consumer_sequence i) as [ord|] eqn:Ho; [|discriminate].
  cbv zeta.
  destruct (Z.eqb_spec (deliverySequence jm) (delivery_seq ord + 1)) as [E|NE];
    cbn [negb].
  - intros H. injection H as <-. exists i, ord. auto.
  - destruct (_resetOrderedConsumer (stream_seq ord + 1) s); discriminate.
Qed.

(** C1. Sequence check of an ordered consumer ([_checkOrderedConsumer]).
    When the delivery sequence of the message is the recorded
    [delivery_seq + 1], both recorded sequences become the message's, the
    message is ingested and nothing is sent.  Otherwise the message is not
    ingested, and on a live subscription the consumer is recreated: the
    subscription is rebound to a fresh inbox and a create request is sent
    whose start sequence is the recorded [stream_seq + 1] (the recreate
    procedure returns at once on a closed subscription).  Hence every
    accepted message advances the recorded delivery sequence by exactly
    one, and two messages accepted one after the other carry consecutive
    delivery sequences. *)
Theorem checkOrderedConsumer_sequence_check :
  forall (s : Subscription) (i : SubscriptionInfo)
         (ord : OrderedConsumerSequence) (jm : JsMsg),
    info s = Some i ->
    ordered_consumer_sequence i = Some ord ->
    (deliverySequence jm = delivery_seq ord + 1 ->
     exists s',
       _checkOrderedConsumer jm s = Ok s' true /\
       recorded s' = Some (mkSeq (streamSequence jm) (deliverySequence jm)) /\
       effects s' = effects s) /\
    (deliverySequence jm <> delivery_seq ord + 1 ->
     exists s', _checkOrderedConsumer jm s = Ok s' false) /\
    (deliverySequence jm <> delivery_seq ord + 1 ->
     isClosed s = false ->
     exists s' cfg,
       _checkOrderedConsumer jm s = Ok s' false /\
       effects s' = (effects s ++
                     [Resub (createInbox (inboxes s));
                      Request (create_subject i) (stream i) cfg])%list /\
       deliver_policy cfg = Some StartSequence /\
       opt_start_seq cfg = Some (stream_seq ord + 1) /\
       deliver_subject cfg = Some (createInbox (inboxes s)) /\
       recorded s' = Some (mkSeq (stream_seq ord) 0)) /\
    (forall s' o',
       _checkOrderedConsumer jm s = Ok s' true ->
       recorded s' = Some o' ->
       delivery_seq o' = delivery_seq ord + 1 /\
       stream_seq o' = streamSequence jm) /\
    (forall s1 s2 next,
       _checkOrderedConsumer jm s = Ok s1 true ->
       _checkOrderedConsumer next s1 = Ok s2 true ->
       deliverySequence next = deliverySequence jm + 1).
Proof.
  intros s i ord jm Hi Ho.
  split; [|split; [|split; [|split]]].
  - intros E. unfold _checkOrderedConsumer. rewrite Hi, Ho. cbv zeta.
    rewrite E, Z.eqb_refl. cbn [negb].
    eexists. split; [reflexivity|]. split; reflexivity.
  - intros NE. unfold _checkOrderedConsumer. rewrite Hi, Ho. cbv zeta.
    apply Z.eqb_neq in NE. rewrite NE. cbn [negb].
    destruct (_resetOrderedConsumer (stream_seq ord + 1) s) eqn:R.
    + eexists. reflexivity.
    + exfalso. unfold _resetOrderedConsumer in R. rewrite Hi, Ho in R.
      destruct (isClosed s); discriminate.
  - intros NE Hc. unfold _checkOrderedConsumer. rewrite Hi, Ho. cbv zeta.
    apply Z.eqb_neq in NE. rewrite NE. cbn [negb].
    destruct (reset_live (stream_seq ord + 1) s i ord Hi Ho Hc)
      as (s' & R & He & Hr & _).
    rewrite R. exists s'. eexists. split; [reflexivity|].
    split; [exact He|]. cbn. auto.
  - intros s' o' H Hrec.
    destruct (check_accept_inv jm s s' H) as (i' & ord' & Hi' & Ho' & E & ->).
    rewrite Hi in Hi'. injection Hi' as <-. rewrite Ho in Ho'. injection Ho' as <-.
    cbn in Hrec. injection Hrec as <-. cbn. auto.
  - intros s1 s2 next H1 H2.
    destruct (check_accept_inv jm s s1 H1) as (i1 & ord1 & _ & _ & _ & ->).
    destruct (check_accept_inv next _ s2 H2) as (i2 & ord2 & Hi2 & Ho2 & E & _).
    cbn in Hi2. injection Hi2 as <-. cbn in Ho2. injection Ho2 as <-.
    exact E.
Qed.

(** C4. Missed heartbeats ([handler] of [_setupHbMonitoring]).  A
    subscription that is not ordered gets a synthetic 409 frame, whose
    description is the IdleHeartbeatMissed text followed by the miss
    count, through its callback.  An ordered subscription whose
    connection is up gets no frame: the consumer is recreated with start
    sequence the recorded [stream_seq + 1] (on a live subscription).  An
    ordered subscription whose connection is down is left untouched. *)
Theorem handler_missed_heartbeats :
  forall (v : Z) (s : Subscription),
    (is_ordered s = false ->
     exists s',
       handler v s = Ok s' (negb (noIterator s)) /\
       effects s' = (effects s ++
                     [Callback None
                        (Some (mkStatusMsg 409
                                 (IdleHeartbeatMissed ++ ": " ++ show v)
                                 (subject s)))])%list /\
       info s' = info s) /\
    (forall i ord,
       info s = Some i -> ordered i = true ->
       ordered_consumer_sequence i = Some ord ->
       connected s = true -> isClosed s = false ->
       exists s' cfg,
         handler v s = Ok s' false /\
         effects s' = (effects s ++
                       [Resub (createInbox (inboxes s));
                        Request (create_subject i) (stream i) cfg])%list /\
         deliver_policy cfg = Some StartSequence /\
         opt_start_seq cfg = Some (stream_seq ord + 1)) /\
    (is_ordered s = true -> connected s = false -> handler v s = Ok s false).
Proof.
  intros v s. unfold handler. repeat split.
  - intros H. rewrite H. cbn. eexists. split; [reflexivity|]. split; reflexivity.
  - intros i ord Hi Hord Ho Hconn Hc.
    unfold is_ordered. rewrite Hi, Hord, Hconn, Ho. cbn [negb].
    rewrite num_or_zero.
    destruct (reset_live (stream_seq ord + 1) s i ord Hi Ho Hc)
      as (s' & R & He & _).
    rewrite R. exists s'. eexists. split; [reflexivity|].
    split; [exact He|]. cbn. auto.
  - intros H Hconn. rewrite H, Hconn. reflexivity.
Qed.

End Methods.

Lemma checkOrderedConsumer_sequence_check_witness :
  (exists s', _checkOrderedConsumer sample_inbox (mkJsMsg 18 5 0 5) sample_sub
              = Ok s' true) /\
  (exists s', _checkOrderedConsumer sample_inbox (mkJsMsg 20 7 0 5) sample_sub
              = Ok s' false).
Proof.
  split.
  - destruct (checkOrderedConsumer_sequence_check sample_inbox sample_sub
                sample_info (mkSeq 17 4) (mkJsMsg 18 5 0 5) eq_refl eq_refl)
      as (H & _).
    destruct (H eq_refl) as (s' & E & _). exists s'. exact E.
  - destruct (checkOrderedConsumer_sequence_check sample_inbox sample_sub
                sample_info (mkSeq 17 4) (mkJsMsg 20 7 0 5) eq_refl eq_refl)
      as (_ & H & _).
    apply H. cbn. lia.
Defined.

Lemma handler_missed_heartbeats_witness :
  exists s' cfg,
    handler sample_inbox "idle heartbeats missed" 2 sample_sub = Ok s' false /\
    effects s' = [Resub "_INBOX.1"; Request "$JS.API.CONSUMER.CREATE.ORDERS" "ORDERS" cfg] /\
    opt_start_seq cfg = Some 18.
Proof.
  destruct (handler_missed_heartbeats sample_inbox "idle heartbeats missed" 2
              sample_sub) as (_ & H & _).
  destruct (H sample_info (mkSeq 17 4) eq_refl eq_refl eq_refl eq_refl eq_refl)
    as (s' & cfg & E & He & _ & Hs).
  exists s', cfg. repeat split; assumption.
Defined.

End Subscription.

(** ** JetStreamClientImpl.publish: expectation headers, retry loop, ack *)
Module Publish.
Import Js.

Definition Headers := list (string * string).

(** [mh.set(k, v)] once the value has passed the check of the header
    object: the key loses the values it had and gets the checked value,
    as the last entry. *)
Definition hdr_set (k v : string) (h : Headers) : Headers :=
  (filter (fun kv => negb (fst kv =? k)%string) h ++ [(k, v)])%list.

Record Expect := mkExpect {
  lastMsgID : option string;
  streamName : option string;
  lastSequence : option Z;
  lastSubjectSequence : option Z
}.

(** [Partial<JetStreamPublishOptions>], with the two retry properties the
    method reads through a cast. *)
Record PublishOptions := mkPublishOptions {
  msgID : option string;
  timeout : option Z;
  headers : option Headers;
  expect : option Expect;
  retries : option Z;
  retry_delay : option Z
}.

Definition no_options : PublishOptions :=
  mkPublishOptions None None None None None None.

Record RequestOptions := mkRequestOptions {
  ro_timeout : option Z;
  ro_headers : option Headers
}.

Record PubAck := mkPubAck {
  stream : string;
  seq : Z;
  duplicate : option bool
}.

(** What one publish call does on the wire, in order. *)
Inductive Event :=
| Wire (subj : string) (data : string) (ro : RequestOptions)
| Delay (ms : Z).

(** How the retry loop ends: with a reply, with a rethrown error, without
    having sent anything, or (for the model only) out of fuel. *)
Inductive LoopEnd (Msg : Type) :=
| Replied (r : Msg)
| Raised (err : JsError)
| NoReply
| OutOfFuel.
Arguments Replied {Msg} r.
Arguments Raised {Msg} err.
Arguments NoReply {Msg}.
Arguments OutOfFuel {Msg}.

Section Client.

(** The check the header object of the transport makes on a value it is
    asked to store: the value as stored (trimmed), or the error thrown
    (BAD_HEADER, for a value with a carriage return or a line feed). *)
Variable validHeaderValue : string -> Completion string.

(** [mh.set(k, v)]: throws when the value does not pass the check. *)
Definition mh_set (k v : string) (mh : Headers) : Completion Headers :=
  bind (validHeaderValue v) (fun v' => Normal (hdr_set k v' mh)).

(** [if (b) { mh.set(k, v); }], skipped once the block has thrown. *)
Definition set_if (b : bool) (k v : string) (mh : Completion Headers)
  : Completion Headers :=
  bind mh (fun h => if b then mh_set k v h else Normal h).

(** The header block: one [mh.set] per expectation that is present; the
    first value that does not pass the check ends the call. *)
Definition build_headers (o : PublishOptions) : Completion Headers :=
  let e := match expect o with Some e => e | None => mkExpect None None None None end in
  let mh := Normal (match headers o with Some h => h | None => [] end) in
  let mh := set_if (truthy_str (msgID o)) "Nats-Msg-Id" (str_nullish (msgID o) "") mh in
  let mh := set_if (truthy_str (lastMsgID e)) "Nats-Expected-Last-Msg-Id"
                   (str_nullish (lastMsgID e) "") mh in
  let mh := set_if (truthy_str (streamName e)) "Nats-Expected-Stream"
                   (str_nullish (streamName e) "") mh in
  let mh := match lastSequence e with
            | Some n => set_if true "Nats-Expected-Last-Sequence" (show n) mh
            | None => mh
            end in
  match lastSubjectSequence e with
  | Some n => set_if true "Nats-Expected-Last-Subject-Sequence" (show n) mh
  | None => mh
  end.

(** The header object, for a call whose header block has completed. *)
Definition headers_of (o : PublishOptions) : Headers :=
  match build_headers o with
  | Normal mh => mh
  | Throw _ => []
  end.

(** The reply type of the transport. *)
Variable Msg : Type.
(** [this.nc.request]: what the k-th wire request of this call meets, a
    reply or a rejection. *)
Variable request : Z -> Msg + JsError.
(** [this.parseJsResponse(r!)]; [None] is the [undefined] a loop that
    sent nothing leaves in [r]. *)
Variable parseJsResponse : option Msg -> Completion PubAck.
(** [NatsError.errorForCode(ErrorCode.JetStreamInvalidAck)]. *)
Variable InvalidAck : JsError.
(** [this.timeout]. *)
Variable default_timeout : Z.

Definition is_503 (err : JsError) : bool :=
  match code_of err with
  | Some c => (c =? "503")%string
  | None => false
  end.

(** The [for (let i = 0; i < retries; i++)] loop, from index [i]. *)
Fixpoint attempts (fuel : nat) (w : Event) (i retries retry_delay : Z)
  : list Event * LoopEnd Msg :=
  match fuel with
  | O => ([], OutOfFuel)
  | S fuel' =>
    if (i <? retries)%Z then
      match request i with
      | inl r => ([w], Replied r)
      | inr err =>
        if is_503 err && (i + 1 <? retries)%Z then
          let (tr, e) := attempts fuel' w (i + 1) retries retry_delay in
          (w :: Delay retry_delay :: tr, e)
        else ([w], Raised err)
      end
    else ([], NoReply)
  end.

(** The lines after the loop: parse, reject an empty stream, normalise
    [duplicate]. *)
Definition ack_of (parsed : Completion PubAck) : Completion PubAck :=
  bind parsed (fun pa =>
    if (stream pa =? "")%string then Throw InvalidAck
    else Normal (mkPubAck (stream pa) (seq pa)
                          (Some (bool_or_false (duplicate pa))))).

Definition request_options (o : PublishOptions) : RequestOptions :=
  let to := num_or (timeout o) default_timeout in
  mkRequestOptions (if (to =? 0)%Z then None else Some to) (Some (headers_of o)).

(** [opts = opts || {}]. *)
Definition options_of (opts : option PublishOptions) : PublishOptions :=
  match opts with
  | Some o => o
  | None => no_options
  end.

Definition effective_retries (o : PublishOptions) : Z := num_or (retries o) 1.
Definition effective_delay (o : PublishOptions) : Z := num_or (retry_delay o) 250.

(** [publish(subj, data, opts)]: the wire trace and how the call
    completes; [None] only if the loop ran out of fuel.  A header value
    that does not pass the check ends the call before anything is sent. *)
Definition publish (subj data : string) (opts : option PublishOptions)
  : list Event * option (Completion PubAck) :=
  let o := options_of opts in
  match build_headers o with
  | Throw e => ([], Some (Throw e))
  | Normal _ =>
    let r := effective_retries o in
    let w := Wire subj data (request_options o) in
    let (tr, e) := attempts (S (Z.to_nat r)) w 0 r (effective_delay o) in
    (tr, match e with
         | Replied m => Some (ack_of (parseJsResponse (Some m)))
         | Raised err => Some (Throw err)
         | NoReply => Some (ack_of (parseJsResponse None))
         | OutOfFuel => None
         end)
  end.

(** [n] wire requests with a delay of [d] between consecutive ones. *)
Fixpoint schedule (w : Event) (d : Z) (n : nat) : list Event :=
  match n with
  | O => []
  | S O => [w]
  | S n' => w :: Delay d :: schedule w d n'
  end.

Definition is_wire (e : Event) : bool :=
  match e with
  | Wire _ _ _ => true
  | Delay _ => false
  end.

Definition wire_requests (tr : list Event) : nat :=
  length (filter is_wire tr).

(** A transport whose first two answers are 503 rejections and whose
    third is a reply, with a parser that reads an ack without
    [duplicate]. *)
Definition sample_request (k : Z) : string + JsError :=
  if (k <? 2)%Z then inr (NatsError "no responders" "503") else inl "reply".

Definition sample_parse (m : option string) : Completion PubAck :=
  match m with
  | Some _ => Normal (mkPubAck "ORDERS" 7 None)
  | None => Throw TypeError
  end.

Definition sample_options : PublishOptions :=
  mkPublishOptions (Some "id-1") None None None (Some 3) None.

(** A check that refuses a value with a carriage return or a line feed
    and stores any other value as it is. *)
Definition sample_check (v : string) : Completion string :=
  if existsb (fun c => Ascii.eqb c "010" || Ascii.eqb c "013")
             (list_ascii_of_string v)
  then Throw (NatsError "invalid header value" "BAD_HEADER")
  else Normal v.

(** *** Properties *)

Lemma is_503_code (err : JsError) :
  is_503 err = true <-> code_of err = Some "503".
Proof.
  unfold is_503. destruct (code_of err) as [c|].
  - rewrite String.eqb_eq. split; congruence.
  - split; discriminate.
Qed.

Lemma schedule_step (w : Event) (d : Z) (n : nat) :
  (0 < n)%nat -> schedule w d (S n) = w :: Delay d :: schedule w d n.
Proof.
  destruct n; [lia | reflexivity].
Qed.

Lemma wire_requests_schedule (subj data : string) (ro : RequestOptions)
  (d : Z) (n : nat) :
  wire_requests (schedule (Wire subj data ro) d n) = n.
Proof.
  induction n as [|[|n] IH]; try reflexivity.
  change (S (wire_requests (schedule (Wire subj data ro) d (S n))) = S (S n)).
  now rewrite IH.
Qed.

(** The loop from index [i]: its trace is a schedule of [n] requests, each
    but the last rejected with 503 while attempts remained, and its end is
    decided by the last request alone. *)
Lemma attempts_spec (w : Event) (retries d : Z) :
  forall (fuel : nat) (i : Z),
    (Z.to_nat (retries - i) < fuel)%nat ->
    exists (n : nat) (e : LoopEnd Msg),
      attempts fuel w i retries d = (schedule w d n, e) /\
      Z.of_nat n <= Z.max 0 (retries - i) /\
      (i < retries -> (0 < n)%nat) /\
      (forall k, (S k < n)%nat ->
         exists err, request (i + Z.of_nat k) = inr err /\
                     is_503 err = true /\ i + Z.of_nat k + 1 < retries) /\
      match n with
      | O => e = NoReply
      | S m =>
        match request (i + Z.of_nat m) with
        | inl r => e = Replied r
        | inr err => e = Raised err /\
                     (is_503 err = false \/ retries <= i + Z.of_nat m + 1)
        end
      end.
Proof.
  induction fuel as [|fuel IH]; intros i Hf; [lia|].
  cbn [attempts]. destruct (Z.ltb_spec i retries) as [Hlt|Hge].
  - destruct (request i) as [r|err] eqn:Hr.
    + exists 1%nat, (Replied r). cbn [schedule Z.of_nat].
      rewrite Z.add_0_r, Hr. repeat split; lia.
    + destruct (is_503 err) eqn:H5; cbn [andb].
      * destruct (Z.ltb_spec (i + 1) retries) as [Hlt'|Hge'].
        -- destruct (IH (i + 1)) as (n & e & Ha & Hn & Hpos & Hmid & Hend); [lia|].
           rewrite Ha. exists (S n), e.
           specialize (Hpos Hlt').
           rewrite schedule_step by exact Hpos.
           repeat split; try lia.
           ++ intros [|k] Hk.
              ** exists err. rewrite Z.add_0_r. cbn. repeat split; try assumption; lia.
              ** destruct (Hmid k) as (err' & H1 & H2 & H3); [lia|].
                 exists err'.
                 replace (i + Z.of_nat (S k)) with (i + 1 + Z.of_nat k) by lia.
                 repeat split; try assumption; lia.
           ++ destruct n as [|m]; [lia|].
              replace (i + Z.of_nat (S m)) with (i + 1 + Z.of_nat m) by lia.
              exact Hend.
        -- exists 1%nat, (Raised err). cbn [schedule Z.of_nat].
           rewrite Z.add_0_r, Hr. repeat split; try lia; right; lia.
      * exists 1%nat, (Raised err). cbn [schedule Z.of_nat].
        rewrite Z.add_0_r, Hr. repeat split; try lia; left; assumption.
  - exists 0%nat, NoReply. cbn [schedule]. repeat split; lia.
Qed.

(** The whole call: the loop never runs out of fuel, and the completion
    is read off the last wire request; a call that sent nothing was
    stopped by the header block or had no attempt to make. *)
Lemma publish_spec (subj data : string) (opts : option PublishOptions) :
  let o := options_of opts in
  let r := effective_retries o in
  let w := Wire subj data (request_options o) in
  exists (n : nat) (res : Completion PubAck),
    publish subj data opts = (schedule w (effective_delay o) n, Some res) /\
    Z.of_nat n <= Z.max 0 r /\
    (forall k, (S k < n)%nat ->
       exists err, request (Z.of_nat k) = inr err /\
                   is_503 err = true /\ Z.of_nat k + 1 < r) /\
    match n with
    | O => match build_headers o with
           | Throw e => res = Throw e
           | Normal _ => res = ack_of (parseJsResponse None)
           end
    | S m =>
      match request (Z.of_nat m) with
      | inl rep => res = ack_of (parseJsResponse (Some rep))
      | inr err => res = Throw err /\
                   (is_503 err = false \/ r <= Z.of_nat m + 1)
      end
    end.
Proof.
  intros o r w. unfold publish. fold o.
  destruct (build_headers o) as [mh|e0] eqn:Hb.
  - fold r. fold w.
    destruct (attempts_spec w r (effective_delay o) (S (Z.to_nat r)) 0)
      as (n & e & Ha & Hn & _ & Hmid & Hend); [rewrite Z.sub_0_r; lia|].
    rewrite Ha. rewrite Z.sub_0_r in Hn.
    destruct n as [|m].
    + subst e. eexists 0%nat, _. repeat split; try eassumption.
    + cbn [Z.add] in Hend.
      destruct (request (Z.of_nat m)) as [rep|err] eqn:Hr.
      * subst e. exists (S m). eexists. repeat split; try eassumption.
        rewrite Hr. reflexivity.
      * destruct Hend as [-> Hlast]. exists (S m). eexists.
        repeat split; try eassumption. rewrite Hr. split; [reflexivity|exact Hlast].
  - exists 0%nat, (Throw e0). cbn [schedule].
    split; [reflexivity|]. split; [lia|]. split; [intros k Hk; lia|reflexivity].
Qed.

(** C3. Retry policy of [publish].  With [r] the retry count (1 when the
    option is absent or 0) and [d] the retry delay (250 when absent or
    0), the wire trace is a schedule of [n] identical requests separated
    by delays of [d], with [n] at most [r]; every request that was
    followed by another one had been rejected with code 503 while an
    attempt remained; and a rejection that is not a 503, or a 503 on the
    last attempt, ends the trace at that request and is rethrown to the
    caller. *)
Theorem publish_retry_policy :
  forall (subj data : string) (opts : option PublishOptions),
    let o := options_of opts in
    let r := effective_retries o in
    let d := effective_delay o in
    let w := Wire subj data (request_options o) in
    (retries o = None -> r = 1) /\
    (retry_delay o = None -> d = 250) /\
    exists (n : nat) (res : Completion PubAck),
      publish subj data opts = (schedule w d n, Some res) /\
      wire_requests (schedule w d n) = n /\
      Z.of_nat n <= Z.max 0 r /\
      (forall k, (S k < n)%nat ->
         exists err, request (Z.of_nat k) = inr err /\
                     code_of err = Some "503" /\ Z.of_nat k + 1 < r) /\
      (forall k err, (k < n)%nat ->
         request (Z.of_nat k) = inr err ->
         code_of err <> Some "503" \/ r <= Z.of_nat k + 1 ->
         n = S k /\ res = Throw err).
Proof.
  intros subj data opts o r d w.
  split; [intros H; unfold r, effective_retries; now rewrite H|].
  split; [intros H; unfold d, effective_delay; now rewrite H|].
  destruct (publish_spec subj data opts) as (n & res & Hp & Hn & Hmid & Hend).
  fold o in Hp, Hn, Hmid, Hend. fold r in Hn, Hmid, Hend. fold d w in Hp.
  exists n, res. split; [exact Hp|].
  split; [apply wire_requests_schedule|].
  split; [exact Hn|]. split.
  - intros k Hk. destruct (Hmid k Hk) as (err & H1 & H2 & H3).
    exists err. rewrite <- is_503_code. auto.
  - intros k err Hk Hr Hstop.
    assert (n = S k) as ->.
    { destruct (Nat.eq_dec n (S k)) as [E|NE]; [exact E|exfalso].
      destruct (Hmid k) as (err' & H1 & H2 & H3); [lia|].
      rewrite Hr in H1. injection H1 as <-.
      apply is_503_code in H2. destruct Hstop as [Hc|Hl]; [congruence|lia]. }
    split; [reflexivity|]. rewrite Hr in Hend. tauto.
Qed.

(** C7. Publish acknowledgement.  When the last wire request of a publish
    was answered, the completion of the call is computed from the parsed
    reply: an ack whose stream is the empty string makes the call fail
    with the InvalidAck error; any other ack is returned with its stream
    and sequence, and with [duplicate] true only if the reply said true,
    false when the reply omitted it or said false. *)
Theorem publish_ack_normalised :
  forall (subj data : string) (opts : option PublishOptions)
         (tr : list Event) (res : Completion PubAck) (k : nat) (rep : Msg),
    publish subj data opts = (tr, Some res) ->
    wire_requests tr = S k ->
    request (Z.of_nat k) = inl rep ->
    res = ack_of (parseJsResponse (Some rep)) /\
    forall pa, parseJsResponse (Some rep) = Normal pa ->
      (stream pa = "" -> res = Throw InvalidAck) /\
      (stream pa <> "" ->
       res = Normal (mkPubAck (stream pa) (seq pa)
                       (Some match duplicate pa with
                             | Some true => true
                             | _ => false
                             end))).
Proof.
  intros subj data opts tr res k rep Hp Hw Hr.
  destruct (publish_spec subj data opts) as (n & res' & Hp' & _ & _ & Hend).
  rewrite Hp in Hp'. injection Hp' as -> ->.
  destruct (options_of opts) as [mi to hd ex rt rd] eqn:Ho.
  rewrite wire_requests_schedule in Hw. subst n. rewrite Hr in Hend.
  split; [exact Hend|]. intros pa Hpa. rewrite Hend, Hpa. cbn.
  destruct (String.eqb_spec (stream pa) "") as [E|NE].
  - split; [reflexivity|congruence].
  - split; [congruence|]. intros _. now destruct (duplicate pa) as [[|]|].
Qed.

End Client.

Lemma publish_ack_normalised_witness :
  snd (publish sample_check string sample_request sample_parse
         (Error "invalid ack") 5000 "orders.new" "hello" (Some sample_options))
  = Some (Normal (mkPubAck "ORDERS" 7 (Some false))).
Proof.
  pose proof (publish_ack_normalised sample_check string sample_request
                sample_parse (Error "invalid ack") 5000 "orders.new" "hello"
                (Some sample_options) _ _ 2%nat "reply"
                eq_refl eq_refl eq_refl) as [_ H].
  destruct (H (mkPubAck "ORDERS" 7 None) eq_refl) as [_ H'].
  apply (f_equal Some). apply H'. discriminate.
Defined.

End Publish.

(** ** Helpers of jsutil the client calls *)
Module Util.

(** Modelled from the spec: [nanos] (jsutil) converts the milliseconds
    the options carry into the nanoseconds of the wire ("idle_heartbeat=5s"
    is [nanos(5000)], "ack_wait=30s" is [nanos(30 * 1000)]). *)
Definition nanos (millis : Z) : Z := millis * 1000000.

(** [Partial<PullOptions>], as given by the caller and as encoded in the
    body of a pull request. *)
Record PullOptions := mkPullOptions {
  batch : option Z;
  no_wait : option bool;
  max_bytes : option Z;
  expires : option Z;
  idle_heartbeat : option Z;
  delay_heartbeat : option bool
}.

Definition no_args : PullOptions := mkPullOptions None None None None None None.

Definition set_batch (v : Z) (a : PullOptions) : PullOptions :=
  mkPullOptions (Some v) (no_wait a) (max_bytes a) (expires a) (idle_heartbeat a)
                (delay_heartbeat a).
Definition set_no_wait (v : bool) (a : PullOptions) : PullOptions :=
  mkPullOptions (batch a) (Some v) (max_bytes a) (expires a) (idle_heartbeat a)
                (delay_heartbeat a).
Definition set_max_bytes (v : Z) (a : PullOptions) : PullOptions :=
  mkPullOptions (batch a) (no_wait a) (Some v) (expires a) (idle_heartbeat a)
                (delay_heartbeat a).
Definition set_expires (v : Z) (a : PullOptions) : PullOptions :=
  mkPullOptions (batch a) (no_wait a) (max_bytes a) (Some v) (idle_heartbeat a)
                (delay_heartbeat a).
Definition set_idle_heartbeat (v : Z) (a : PullOptions) : PullOptions :=
  mkPullOptions (batch a) (no_wait a) (max_bytes a) (expires a) (Some v)
                (delay_heartbeat a).

(** [(opts.max_bytes ?? 0) > 0]. *)
Definition wants_max_bytes (o : PullOptions) : bool :=
  match max_bytes o with
  | Some v => (0 <? v)%Z
  | None => false
  end.

(** The error both pull paths raise when the server lacks the feature. *)
Definition max_bytes_unsupported (min : string) : Js.JsError :=
  Js.Error ("max_bytes is only supported on servers " ++ min ++ " or better").

End Util.

(** ** JetStreamClientImpl.fetch: request construction and iterator *)
Module Fetch.
Import Js Types Util.

(** What [fetch] does before it returns the iterator, in order. *)
Inductive Effect :=
| Subscribe (inbox : string) (max : option Z)
| StartTimer (ms : Z)
| StartMonitor (ms : Z)
| Publish (subj : string) (body : PullOptions) (reply : string).

(** The constants the closures of one fetch capture. *)
Record Captured := mkCaptured {
  trackBytes : bool;
  cap_max_bytes : Z;
  wants : Z
}.

(** The mutable variables of one fetch and of its iterator: [timer] and
    [monitor] say whether the variable holds a live object, [done] and
    [qi_err] are the iterator's, [pushed] are the messages handed to it. *)
Record Iterator := mkIterator {
  timer : bool;
  monitor : bool;
  received : Z;
  receivedBytes : Z;
  qi_received : Z;
  pushed : list JsMsg;
  done : bool;
  qi_err : option JsError;
  sub_closed : bool;
  draining : bool
}.

Record Started := mkStarted {
  args : PullOptions;
  captured : Captured;
  iterator : Iterator;
  effects : list Effect
}.

(** Modelled from the spec: [qi.stop(err?)] of the queued iterator
    ("errors pushed via stop(err) cause the next consumer read to surface
    that error and the iterator to be closed"). *)
Definition stop (e : option JsError) (q : Iterator) : Iterator :=
  mkIterator (timer q) (monitor q) (received q) (receivedBytes q) (qi_received q)
             (pushed q) true
             (match e with Some _ => e | None => qi_err q end)
             (sub_closed q) (draining q).

Definition count (bytes : Z) (q : Iterator) : Iterator :=
  mkIterator (timer q) (monitor q) (received q + 1) (receivedBytes q + bytes)
             (qi_received q) (pushed q) (done q) (qi_err q) (sub_closed q)
             (draining q).

Definition cancel_timer (q : Iterator) : Iterator :=
  mkIterator false (monitor q) (received q) (receivedBytes q) (qi_received q)
             (pushed q) (done q) (qi_err q) (sub_closed q) (draining q).

Definition cancel_monitor (q : Iterator) : Iterator :=
  mkIterator (timer q) false (received q) (receivedBytes q) (qi_received q)
             (pushed q) (done q) (qi_err q) (sub_closed q) (draining q).

Definition drain (q : Iterator) : Iterator :=
  mkIterator (timer q) (monitor q) (received q) (receivedBytes q) (qi_received q)
             (pushed q) (done q) (qi_err q) (sub_closed q) true.

Definition push (m : JsMsg) (q : Iterator) : Iterator :=
  mkIterator (timer q) (monitor q) (received q) (receivedBytes q)
             (qi_received q + 1) (pushed q ++ [m]) (done q) (qi_err q)
             (sub_closed q) (draining q).

(** The three reasons for which [dispatchedFn] calls [qi.stop()], on the
    counts that include the message just yielded; [qi_pending] is
    [qi.getPending()]. *)
Definition stop_condition (c : Captured) (qi_pending : Z) (m : JsMsg)
  (q : Iterator) : bool :=
  ((qi_pending =? 1)%Z && (pending m =? 0)%Z)
  || (wants c =? received q)%Z
  || ((0 <? cap_max_bytes c)%Z && (cap_max_bytes c <=? receivedBytes q)%Z).

(** [qi.dispatchedFn]. *)
Definition dispatchedFn (c : Captured) (qi_pending : Z) (m : option JsMsg)
  (q : Iterator) : Iterator :=
  match m with
  | None => q
  | Some m =>
    let q1 := count (if trackBytes c then data_length m else 0) q in
    if timer q1 && (pending m =? 0)%Z then q1
    else if stop_condition c qi_pending m q1 then stop None q1
    else q1
  end.

Inductive Event (Frame : Type) :=
| Dispatched (qi_pending : Z) (m : option JsMsg)
| Callback (err : option JsError) (msg : Frame)
| TimerFired
| Closed
| Missed (v : Z).
Arguments Dispatched {Frame} qi_pending m.
Arguments Callback {Frame} err msg.
Arguments TimerFired {Frame}.
Arguments Closed {Frame}.
Arguments Missed {Frame} v.

Definition set_err (e : JsError) (q : Iterator) : Iterator :=
  mkIterator (timer q) (monitor q) (received q) (receivedBytes q) (qi_received q)
             (pushed q) (done q) (Some e) (sub_closed q) (draining q).

Definition set_closed (q : Iterator) : Iterator :=
  mkIterator (timer q) (monitor q) (received q) (receivedBytes q) (qi_received q)
             (pushed q) (done q) (qi_err q) true (draining q).

(** [if (args.no_wait && args.expires) { args.expires = 0; }]. *)
Definition zero_expires (a : PullOptions) : PullOptions :=
  if bool_or_false (no_wait a) && negb (num_or (expires a) 0 =? 0)%Z
  then set_expires 0 a
  else a.

Definition next_subject (prefix stream durable : string) : string :=
  prefix ++ ".CONSUMER.MSG.NEXT." ++ stream ++ "." ++ durable.

Section Client.

(** [validateStreamName], [validateDurableName]: the error thrown, if any. *)
Variable validateStreamName : string -> option JsError.
Variable validateDurableName : string -> option JsError.
(** [this.nc.features.get(Feature.JS_PULL_MAX_BYTES)]. *)
Variable feature_ok : bool.
Variable feature_min : string.
(** The inbox [createInbox] returns to this call, and [this.prefix]. *)
Variable inbox : string.
Variable prefix : string.
(** Raw transport messages, with [checkJsError] and [toJsMsg]. *)
Variable Frame : Type.
Variable checkJsError : Frame -> option JsError.
Variable toJsMsg : Frame -> JsMsg.
(** [isTerminal409] and the error codes the classifier compares with. *)
Variable isTerminal409 : JsError -> bool.
Variable JetStream404NoMessages : string.
Variable JetStream408RequestTimeout : string.
Variable JetStream409 : string.
Variable JetStreamIdleHeartBeat : string.
Variable IdleHeartbeatMissed : string.

(** [hideNonTerminalJsErrors(ne)]. *)
Definition hideNonTerminalJsErrors (ne : JsError) : option JsError :=
  match code_of ne with
  | Some c =>
    if (c =? JetStream404NoMessages)%string then None
    else if (c =? JetStream408RequestTimeout)%string then None
    else if (c =? JetStream409)%string then
      if isTerminal409 ne then Some ne else None
    else Some ne
  | None => Some ne
  end.

(** [isNatsError(err)]. *)
Definition isNatsError (e : JsError) : bool :=
  match e with
  | NatsError _ _ => true
  | _ => false
  end.

(** The callback of the inbox subscription. *)
Definition callback (err : option JsError) (msg : Frame) (q : Iterator)
  : Iterator :=
  let err := match err with Some e => Some e | None => checkJsError msg end in
  match err with
  | Some e =>
    let q1 := cancel_timer q in
    if isNatsError e then
      stop (match hideNonTerminalJsErrors e with
            | None => None
            | Some _ => Some e
            end) q1
    else stop (Some e) q1
  | None => push (toJsMsg msg) q
  end.

(** The handler of the expiration timer. *)
Definition timer_fired (q : Iterator) : Iterator :=
  let q1 := if negb (sub_closed q) then cancel_timer (drain q) else q in
  if monitor q1 then cancel_monitor q1 else q1.

(** What runs once [sub.closed] resolves. *)
Definition on_closed (q : Iterator) : Iterator :=
  stop None (cancel_monitor (cancel_timer (set_closed q))).

(** Modelled from the spec: a function pushed onto the queued iterator
    ("push(valueOrErrFn)"; the heartbeat monitor preempts "the delivery
    stream by injecting sentinel items") is run by the consumer-side
    iteration when it reaches it, and an error the function leaves in
    [qi.err] ends the iteration with that error. *)
Definition run_pushed (f : Iterator -> Iterator) (q : Iterator) : Iterator :=
  let q1 := f q in
  match qi_err q1 with
  | Some _ => stop None q1
  | None => q1
  end.

(** A missed heartbeat: the monitor pushes a function that stores the
    IdleHeartbeatMissed error, which terminates the iterator. *)
Definition missed (v : Z) (q : Iterator) : Iterator :=
  run_pushed
    (set_err (NatsError (IdleHeartbeatMissed ++ ": " ++ show v)
                        JetStreamIdleHeartBeat)) q.

Definition step (c : Captured) (ev : Event Frame) (q : Iterator) : Iterator :=
  match ev with
  | Dispatched p m => dispatchedFn c p m q
  | Callback err msg => callback err msg q
  | TimerFired => timer_fired q
  | Closed => on_closed q
  | Missed v => missed v q
  end.

(** [(opts.max_bytes ?? 0) > 0 ? opts.max_bytes! : 0]. *)
Definition tracked_max_bytes (opts : PullOptions) : Z :=
  if wants_max_bytes opts then num_or (max_bytes opts) 0 else 0.

(** The request body as it stands when the [no_wait && expires] test
    runs: [batch], [max_bytes] (when tracked) and [no_wait] are set. *)
Definition args_until_no_wait (opts : PullOptions) : PullOptions :=
  let a := set_batch (num_or (batch opts) 1) no_args in
  let a := if (tracked_max_bytes opts =? 0)%Z then a
           else set_max_bytes (tracked_max_bytes opts) a in
  set_no_wait (bool_or_false (no_wait opts)) a.

(** [fetch(stream, durable, opts)] up to the return of the iterator. *)
Definition fetch (stream durable : string) (opts : PullOptions)
  : Completion Started :=
  guard (validateStreamName stream)
  (guard (validateDurableName durable)
  (guard (if negb (tracked_max_bytes opts =? 0)%Z && negb feature_ok
          then Some (max_bytes_unsupported feature_min) else None)
   (let a := zero_expires (args_until_no_wait opts) in
    let expires := num_or (expires opts) 0 in
    let a := if (expires =? 0)%Z then a else set_expires (nanos expires) a in
    guard (if (expires =? 0)%Z && negb (bool_or_false (no_wait a))
           then Some (Error "expires or no_wait is required") else None)
    (let hb := num_or (idle_heartbeat opts) 0 in
     let a :=
       if (hb =? 0)%Z then a
       else match delay_heartbeat opts with
            | Some true => set_idle_heartbeat (nanos (hb * 4)) a
            | _ => set_idle_heartbeat (nanos hb) a
            end in
     Normal
       (mkStarted a
          (mkCaptured (wants_max_bytes opts) (tracked_max_bytes opts)
                      (num_or (batch opts) 1))
          (mkIterator (negb (expires =? 0)%Z) (negb (hb =? 0)%Z) 0 0 0 []
                      false None false false)
          ([Subscribe inbox (batch opts)]
             ++ (if (expires =? 0)%Z then [] else [StartTimer expires])
             ++ (if (hb =? 0)%Z then [] else [StartMonitor hb])
             ++ [Publish (next_subject prefix stream durable) a inbox])))))).

(** The stop condition in the words of the specification, on the counts
    that include the yielded message: (a) one message pending in the
    iterator and [info.pending] is 0, (b) received equals the batch, (c)
    [max_bytes > 0] and the received bytes reach it. *)
Definition specified_stop (c : Captured) (qi_pending : Z) (m : JsMsg)
  (q : Iterator) : Prop :=
  (qi_pending = 1 /\ pending m = 0)
  \/ received q = wants c
  \/ (0 < cap_max_bytes c /\ cap_max_bytes c <= receivedBytes q).

(** An iterator whose expiration timer is armed, one message queued;
    the same without a timer; a fetch for one message and a fetch capped
    at five bytes. *)
Definition sample_armed : Iterator :=
  mkIterator true false 0 0 1 [] false None false false.
Definition sample_no_timer : Iterator :=
  mkIterator false false 0 0 1 [] false None false false.
Definition sample_one : Captured := mkCaptured false 0 1.
Definition sample_capped : Captured := mkCaptured true 5 1.
Definition sample_msg : JsMsg := mkJsMsg 1 1 0 5.

(** *** Properties *)

Lemma stop_condition_spec (c : Captured) (p : Z) (m : JsMsg) (q : Iterator) :
  stop_condition c p m q = true <-> specified_stop c p m q.
Proof using Type.
  unfold stop_condition, specified_stop.
  rewrite !orb_true_iff, !andb_true_iff, !Z.eqb_eq, Z.ltb_lt, Z.leb_le.
  split.
  - intros [[H|H]|H];
      [left; exact H | right; left; symmetry; exact H | right; right; exact H].
  - intros [H|[H|H]];
      [left; left; exact H | left; right; symmetry; exact H | right; exact H].
Qed.

Lemma dispatchedFn_counts (c : Captured) (p : Z) (m : JsMsg) (q : Iterator) :
  let q' := dispatchedFn c p (Some m) q in
  received q' = received q + 1 /\
  receivedBytes q' = receivedBytes q + (if trackBytes c then data_length m else 0) /\
  timer q' = timer q.
Proof using Type.
  cbn. destruct (timer q && (pending m =? 0)%Z); [cbn; auto|].
  destruct (stop_condition c p m _); cbn; auto.
Qed.

(** After a yielded message the iterator is stopped by [dispatchedFn]
    exactly when the early return is not taken and the stop condition
    holds. *)
Lemma dispatchedFn_done (c : Captured) (p : Z) (m : JsMsg) (q : Iterator) :
  done q = false ->
  (done (dispatchedFn c p (Some m) q) = true <->
   ~ (timer q = true /\ pending m = 0) /\
   specified_stop c p m (dispatchedFn c p (Some m) q)).
Proof using Type.
  intros Hd. cbn [dispatchedFn]. cbv zeta.
  set (q1 := count (if trackBytes c then data_length m else 0) q).
  change (timer q1) with (timer q).
  destruct (timer q && (pending m =? 0)%Z) eqn:Hearly.
  - change (done q1) with (done q). rewrite Hd.
    apply andb_true_iff in Hearly. destruct Hearly as [Ht Hp].
    apply Z.eqb_eq in Hp.
    split; [discriminate|]. intros [H _]. exfalso. apply H. split; assumption.
  - assert (Hno : ~ (timer q = true /\ pending m = 0)).
    { intros [Ht Hp]. rewrite Ht in Hearly. apply Z.eqb_eq in Hp.
      rewrite Hp in Hearly. discriminate Hearly. }
    destruct (stop_condition c p m q1) eqn:Hc.
    + apply stop_condition_spec in Hc.
      split; [|reflexivity]. intros _. split; [exact Hno|exact Hc].
    + change (done q1) with (done q). rewrite Hd.
      split; [discriminate|]. intros [_ H].
      apply stop_condition_spec in H. rewrite H in Hc. discriminate Hc.
Qed.

(** C2, as amended.  After a yielded message, which [dispatchedFn] first
    adds to the received count (and its bytes to the received bytes when
    a byte cap is tracked), [dispatchedFn] stops the iterator exactly
    when it is not the case that the expiration timer is armed and
    [info.pending] is 0, and one of (a) one message pending in the
    iterator with [info.pending] 0, (b) received equals the batch, (c)
    [max_bytes > 0] with the received bytes at least [max_bytes], holds.
    A running iterator is stopped only by [dispatchedFn] under that
    condition; by an error on the inbox, which always stops it, silently
    (the iterator's error is left as it was) when the classifier hides
    the error as non-terminal, and with that error otherwise; by a missed
    heartbeat, which always stops it with the IdleHeartbeatMissed error
    and the miss count; or by the continuation that runs when the
    subscription closes, which leaves the iterator's error as it was.
    The timer handler only drains the subscription. *)
Theorem fetch_iterator_stops :
  forall (c : Captured) (q : Iterator),
    done q = false ->
    (forall p m,
       (done (dispatchedFn c p (Some m) q) = true <->
        ~ (timer q = true /\ pending m = 0) /\
        specified_stop c p m (dispatchedFn c p (Some m) q)) /\
       received (dispatchedFn c p (Some m) q) = received q + 1 /\
       receivedBytes (dispatchedFn c p (Some m) q)
       = receivedBytes q + (if trackBytes c then data_length m else 0)) /\
    (forall ev,
       done (step c ev q) = true ->
       match ev with
       | Dispatched p (Some m) =>
         ~ (timer q = true /\ pending m = 0) /\
         specified_stop c p m (step c ev q)
       | Dispatched _ None => False
       | Callback err msg =>
         exists e,
           (err = Some e \/ (err = None /\ checkJsError msg = Some e)) /\
           ((isNatsError e = true /\ hideNonTerminalJsErrors e = None /\
             qi_err (step c ev q) = qi_err q) \/
            ((isNatsError e = false \/ hideNonTerminalJsErrors e <> None) /\
             qi_err (step c ev q) = Some e))
       | TimerFired => False
       | Closed =>
         sub_closed (step c ev q) = true /\ qi_err (step c ev q) = qi_err q
       | Missed v =>
         qi_err (step c ev q)
         = Some (NatsError (IdleHeartbeatMissed ++ ": " ++ show v)
                           JetStreamIdleHeartBeat)
       end) /\
    (forall err msg e,
       err = Some e \/ (err = None /\ checkJsError msg = Some e) ->
       done (step c (Callback err msg) q) = true) /\
    (forall v, done (step c (Missed v) q) = true) /\
    done (step c Closed q) = true /\
    (draining (timer_fired q) = negb (sub_closed q) || draining q).
Proof using Type.
  intros c q Hd.
  assert (Hcb : forall err msg e,
             err = Some e \/ (err = None /\ checkJsError msg = Some e) ->
             done (callback err msg q) = true /\
             ((isNatsError e = true /\ hideNonTerminalJsErrors e = None /\
               qi_err (callback err msg q) = qi_err q) \/
              ((isNatsError e = false \/ hideNonTerminalJsErrors e <> None) /\
               qi_err (callback err msg q) = Some e))).
  { intros err msg e He. unfold callback.
    assert (Hsel : match err with
                   | Some e0 => Some e0
                   | None => checkJsError msg
                   end = Some e).
    { destruct He as [->|[-> ->]]; reflexivity. }
    rewrite Hsel.
    destruct (isNatsError e) eqn:Hn.
    - destruct (hideNonTerminalJsErrors e) as [e'|] eqn:Hh.
      + split; [reflexivity|]. right. split; [|reflexivity].
        right. discriminate.
      + split; [reflexivity|]. left. split; [reflexivity|].
        split; reflexivity.
    - split; [reflexivity|]. right. split; [|reflexivity]. now left. }
  split; [|split; [|split; [|split; [|split]]]].
  - intros p m. split; [apply dispatchedFn_done; exact Hd|].
    destruct (dispatchedFn_counts c p m q) as (H1 & H2 & _).
    split; assumption.
  - intros [p [m|]|err msg| | |v]; cbn [step].
    + intros H. apply dispatchedFn_done; assumption.
    + cbn. rewrite Hd. discriminate.
    + destruct err as [e|]; [|destruct (checkJsError msg) as [e|] eqn:Hc].
      * intros _. exists e. split; [now left|].
        apply (Hcb (Some e) msg e). now left.
      * intros _. exists e. split; [right; split; reflexivity|].
        apply (Hcb None msg e). right. split; [reflexivity|exact Hc].
      * unfold callback. rewrite Hc. cbn. rewrite Hd. discriminate.
    + unfold timer_fired.
      destruct (sub_closed q); cbn [negb]; destruct (monitor _); cbn;
        rewrite Hd; discriminate.
    + intros _. split; reflexivity.
    + intros _. reflexivity.
  - intros err msg e He. cbn [step]. apply (Hcb err msg e He).
  - intros v. reflexivity.
  - reflexivity.
  - unfold timer_fired.
    destruct (sub_closed q); cbn [negb]; destruct (monitor _); cbn;
      try reflexivity; now destruct (draining q).
Qed.

Lemma args_until_no_wait_fields (opts : PullOptions) :
  expires (args_until_no_wait opts) = None /\
  no_wait (args_until_no_wait opts) = Some (bool_or_false (no_wait opts)).
Proof using Type.
  unfold args_until_no_wait. cbv zeta.
  destruct (tracked_max_bytes opts =? 0)%Z; split; reflexivity.
Qed.

(** The branch that would zero [args.expires] never fires: [expires] has
    not been assigned when it is tested. *)
Lemma zero_expires_dead (opts : PullOptions) :
  zero_expires (args_until_no_wait opts) = args_until_no_wait opts.
Proof using Type.
  unfold zero_expires.
  destruct (args_until_no_wait_fields opts) as [-> _]. cbn.
  now rewrite andb_false_r.
Qed.

(** The feature check lets through a request that does not track bytes,
    and one that does when the server supports it. *)
Lemma max_bytes_guard_passes (opts : PullOptions) :
  (wants_max_bytes opts = true -> feature_ok = true) ->
  negb (tracked_max_bytes opts =? 0)%Z && negb feature_ok = false.
Proof using Type.
  intros Hf. unfold tracked_max_bytes. destruct (wants_max_bytes opts).
  - rewrite Hf by reflexivity. now rewrite andb_false_r.
  - reflexivity.
Qed.

(** C8. [fetch] without [no_wait = true] and with [expires] absent or 0
    throws, so it neither subscribes nor publishes; once the stream and
    durable names are valid and a requested [max_bytes] is supported by
    the server, the error is "expires or no_wait is required". *)
Theorem fetch_requires_expires_or_no_wait :
  forall (stream durable : string) (opts : PullOptions),
    no_wait opts <> Some true ->
    expires opts = None \/ expires opts = Some 0 ->
    (exists e, fetch stream durable opts = Throw e) /\
    (validateStreamName stream = None ->
     validateDurableName durable = None ->
     (wants_max_bytes opts = true -> feature_ok = true) ->
     fetch stream durable opts = Throw (Error "expires or no_wait is required")).
Proof using Type.
  intros stream durable opts Hnw Hexp.
  assert (He : num_or (expires opts) 0 = 0) by (destruct Hexp as [-> | ->]; reflexivity).
  assert (Hn : bool_or_false (no_wait opts) = false).
  { destruct (no_wait opts) as [[|]|]; try reflexivity. now elim Hnw. }
  assert (Hlate : forall (A : Type) (k : Completion A),
            guard (if (num_or (expires opts) 0 =? 0)%Z
                      && negb (bool_or_false
                                 (no_wait
                                    (if (num_or (expires opts) 0 =? 0)%Z
                                     then zero_expires (args_until_no_wait opts)
                                     else set_expires (nanos (num_or (expires opts) 0))
                                            (zero_expires (args_until_no_wait opts)))))
                   then Some (Error "expires or no_wait is required") else None) k
            = Throw (Error "expires or no_wait is required")).
  { intros A k. rewrite He, zero_expires_dead. cbn [Z.eqb andb].
    destruct (args_until_no_wait_fields opts) as [_ ->]. cbn. now rewrite Hn. }
  unfold fetch. cbv zeta. split.
  - destruct (validateStreamName stream) as [e|]; [exists e; reflexivity|].
    destruct (validateDurableName durable) as [e|]; [exists e; reflexivity|].
    cbn [guard].
    destruct (negb (tracked_max_bytes opts =? 0)%Z && negb feature_ok);
      [eexists; reflexivity|].
    rewrite Hlate. eexists; reflexivity.
  - intros -> -> Hf. cbn [guard].
    rewrite (max_bytes_guard_passes opts Hf). apply Hlate.
Qed.

(** C9. [fetch] with [no_wait = true] and [expires > 0]: the test that
    would zero [args.expires] runs while [args.expires] is still unset and
    changes nothing, so whenever the call gets to publish, the body of the
    pull request has [no_wait = true] together with [expires =
    nanos(opts.expires)], which is not 0; and the call does publish once
    the names are valid and a requested [max_bytes] is supported. *)
Theorem fetch_no_wait_keeps_expires :
  forall (stream durable : string) (opts : PullOptions) (e : Z),
    no_wait opts = Some true ->
    expires opts = Some e ->
    0 < e ->
    zero_expires (args_until_no_wait opts) = args_until_no_wait opts /\
    (forall st,
       fetch stream durable opts = Normal st ->
       no_wait (args st) = Some true /\
       expires (args st) = Some (nanos e) /\
       nanos e <> 0 /\
       In (Publish (next_subject prefix stream durable) (args st) inbox)
          (effects st)) /\
    (validateStreamName stream = None ->
     validateDurableName durable = None ->
     (wants_max_bytes opts = true -> feature_ok = true) ->
     exists st, fetch stream durable opts = Normal st).
Proof using Type.
  intros stream durable opts e Hnw Hexp Hpos.
  assert (He : num_or (expires opts) 0 = e).
  { rewrite Hexp. cbn. destruct (Z.eqb_spec e 0); [lia|reflexivity]. }
  assert (Hz : (e =? 0)%Z = false) by (apply Z.eqb_neq; lia).
  split; [apply zero_expires_dead|].
  unfold fetch. cbv zeta. rewrite zero_expires_dead, He, Hz. cbn [andb guard].
  split.
  - intros st H.
    destruct (validateStreamName stream); [discriminate H|].
    destruct (validateDurableName durable); [discriminate H|].
    cbn [guard] in H.
    destruct (negb (tracked_max_bytes opts =? 0)%Z && negb feature_ok);
      [discriminate H|].
    cbn [guard] in H. injection H as <-. cbn [args effects].
    destruct (args_until_no_wait_fields opts) as [_ Hn]. rewrite Hnw in Hn.
    split; [|split; [|split]].
    + destruct (num_or (idle_heartbeat opts) 0 =? 0)%Z; [exact Hn|].
      destruct (delay_heartbeat opts) as [[|]|]; exact Hn.
    + destruct (num_or (idle_heartbeat opts) 0 =? 0)%Z; [reflexivity|].
      destruct (delay_heartbeat opts) as [[|]|]; reflexivity.
    + unfold nanos. lia.
    + cbn [app]. right. right. apply in_or_app. right. left. reflexivity.
  - intros -> -> Hf. cbn [guard].
    rewrite (max_bytes_guard_passes opts Hf). eexists. reflexivity.
Qed.

End Client.

(** The stop condition of the specification holds (the batch of one is
    complete) while [dispatchedFn] leaves the iterator running, because
    the timer is armed and [info.pending] is 0; and on a byte-capped
    fetch two of the listed causes hold for the same stop. *)
Lemma dispatchedFn_specified_stop_fails :
  (specified_stop sample_one 1 sample_msg
     (dispatchedFn sample_one 1 (Some sample_msg) sample_armed) /\
   done (dispatchedFn sample_one 1 (Some sample_msg) sample_armed) = false) /\
  (done (dispatchedFn sample_capped 2 (Some sample_msg) sample_no_timer) = true /\
   received (dispatchedFn sample_capped 2 (Some sample_msg) sample_no_timer)
   = wants sample_capped /\
   cap_max_bytes sample_capped
   <= receivedBytes (dispatchedFn sample_capped 2 (Some sample_msg) sample_no_timer)).
Proof.
  cbn. repeat split; try lia. right. left. reflexivity.
Qed.

Lemma fetch_iterator_stops_witness :
  done (dispatchedFn sample_one 1 (Some sample_msg) sample_no_timer) = true.
Proof.
  destruct (fetch_iterator_stops string (fun _ => None) (fun _ => sample_msg)
              (fun _ => true) "404" "408" "409" "IDLE_HEARTBEAT"
              "idle heartbeats missed" sample_one sample_no_timer eq_refl)
    as (H & _).
  destruct (H 1 sample_msg) as (Hiff & _).
  apply Hiff. split.
  - intros [H1 _]. discriminate H1.
  - left. split; reflexivity.
Defined.

Lemma fetch_requires_expires_or_no_wait_witness :
  fetch (fun _ => None) (fun _ => None) true "2.8.3" "_INBOX.7" "$JS.API"
        "ORDERS" "dur" (mkPullOptions (Some 10) None None (Some 0) None None)
  = Throw (Error "expires or no_wait is required").
Proof.
  apply (fetch_requires_expires_or_no_wait (fun _ => None) (fun _ => None) true
           "2.8.3" "_INBOX.7" "$JS.API" "ORDERS" "dur"
           (mkPullOptions (Some 10) None None (Some 0) None None)).
  - discriminate.
  - right. reflexivity.
  - reflexivity.
  - reflexivity.
  - reflexivity.
Defined.

Lemma fetch_no_wait_keeps_expires_witness :
  exists st,
    fetch (fun _ => None) (fun _ => None) true "2.8.3" "_INBOX.7" "$JS.API"
          "ORDERS" "dur" (mkPullOptions (Some 10) (Some true) None (Some 5000) None None)
    = Normal st /\
    no_wait (args st) = Some true /\
    expires (args st) = Some 5000000000.
Proof.
  destruct (fetch_no_wait_keeps_expires (fun _ => None) (fun _ => None) true
              "2.8.3" "_INBOX.7" "$JS.API" "ORDERS" "dur"
              (mkPullOptions (Some 10) (Some true) None (Some 5000) None None)
              5000 eq_refl eq_refl eq_refl) as (_ & Hbody & Hruns).
  destruct (Hruns eq_refl eq_refl (fun _ => eq_refl)) as (st & Hst).
  exists st. split; [exact Hst|].
  destruct (Hbody st Hst) as (H1 & H2 & _). split; [exact H1|exact H2].
Defined.

End Fetch.

(** ** JetStreamPullSubscriptionImpl.pull *)
Module Pull.
Import Js Types Util.

Inductive Effect :=
| CancelMonitor
| SetupMonitor (millis cancelAfter : Z)
| ChangeMonitor (millis cancelAfter : Z)
| Publish (subj : string) (body : PullOptions) (reply : string).

(** The pull subscription: [monitor] says whether [this.monitor] holds
    an object (a cancelled monitor stays in place). *)
Record PullSubscription := mkPullSub {
  info : option SubscriptionInfo;
  monitor : bool;
  subject : string;
  effects : list Effect
}.

Definition log (es : list Effect) (s : PullSubscription) : PullSubscription :=
  mkPullSub (info s) (monitor s) (subject s) (effects s ++ es).

Definition with_monitor (s : PullSubscription) : PullSubscription :=
  mkPullSub (info s) true (subject s) (effects s).

(** [opts.x && opts.x > 0 ? opts.x : 0] for the two durations. *)
Definition positive_or_zero (n : option Z) : Z :=
  match n with
  | Some v => if (0 <? v)%Z then v else 0
  | None => 0
  end.

Section Method.

(** [this.js.nc.features.get(Feature.JS_PULL_MAX_BYTES)]. *)
Variable feature_ok : bool.
Variable feature_min : string.

(** [pull(opts)]: the subscription after the call, or the error thrown
    (every throw precedes the first effect). *)
Definition pull (opts : PullOptions) (s : PullSubscription)
  : Completion PullSubscription :=
  match info s with
  | None => Throw TypeError
  | Some i =>
    let consumer :=
      match durable_name (config i) with
      | Some d => d
      | None => str_nullish (name i) "undefined"
      end in
    let a := set_batch (num_or (batch opts) 1) no_args in
    let a := set_no_wait (bool_or_false (no_wait opts)) a in
    if wants_max_bytes opts && negb feature_ok
    then Throw (max_bytes_unsupported feature_min)
    else
      let a := if wants_max_bytes opts
               then set_max_bytes (num_or (max_bytes opts) 0) a else a in
      let expires := positive_or_zero (expires opts) in
      let a := if (expires =? 0)%Z then a else set_expires (nanos expires) a in
      let hb := positive_or_zero (idle_heartbeat opts) in
      let a := if (hb =? 0)%Z then a else set_idle_heartbeat (nanos hb) a in
      if negb (hb =? 0)%Z && (expires =? 0)%Z
      then Throw (Error "idle_heartbeat requires expires")
      else if (expires <? hb)%Z
      then Throw (Error "expires must be greater than idle_heartbeat")
      else
        let s1 := if monitor s then log [CancelMonitor] s else s in
        let s2 :=
          if negb (expires =? 0)%Z && negb (hb =? 0)%Z then
            if negb (monitor s1)
            then with_monitor (log [SetupMonitor hb expires] s1)
            else log [ChangeMonitor hb expires] s1
          else s1 in
        Normal (log [Publish (api_prefix i ++ ".CONSUMER.MSG.NEXT." ++ stream i
                                ++ "." ++ consumer)
                       a (subject s2)] s2)
  end.

(** A bound pull subscription and a request whose [expires] equals its
    [idle_heartbeat]. *)
Definition sample_info : SubscriptionInfo :=
  mkInfo "ORDERS"
         (mkConfig (Some AckExplicit) (Some "dur") None None None None None None
                   None None None None None None None)
         "_INBOX.3" true true false None None None (mkFlow 0 0 0) "$JS.API".

Definition sample_sub : PullSubscription :=
  mkPullSub (Some sample_info) false "_INBOX.3" [].

Definition equal_durations : PullOptions :=
  mkPullOptions (Some 10) None None (Some 1000) (Some 1000) None.

(** *** Properties *)

(** With a positive [idle_heartbeat], [pull] throws before any effect
    when [expires] is absent, not positive, or smaller than the
    heartbeat. *)
Lemma pull_fails_fast (opts : PullOptions) (s : PullSubscription) (hb : Z) :
  idle_heartbeat opts = Some hb -> 0 < hb ->
  positive_or_zero (expires opts) < hb ->
  exists e, pull opts s = Throw e.
Proof.
  intros Hhb Hpos Hlt. unfold pull.
  destruct (info s) as [i|]; [|eexists; reflexivity].
  cbv zeta.
  destruct (wants_max_bytes opts && negb feature_ok); [eexists; reflexivity|].
  assert (Hh : positive_or_zero (idle_heartbeat opts) = hb).
  { rewrite Hhb. cbn. destruct (Z.ltb_spec 0 hb); [reflexivity|lia]. }
  rewrite Hh.
  destruct (negb (hb =? 0)%Z && (positive_or_zero (expires opts) =? 0)%Z);
    [eexists; reflexivity|].
  destruct (Z.ltb_spec (positive_or_zero (expires opts)) hb); [|lia].
  eexists; reflexivity.
Qed.

End Method.

(** C6, at the boundary.  With [expires] equal to a positive
    [idle_heartbeat] the call does not throw: the monitor is installed
    and the pull request is published, although [expires] is not greater
    than [idle_heartbeat]. *)
Theorem pull_equal_durations_publishes :
  pull true "2.8.3" equal_durations sample_sub
  = Normal (mkPullSub (Some sample_info) true "_INBOX.3"
              [SetupMonitor 1000 1000;
               Publish "$JS.API.CONSUMER.MSG.NEXT.ORDERS.dur"
                       (mkPullOptions (Some 10) (Some false) None
                                      (Some 1000000000) (Some 1000000000) None)
                       "_INBOX.3"]).
Proof.
  reflexivity.
Qed.

End Pull.

(** ** JetStreamClientImpl: option processing, consumer creation, pullSubscribe *)
Module Client.
Import Js Types.

(** [Partial<ConsumerOpts>] as read by [_processOptions]; [builder_isBind]
    is [Some] of the builder's [isBind] when the caller passed a
    [ConsumerOptsBuilder], [None] when it passed a plain object. *)
Record ConsumerOpts := mkConsumerOpts {
  opt_config : option ConsumerConfig;
  opt_stream : option string;
  opt_ordered : option bool;
  builder_isBind : option bool
}.

Definition set_ack_policy (p : AckPolicy) (c : ConsumerConfig) : ConsumerConfig :=
  mkConfigObject
    (Some p) (durable_name c) (deliver_subject c) (deliver_group c)
    (max_deliver c) (cfg_flow_control c) (idle_heartbeat c) (ack_wait c)
    (mem_storage c) (num_replicas c) (filter_subject c) (filter_subjects c)
    (deliver_policy c) (opt_start_seq c) (replay_policy c) (own_undefined c).

Definition set_filter_subject (s : string) (c : ConsumerConfig) : ConsumerConfig :=
  mkConfigObject
    (ack_policy c) (durable_name c) (deliver_subject c) (deliver_group c)
    (max_deliver c) (cfg_flow_control c) (idle_heartbeat c) (ack_wait c)
    (mem_storage c) (num_replicas c) (Some s) (filter_subjects c)
    (deliver_policy c) (opt_start_seq c) (replay_policy c) (own_undefined c).

(** The eight assignments that make a config an ordered consumer's. *)
Definition ordered_config (inbox : string) (c : ConsumerConfig) : ConsumerConfig :=
  mkConfigObject
    (Some AckNone) (durable_name c) (Some inbox) (deliver_group c)
    (Some 1) (Some true)
    (Some (num_or (idle_heartbeat c) (Util.nanos 5000)))
    (Some (Util.nanos (22 * 60 * 60 * 1000))) (Some true) (Some 1)
    (filter_subject c) (filter_subjects c)
    (deliver_policy c) (opt_start_seq c) (replay_policy c) (own_undefined c).

(** One property of [Object.assign(defaults, config)]: a property the
    config has is copied over the default, also when its value is
    [undefined]; the default stays only for a property the config lacks. *)
Definition or_default {A : Type} (is_undefined : bool) (o : option A) (d : A)
  : option A :=
  match o with
  | Some _ => o
  | None => if is_undefined then None else Some d
  end.

(** [Object.assign({deliver_policy, ack_policy, ack_wait, replay_policy},
    jsi.config)]. *)
Definition with_defaults (c : ConsumerConfig) : ConsumerConfig :=
  mkConfigObject
    (or_default (has_undefined AckPolicyProp c) (ack_policy c) AckExplicit)
    (durable_name c) (deliver_subject c) (deliver_group c) (max_deliver c)
    (cfg_flow_control c) (idle_heartbeat c)
    (or_default (has_undefined AckWaitProp c) (ack_wait c)
                (Util.nanos (30 * 1000)))
    (mem_storage c) (num_replicas c) (filter_subject c) (filter_subjects c)
    (or_default (has_undefined DeliverPolicyProp c) (deliver_policy c) DeliverAll)
    (opt_start_seq c)
    (or_default (has_undefined ReplayPolicyProp c) (replay_policy c) Instant)
    (own_undefined c).

(** The test of [_maybeCreateConsumer] on the requested and the returned
    [filter_subjects]:
    [Array.isArray(requested && !Array.isArray(returned))]. *)
Definition filter_subjects_test (requested returned : option (list string)) : bool :=
  isArray (Js.and (of_subjects requested)
                  (Boolean (negb (isArray (of_subjects returned))))).

(** What the specification asks of that test: multiple filter subjects
    were requested and the server returned none. *)
Definition multi_filter_not_honored (requested returned : option (list string))
  : bool :=
  isArray (of_subjects requested) && negb (isArray (of_subjects returned)).

Definition not_supported : JsError :=
  Error "jetstream server doesn't support consumers with multiple filter subjects".

Definition must_be_explicit : JsError :=
  Error "ack policy for pull consumers must be explicit".

Section Methods.

(** [ErrorCode.ApiError], [createInbox] (the n-th inbox of this call),
    [this.prefix]. *)
Variable ApiError : string.
Variable createInbox : nat -> string.
Variable prefix : string.
(** [this.findStream(subject)], [this.consumerAPI.info(stream, durable)]
    and [this.consumerAPI.add(stream, config)]: the server's answers. *)
Variable findStream : string -> Completion string.
Variable consumer_info : string -> string -> Completion (option ConsumerInfo).
Variable consumer_add : string -> ConsumerConfig -> Completion ConsumerInfo.

Definition api_error (message : string) : JsError := NatsError message ApiError.

(** The five rejections of an ordered consumer's options, in order. *)
Definition ordered_checks (c : ConsumerConfig) : option JsError :=
  if match ack_policy c with
     | Some AckNotSet | Some AckNone => false
     | _ => true
     end
  then Some (api_error "ordered consumer: ack_policy can only be set to 'none'")
  else if truthy_str (durable_name c)
  then Some (api_error "ordered consumer: durable_name cannot be set")
  else if truthy_str (deliver_subject c)
  then Some (api_error "ordered consumer: deliver_subject cannot be set")
  else if match max_deliver c with Some n => (1 <? n)%Z | None => false end
  then Some (api_error "ordered consumer: max_deliver cannot be set")
  else if truthy_str (deliver_group c)
  then Some (api_error "ordered consumer: deliver_group cannot be set")
  else None.

(** The checks made on the info of an existing durable. *)
Definition bind_checks (subject : string) (c : ConsumerConfig) (info : ConsumerInfo)
  : option JsError :=
  let fs := filter_subject (ci_config info) in
  if truthy_str fs && negb (str_nullish fs "" =? subject)%string
  then Some (Error "subject does not match consumer")
  else
    let qn := str_nullish (deliver_group c) "" in
    if (qn =? "")%string && match push_bound info with Some true => true | _ => false end
    then Some (Error "duplicate subscription")
    else
      let rqn := str_nullish (deliver_group (ci_config info)) "" in
      if negb (qn =? rqn)%string then
        if (rqn =? "")%string
        then Some (Error "durable requires no queue group")
        else Some (Error ("durable requires queue group '" ++ rqn ++ "'"))
      else None.

(** The [catch] clause around the lookup: a 404 means no such consumer. *)
Definition catch_404 (err : JsError) : Completion (option ConsumerInfo) :=
  match code_of err with
  | Some "404" => Normal None
  | _ => Throw err
  end.

(** The [try] block: the info of the durable the subscription attaches
    to, if there is one. *)
Definition lookup (stream subject : string) (c : ConsumerConfig)
  : Completion (option ConsumerInfo) :=
  if truthy_str (durable_name c) then
    match consumer_info stream (str_nullish (durable_name c) "") with
    | Normal (Some info) =>
      match bind_checks subject c info with
      | Some e => catch_404 e
      | None => Normal (Some info)
      end
    | Normal None => Normal None
    | Throw err => catch_404 err
    end
  else Normal None.

(** [if (jsi.config.ack_policy === AckPolicy.NotSet) ... = AckPolicy.All]. *)
Definition default_ack_policy (c : ConsumerConfig) : ConsumerConfig :=
  match ack_policy c with
  | Some AckNotSet => set_ack_policy AckAll c
  | _ => c
  end.

(** [_processOptions(subject, opts)]. *)
Definition _processOptions (subject : string) (o : ConsumerOpts)
  : Completion SubscriptionInfo :=
  match opt_config o with
  | None => Throw TypeError
  | Some c0 =>
    let is_ordered := bool_or_false (opt_ordered o) in
    guard (if is_ordered then ordered_checks c0 else None)
    (let c1 := if is_ordered then ordered_config (createInbox 0) c0 else c0 in
     let n := if is_ordered then 1%nat else 0%nat in
     let c2 := default_ack_policy c1 in
     bind (if truthy_str (opt_stream o)
           then Normal (str_nullish (opt_stream o) "")
           else findStream subject)
       (fun stream =>
     bind (lookup stream subject c2)
       (fun found =>
     let c3 := match found with Some info => ci_config info | None => c2 end in
     let is_attached := match found with Some _ => true | None => false end in
     let name :=
       match found with
       | Some info =>
         if truthy_str (durable_name (ci_config info)) then None
         else Some (ci_name info)
       | None => None
       end in
     let c4 :=
       match is_attached, filter_subject c3, filter_subjects c3 with
       | false, None, None => set_filter_subject subject c3
       | _, _, _ => c3
       end in
     let deliver :=
       if truthy_str (deliver_subject c4)
       then str_nullish (deliver_subject c4) ""
       else createInbox n in
     Normal (mkInfo stream c4 deliver is_attached
                    (bool_or_false (builder_isBind o)) is_ordered name found
                    (if is_ordered then Some (mkSeq 0 0) else None)
                    (mkFlow 0 0 0) prefix))))
  end.

Definition adopt (ci : ConsumerInfo) (jsi : SubscriptionInfo) : SubscriptionInfo :=
  mkInfo (stream jsi) (ci_config ci) (deliver jsi) (attached jsi) (isBind jsi)
         (ordered jsi) (Some (ci_name ci)) (Some ci)
         (ordered_consumer_sequence jsi) (flow_control jsi) (api_prefix jsi).

(** [_maybeCreateConsumer(jsi)]: the info after the call. *)
Definition _maybeCreateConsumer (jsi : SubscriptionInfo)
  : Completion SubscriptionInfo :=
  if attached jsi then Normal jsi
  else if isBind jsi then
    Throw (Error ("unable to bind - durable consumer "
                  ++ str_nullish (durable_name (config jsi)) "undefined"
                  ++ " doesn't exist in " ++ stream jsi))
  else
    let c := with_defaults (config jsi) in
    bind (consumer_add (stream jsi) c) (fun ci =>
      if filter_subjects_test (filter_subjects c) (filter_subjects (ci_config ci))
      then Throw not_supported
      else Normal (adopt ci jsi)).

(** [pullSubscribe(subject, opts)]: the info of the subscription it
    returns. *)
Definition pullSubscribe (subject : string) (o : ConsumerOpts)
  : Completion SubscriptionInfo :=
  bind (_processOptions subject o) (fun cso =>
    if ordered cso then Throw (Error "pull subscribers cannot be be ordered")
    else if truthy_str (deliver_subject (config cso)) then
      Throw (Error "consumer info specifies deliver_subject - pull consumers cannot have deliver_subject set")
    else
      match ack_policy (config cso) with
      | Some AckNone | Some AckAll => Throw must_be_explicit
      | _ => _maybeCreateConsumer cso
      end).

(** Options that leave the ack policy at [NotSet]; a request for two
    filter subjects, and a server that creates the consumer but returns a
    config without [filter_subjects]. *)
Definition sample_not_set : ConsumerOpts :=
  mkConsumerOpts
    (Some (mkConfig (Some AckNotSet) None None None None None None None None
                    None None None None None None))
    (Some "ORDERS") None (Some false).

(** A plain options object whose config has no [ack_policy] property. *)
Definition sample_plain : ConsumerOpts :=
  mkConsumerOpts (Some empty_config) (Some "ORDERS") None None.

Definition sample_multi : SubscriptionInfo :=
  mkInfo "ORDERS"
         (mkConfig (Some AckExplicit) None None None None None None None None
                   None None (Some ["orders.a"; "orders.b"]) None None None)
         "_INBOX.5" false false false None None None (mkFlow 0 0 0) "$JS.API".

Definition sample_reply : ConsumerInfo :=
  mkConsumerInfo "c7"
    (mkConfig (Some AckExplicit) None None None None None None None None
              None None None (Some DeliverAll) None (Some Instant))
    None.

Definition sample_add (stream : string) (c : ConsumerConfig)
  : Completion ConsumerInfo := Normal sample_reply.

(** A server that creates the consumer with the config it was sent. *)
Definition sample_echo (stream : string) (c : ConsumerConfig)
  : Completion ConsumerInfo := Normal (mkConsumerInfo "c8" c None).

(** *** Properties *)

(** The test is false on every pair of values: its argument is either
    the falsy left operand or a boolean, never an array. *)
Lemma filter_subjects_test_false (requested returned : option (list string)) :
  filter_subjects_test requested returned = false.
Proof using Type.
  unfold filter_subjects_test. destruct requested; reflexivity.
Qed.

Lemma default_ack_policy_fields (c : ConsumerConfig) :
  deliver_subject (default_ack_policy c) = deliver_subject c /\
  durable_name (default_ack_policy c) = durable_name c /\
  ack_policy (default_ack_policy c)
  = match ack_policy c with
    | Some AckNotSet => Some AckAll
    | other => other
    end.
Proof using Type.
  unfold default_ack_policy. destruct (ack_policy c) as [[| | |]|] eqn:E;
    cbn; rewrite ?E; auto.
Qed.

(** What [_processOptions] returns, read against its input. *)
Lemma processOptions_shape (subject : string) (o : ConsumerOpts)
  (c0 : ConsumerConfig) (cso : SubscriptionInfo) :
  opt_config o = Some c0 ->
  _processOptions subject o = Normal cso ->
  ordered cso = bool_or_false (opt_ordered o) /\
  (attached cso = false -> ordered cso = false ->
   ack_policy (config cso) = ack_policy (default_ack_policy c0)) /\
  (attached cso = true ->
   exists ci, last cso = Some ci /\ config cso = ci_config ci).
Proof using Type.
  intros Hc H. unfold _processOptions in H. rewrite Hc in H. cbv zeta in H.
  destruct (bool_or_false (opt_ordered o)) eqn:Ho.
  - destruct (ordered_checks c0); [discriminate H|]. cbn [guard] in H.
    destruct (if truthy_str (opt_stream o)
              then Normal (str_nullish (opt_stream o) "")
              else findStream subject) as [st|]; [|discriminate H].
    cbn [bind] in H.
    destruct (lookup st subject _) as [[ci|]|]; [| |discriminate H];
      cbn [bind] in H; injection H as <-; cbn.
    + split; [reflexivity|]. split; [discriminate|]. intros _. eauto.
    + split; [reflexivity|]. split; discriminate.
  - cbn [guard] in H.
    destruct (if truthy_str (opt_stream o)
              then Normal (str_nullish (opt_stream o) "")
              else findStream subject) as [st|]; [|discriminate H].
    cbn [bind] in H.
    destruct (lookup st subject _) as [[ci|]|]; [| |discriminate H];
      cbn [bind] in H; injection H as <-; cbn.
    + split; [reflexivity|]. split; [discriminate|]. intros _. eauto.
    + split; [reflexivity|]. split; [|discriminate]. intros _ _.
      destruct (filter_subject (default_ack_policy c0));
        [reflexivity|].
      destruct (filter_subjects (default_ack_policy c0)); reflexivity.
Qed.

(** A successful [_maybeCreateConsumer] keeps [attached]; on an attached
    info it changes nothing. *)
Lemma maybeCreateConsumer_attached (jsi sub : SubscriptionInfo) :
  _maybeCreateConsumer jsi = Normal sub ->
  attached sub = attached jsi /\ (attached jsi = true -> sub = jsi).
Proof using Type.
  unfold _maybeCreateConsumer. destruct (attached jsi) eqn:Ha.
  - intros H. injection H as <-. auto.
  - destruct (isBind jsi); [discriminate|].
    destruct (consumer_add _ _) as [ci|]; [|discriminate]. cbn [bind].
    rewrite filter_subjects_test_false. intros H. injection H as <-.
    cbn. split; [exact Ha|discriminate].
Qed.

(** What a successful [pullSubscribe] implies about the processed
    options. *)
Lemma pullSubscribe_success (subject : string) (o : ConsumerOpts)
  (sub : SubscriptionInfo) :
  pullSubscribe subject o = Normal sub ->
  exists cso,
    _processOptions subject o = Normal cso /\
    ordered cso = false /\
    ack_policy (config cso) <> Some AckNone /\
    ack_policy (config cso) <> Some AckAll /\
    _maybeCreateConsumer cso = Normal sub.
Proof using Type.
  unfold pullSubscribe.
  destruct (_processOptions subject o) as [cso|]; [|discriminate]. cbn [bind].
  destruct (ordered cso) eqn:Ho; [discriminate|].
  destruct (truthy_str (deliver_subject (config cso))); [discriminate|].
  intros H. exists cso. split; [reflexivity|]. split; [exact Ho|].
  destruct (ack_policy (config cso)) as [[| | |]|];
    try discriminate H; repeat split; try discriminate; exact H.
Qed.

(** C10, as amended.  Options whose ack policy is [NotSet]: when option
    processing does not attach to an existing consumer (and the options
    are not ordered), the processed policy is [All]; with no deliver
    subject in the way, [pullSubscribe] then rejects with "ack policy for
    pull consumers must be explicit"; whatever the other options, such a
    call succeeds only attached to an existing consumer.  Hence, for
    options that carry an ack policy, [pullSubscribe] succeeds only when
    that policy is [Explicit], or attached to a consumer whose own policy
    is neither [None] nor [All] (so [Explicit] whenever the server
    reports one).  Options whose config has no [ack_policy] property are
    not rejected by the check: unattached, they go on to
    [_maybeCreateConsumer]. *)
Theorem pullSubscribe_needs_explicit_ack :
  forall (subject : string) (o : ConsumerOpts) (c : ConsumerConfig),
    opt_config o = Some c ->
    ack_policy c = Some AckNotSet ->
    (forall cso,
       _processOptions subject o = Normal cso ->
       attached cso = false -> ordered cso = false ->
       ack_policy (config cso) = Some AckAll /\
       (truthy_str (deliver_subject (config cso)) = false ->
        pullSubscribe subject o = Throw must_be_explicit)) /\
    (forall sub, pullSubscribe subject o = Normal sub -> attached sub = true) /\
    (forall o' c' p sub,
       opt_config o' = Some c' ->
       ack_policy c' = Some p ->
       pullSubscribe subject o' = Normal sub ->
       (attached sub = false /\ p = AckExplicit) \/
       (attached sub = true /\
        exists ci,
          last sub = Some ci /\ config sub = ci_config ci /\
          ack_policy (ci_config ci) <> Some AckNone /\
          ack_policy (ci_config ci) <> Some AckAll /\
          (forall q, ack_policy (ci_config ci) = Some q ->
                     q <> AckNotSet -> q = AckExplicit))) /\
    (forall o' c' cso,
       opt_config o' = Some c' ->
       ack_policy c' = None ->
       _processOptions subject o' = Normal cso ->
       attached cso = false -> ordered cso = false ->
       truthy_str (deliver_subject (config cso)) = false ->
       pullSubscribe subject o' = _maybeCreateConsumer cso).
Proof using Type.
  intros subject o c Hc Hack.
  assert (Hhence :
    forall o' c' p sub,
      opt_config o' = Some c' ->
      ack_policy c' = Some p ->
      pullSubscribe subject o' = Normal sub ->
      (attached sub = false /\ p = AckExplicit) \/
      (attached sub = true /\
       exists ci,
         last sub = Some ci /\ config sub = ci_config ci /\
         ack_policy (ci_config ci) <> Some AckNone /\
         ack_policy (ci_config ci) <> Some AckAll /\
         (forall q, ack_policy (ci_config ci) = Some q ->
                    q <> AckNotSet -> q = AckExplicit))).
  { intros o' c' p sub Hc' Hp Hs.
    destruct (pullSubscribe_success subject o' sub Hs)
      as (cso & Hpo & Hord & Hn & Ha & Hm).
    destruct (processOptions_shape subject o' c' cso Hc' Hpo)
      as (_ & Hfree & Hatt).
    destruct (maybeCreateConsumer_attached cso sub Hm) as (Hsame & Hid).
    destruct (attached cso) eqn:Hat.
    - right. split; [exact Hsame|]. rewrite (Hid eq_refl).
      destruct (Hatt eq_refl) as (ci & Hl & Hcfg). exists ci.
      rewrite <- Hcfg. repeat split; try assumption.
      intros q Hq Hns. rewrite Hq in Hn, Ha.
      destruct q; try reflexivity; exfalso; auto.
    - left. split; [exact Hsame|].
      specialize (Hfree eq_refl Hord).
      destruct (default_ack_policy_fields c') as (_ & _ & Hd).
      rewrite Hd, Hp in Hfree. rewrite Hfree in Hn, Ha.
      destruct p; try reflexivity; exfalso; auto. }
  split; [|split; [|split]].
  - intros cso Hpo Hat Hord.
    destruct (processOptions_shape subject o c cso Hc Hpo) as (_ & Hfree & _).
    specialize (Hfree Hat Hord).
    destruct (default_ack_policy_fields c) as (_ & _ & Hd).
    rewrite Hd, Hack in Hfree. split; [exact Hfree|].
    intros Hds. unfold pullSubscribe. rewrite Hpo. cbn [bind].
    rewrite Hord, Hds, Hfree. reflexivity.
  - intros sub Hs.
    destruct (Hhence o c AckNotSet sub Hc Hack Hs) as [[_ H]|[H _]];
      [discriminate H|exact H].
  - exact Hhence.
  - intros o' c' cso Hc' Hp Hpo Hat Hord Hds.
    destruct (processOptions_shape subject o' c' cso Hc' Hpo) as (_ & Hfree & _).
    specialize (Hfree Hat Hord).
    destruct (default_ack_policy_fields c') as (_ & _ & Hd).
    rewrite Hd, Hp in Hfree.
    unfold pullSubscribe. rewrite Hpo. cbn [bind].
    rewrite Hord, Hds, Hfree. reflexivity.
Qed.

End Methods.

(** A call that leaves the ack policy out of a plain options object
    succeeds without attaching: the policy was never set to [Explicit] by
    the caller, the check does not reject it, and the consumer is created
    with the default policy. *)
Lemma pullSubscribe_without_ack_policy_succeeds :
  (exists c, opt_config sample_plain = Some c /\ ack_policy c = None) /\
  exists sub,
    pullSubscribe "BAD API" (fun n => "_INBOX." ++ show (Z.of_nat n)) "$JS.API"
                  (fun _ => Normal "ORDERS") (fun _ _ => Normal None) sample_echo
                  "orders.>" sample_plain
    = Normal sub /\
    attached sub = false /\
    ack_policy (config sub) = Some AckExplicit.
Proof.
  split.
  - exists empty_config. split; reflexivity.
  - eexists. split; [reflexivity|]. split; reflexivity.
Qed.

(** C5, on the code.  The [filter_subjects] test of
    [_maybeCreateConsumer] is false whatever was requested and returned;
    with two filter subjects requested and none returned by the server,
    the call returns normally and adopts the server's config instead of
    failing. *)
Theorem maybeCreateConsumer_accepts_unhonored_filters :
  (forall requested returned, filter_subjects_test requested returned = false) /\
  multi_filter_not_honored (filter_subjects (with_defaults (config sample_multi)))
                           (filter_subjects (ci_config sample_reply)) = true /\
  _maybeCreateConsumer sample_add sample_multi
  = Normal (adopt sample_reply sample_multi).
Proof.
  split; [exact filter_subjects_test_false|]. split; reflexivity.
Qed.

Lemma pullSubscribe_needs_explicit_ack_witness :
  pullSubscribe "BAD API" (fun n => "_INBOX." ++ show (Z.of_nat n)) "$JS.API"
                (fun _ => Normal "ORDERS") (fun _ _ => Normal None) sample_add
                "orders.>" sample_not_set
  = Throw must_be_explicit.
Proof.
  destruct (pullSubscribe_needs_explicit_ack "BAD API"
              (fun n => "_INBOX." ++ show (Z.of_nat n)) "$JS.API"
              (fun _ => Normal "ORDERS") (fun _ _ => Normal None) sample_add
              "orders.>" sample_not_set _ eq_refl eq_refl) as (H & _).
  destruct (H _ eq_refl eq_refl eq_refl) as (_ & H').
  apply H'. reflexivity.
Defined.

End Client.

(** ** Message adapters and the error classifier of the iterator *)
Module Adapters.
Import Js Types.

Section Adapters.

Variable Frame : Type.
Variable checkJsError : Frame -> option JsError.
Variable toJsMsg : Frame -> JsMsg.
Variable isTerminal409 : JsError -> bool.
Variable JetStream404NoMessages : string.
Variable JetStream408RequestTimeout : string.
Variable JetStream409 : string.

Definition hide (ne : JsError) : option JsError :=
  Fetch.hideNonTerminalJsErrors isTerminal409 JetStream404NoMessages
    JetStream408RequestTimeout JetStream409 ne.

(** [cbMsgAdapter(err, msg)]: the pair [[error, message]]. *)
Definition cbMsgAdapter (err : option JsError) (msg : Frame)
  : option JsError * option JsMsg :=
  match err with
  | Some e => (Some e, None)
  | None =>
    match checkJsError msg with
    | Some e => (Some e, None)
    | None => (None, Some (toJsMsg msg))
    end
  end.

(** [iterMsgAdapter(err, msg)]. *)
Definition iterMsgAdapter (err : option JsError) (msg : Frame)
  : option JsError * option JsMsg :=
  match err with
  | Some e => (Some e, None)
  | None =>
    match checkJsError msg with
    | Some ne => (hide ne, None)
    | None => (None, Some (toJsMsg msg))
    end
  end.

(** [msgAdapter(iterator)]. *)
Definition msgAdapter (iterator : bool)
  : option JsError -> Frame -> option JsError * option JsMsg :=
  if iterator then iterMsgAdapter else cbMsgAdapter.

(** *** Properties *)

(** X1. The classifier hides an error exactly when its code is the 404 or
    the 408 code, or the 409 code with a text that is not terminal; an
    error it does not hide is returned as it came. *)
Theorem hideNonTerminalJsErrors_hidden_iff :
  forall ne : JsError,
    (hide ne = None <->
     exists c, code_of ne = Some c /\
               (c = JetStream404NoMessages \/ c = JetStream408RequestTimeout \/
                (c = JetStream409 /\ isTerminal409 ne = false))) /\
    (hide ne <> None -> hide ne = Some ne).
Proof using Type.
  intros ne. unfold hide, Fetch.hideNonTerminalJsErrors.
  destruct (code_of ne) as [c|].
  - destruct (String.eqb_spec c JetStream404NoMessages) as [E4|N4].
    { split; [|intros H; now elim H]. split; [|reflexivity].
      intros _. exists c. auto. }
    destruct (String.eqb_spec c JetStream408RequestTimeout) as [E8|N8].
    { split; [|intros H; now elim H]. split; [|reflexivity].
      intros _. exists c. auto. }
    destruct (String.eqb_spec c JetStream409) as [E9|N9].
    + destruct (isTerminal409 ne) eqn:Ht.
      * split; [|reflexivity]. split; [discriminate|].
        intros (c' & Hc & [H|[H|[_ H]]]); injection Hc as <-;
          [now elim N4 | now elim N8 | discriminate H].
      * split; [|intros H; now elim H]. split; [|reflexivity].
        intros _. exists c. auto.
    + split; [|reflexivity]. split; [discriminate|].
      intros (c' & Hc & [H|[H|[H _]]]); injection Hc as <-;
        [now elim N4 | now elim N8 | now elim N9].
  - split; [|reflexivity]. split; [discriminate|].
    intros (c & Hc & _). discriminate Hc.
Qed.

(** X2. The two adapters.  Neither ever returns an error together with a
    message; both return the same message, and they return one exactly
    when the transport passed no error and the frame carries none; an
    error passed by the transport comes out of both unchanged, whatever
    its code; an error carried by the frame comes out of the callback
    adapter unchanged and out of the iterator adapter through the
    classifier. *)
Theorem adapters_agree :
  forall (err : option JsError) (msg : Frame),
    snd (iterMsgAdapter err msg) = snd (cbMsgAdapter err msg) /\
    (fst (cbMsgAdapter err msg) <> None -> snd (cbMsgAdapter err msg) = None) /\
    (fst (iterMsgAdapter err msg) <> None -> snd (iterMsgAdapter err msg) = None) /\
    (snd (cbMsgAdapter err msg) <> None <->
     err = None /\ checkJsError msg = None) /\
    (forall e, err = Some e ->
       iterMsgAdapter err msg = (Some e, None) /\
       cbMsgAdapter err msg = (Some e, None)) /\
    (forall ne, err = None -> checkJsError msg = Some ne ->
       cbMsgAdapter err msg = (Some ne, None) /\
       iterMsgAdapter err msg = (hide ne, None)).
Proof using Type.
  intros err msg. unfold iterMsgAdapter, cbMsgAdapter.
  destruct err as [e|]; [|destruct (checkJsError msg) as [ne|] eqn:Hc]; cbn.
  - split; [reflexivity|]. split; [reflexivity|]. split; [reflexivity|].
    split; [split; [intros H; now elim H|intros [H _]; discriminate H]|].
    split; [|intros ne H; discriminate H].
    intros e' H. injection H as <-. split; reflexivity.
  - split; [reflexivity|]. split; [reflexivity|]. split; [reflexivity|].
    split; [split; [intros H; now elim H|intros [_ H]; discriminate H]|].
    split; [intros e' H; discriminate H|].
    intros ne' _ H. injection H as <-. split; reflexivity.
  - split; [reflexivity|].
    split; [intros H; now elim H|]. split; [intros H; now elim H|].
    split; [split; [auto|discriminate]|].
    split; [intros e' H; discriminate H|intros ne' _ H; discriminate H].
Qed.

End Adapters.
End Adapters.

(** ** Runs of a fetch iterator and the request a fetch sends *)
Module FetchRuns.
Import Js Types Util Fetch.

(** The messages of a run that were yielded and dispatched. *)
Definition yielded {Frame : Type} (ev : Event Frame) : list JsMsg :=
  match ev with
  | Dispatched _ (Some m) => [m]
  | _ => []
  end.

Definition dispatched {Frame : Type} (evs : list (Event Frame)) : list JsMsg :=
  flat_map yielded evs.

Definition total_bytes (ms : list JsMsg) : Z :=
  fold_right (fun m acc => data_length m + acc) 0 ms.

Definition is_timer (e : Effect) : bool :=
  match e with
  | StartTimer _ => true
  | _ => false
  end.

Definition is_setup (e : Effect) : bool :=
  match e with
  | StartTimer _ | StartMonitor _ => true
  | _ => false
  end.

Section Runs.

Variable validateStreamName : string -> option JsError.
Variable validateDurableName : string -> option JsError.
Variable feature_ok : bool.
Variable feature_min : string.
Variable inbox : string.
Variable prefix : string.
Variable Frame : Type.
Variable checkJsError : Frame -> option JsError.
Variable toJsMsg : Frame -> JsMsg.
Variable isTerminal409 : JsError -> bool.
Variable JetStream404NoMessages : string.
Variable JetStream408RequestTimeout : string.
Variable JetStream409 : string.
Variable JetStreamIdleHeartBeat : string.
Variable IdleHeartbeatMissed : string.

Definition step1 (c : Captured) (q : Iterator) (ev : Event Frame) : Iterator :=
  step Frame checkJsError toJsMsg isTerminal409 JetStream404NoMessages
       JetStream408RequestTimeout JetStream409 JetStreamIdleHeartBeat
       IdleHeartbeatMissed c ev q.

(** The events of a fetch, handled one after the other. *)
Definition run (c : Captured) (evs : list (Event Frame)) (q : Iterator) : Iterator :=
  fold_left (step1 c) evs q.

Definition fetch1 (stream durable : string) (opts : PullOptions)
  : Completion Started :=
  fetch validateStreamName validateDurableName feature_ok feature_min inbox
        prefix stream durable opts.

(** The heartbeat period written into the request body. *)
Definition body_heartbeat (opts : PullOptions) : option Z :=
  let hb := num_or (idle_heartbeat opts) 0 in
  if (hb =? 0)%Z then None
  else match delay_heartbeat opts with
       | Some true => Some (nanos (hb * 4))
       | _ => Some (nanos hb)
       end.

(** *** Properties *)

Lemma step_facts (c : Captured) (ev : Event Frame) (q : Iterator) :
  (done q = true -> done (step1 c q ev) = true) /\
  (timer q = false -> timer (step1 c q ev) = false) /\
  (monitor q = false -> monitor (step1 c q ev) = false) /\
  received (step1 c q ev) = received q + Z.of_nat (length (yielded ev)) /\
  receivedBytes (step1 c q ev)
  = receivedBytes q + (if trackBytes c then total_bytes (yielded ev) else 0).
Proof using Type.
  unfold step1. destruct ev as [p [m|]|err msg| | |v]; cbn [step yielded].
  - cbn [dispatchedFn]. cbv zeta.
    set (q1 := count (if trackBytes c then data_length m else 0) q).
    assert (Hb : receivedBytes q1
                 = receivedBytes q + (if trackBytes c then total_bytes [m] else 0)).
    { unfold q1. cbn. destruct (trackBytes c); [f_equal; lia|reflexivity]. }
    destruct (timer q1 && (pending m =? 0)%Z);
      [|destruct (stop_condition c p m q1)]; cbn [done timer monitor received
        receivedBytes stop]; repeat split; auto.
  - cbn. repeat split; auto; try lia. destruct (trackBytes c); lia.
  - unfold callback. destruct err as [e|]; [|destruct (checkJsError msg) as [e|]].
    + destruct (isNatsError e); cbn; repeat split; auto; try lia;
        destruct (trackBytes c); lia.
    + destruct (isNatsError e); cbn; repeat split; auto; try lia;
        destruct (trackBytes c); lia.
    + cbn. repeat split; auto; try lia. destruct (trackBytes c); lia.
  - unfold timer_fired. destruct (sub_closed q); cbn [negb];
      destruct (monitor _) eqn:Hm; cbn in *; repeat split; auto; try lia;
        try (destruct (trackBytes c); lia); try congruence.
  - cbn. repeat split; auto; try lia. destruct (trackBytes c); lia.
  - cbn. repeat split; auto; try lia. destruct (trackBytes c); lia.
Qed.

Lemma total_bytes_app (a b : list JsMsg) :
  total_bytes (a ++ b) = total_bytes a + total_bytes b.
Proof using Type.
  unfold total_bytes. induction a as [|m a IH]; cbn; [reflexivity|].
  rewrite IH. lia.
Qed.

Lemma run_facts :
  forall (c : Captured) (evs : list (Event Frame)) (q : Iterator),
    (done q = true -> done (run c evs q) = true) /\
    (timer q = false -> timer (run c evs q) = false) /\
    (monitor q = false -> monitor (run c evs q) = false) /\
    received (run c evs q) = received q + Z.of_nat (length (dispatched evs)) /\
    receivedBytes (run c evs q)
    = receivedBytes q + (if trackBytes c then total_bytes (dispatched evs) else 0).
Proof using Type.
  intros c evs. induction evs as [|ev evs IH]; intros q.
  - cbn. repeat split; auto; try lia. destruct (trackBytes c); lia.
  - cbn [run fold_left]. fold (run c evs (step1 c q ev)).
    destruct (step_facts c ev q) as (Hd & Ht & Hm & Hr & Hb).
    destruct (IH (step1 c q ev)) as (Hd' & Ht' & Hm' & Hr' & Hb').
    split; [auto|]. split; [auto|]. split; [auto|]. split.
    + rewrite Hr', Hr. unfold dispatched. cbn [flat_map].
      rewrite length_app. lia.
    + rewrite Hb', Hb. unfold dispatched. cbn [flat_map].
      rewrite total_bytes_app. destruct (trackBytes c); lia.
Qed.

(** Without a timer, a running iterator has received fewer messages than
    the batch. *)
Lemma below_batch_step (c : Captured) (ev : Event Frame) (q : Iterator) :
  timer q = false ->
  (done q = false -> received q < wants c) ->
  done (step1 c q ev) = false -> received (step1 c q ev) < wants c.
Proof using Type.
  intros Ht Hinv. unfold step1.
  destruct ev as [p [m|]|err msg| | |v]; cbn [step].
  - cbn [dispatchedFn]. cbv zeta.
    set (q1 := count (if trackBytes c then data_length m else 0) q).
    change (timer q1) with (timer q). rewrite Ht. cbn [andb].
    destruct (stop_condition c p m q1) eqn:Hs; [discriminate|].
    change (done q1) with (done q). intros Hd. specialize (Hinv Hd).
    unfold stop_condition in Hs.
    apply orb_false_iff in Hs. destruct Hs as [Hs _].
    apply orb_false_iff in Hs. destruct Hs as [_ Hs].
    apply Z.eqb_neq in Hs. change (received q1) with (received q + 1) in *. lia.
  - exact Hinv.
  - unfold callback. destruct err as [e|]; [|destruct (checkJsError msg) as [e|]].
    + destruct (isNatsError e); cbn; discriminate.
    + destruct (isNatsError e); cbn; discriminate.
    + cbn. exact Hinv.
  - unfold timer_fired. destruct (sub_closed q); cbn [negb];
      destruct (monitor _); cbn; exact Hinv.
  - cbn. discriminate.
  - cbn. discriminate.
Qed.

Lemma below_batch_run (c : Captured) (evs : list (Event Frame)) :
  forall q : Iterator,
    timer q = false ->
    (done q = false -> received q < wants c) ->
    done (run c evs q) = false -> received (run c evs q) < wants c.
Proof using Type.
  induction evs as [|ev evs IH]; intros q Ht Hinv; [exact Hinv|].
  cbn [run fold_left]. fold (run c evs (step1 c q ev)). apply IH.
  - now apply (step_facts c ev q).
  - now apply below_batch_step.
Qed.

Lemma tracked_max_bytes_positive (opts : PullOptions) :
  wants_max_bytes opts = true -> tracked_max_bytes opts <> 0.
Proof using Type.
  unfold tracked_max_bytes, wants_max_bytes.
  destruct (max_bytes opts) as [v|]; [|discriminate].
  intros Hw. rewrite Hw. apply Z.ltb_lt in Hw. cbn.
  destruct (Z.eqb_spec v 0); lia.
Qed.

(** What a fetch that returns its iterator has built. *)
Lemma fetch_started (stream durable : string) (opts : PullOptions) (st : Started) :
  fetch1 stream durable opts = Normal st ->
  let expires := num_or (expires opts) 0 in
  let hb := num_or (idle_heartbeat opts) 0 in
  validateStreamName stream = None /\
  validateDurableName durable = None /\
  (wants_max_bytes opts = true -> feature_ok = true) /\
  ((expires =? 0)%Z = true -> bool_or_false (no_wait opts) = true) /\
  captured st = mkCaptured (wants_max_bytes opts) (tracked_max_bytes opts)
                           (num_or (batch opts) 1) /\
  iterator st = mkIterator (negb (expires =? 0)%Z) (negb (hb =? 0)%Z) 0 0 0 []
                           false None false false /\
  effects st = ([Subscribe inbox (batch opts)]
                  ++ (if (expires =? 0)%Z then [] else [StartTimer expires])
                  ++ (if (hb =? 0)%Z then [] else [StartMonitor hb])
                  ++ [Publish (next_subject prefix stream durable) (args st) inbox])%list /\
  batch (args st) = Some (num_or (batch opts) 1) /\
  no_wait (args st) = Some (bool_or_false (no_wait opts)) /\
  max_bytes (args st) = (if wants_max_bytes opts then max_bytes opts else None) /\
  Util.expires (args st)
  = (if (expires =? 0)%Z then None else Some (nanos expires)) /\
  idle_heartbeat (args st) = body_heartbeat opts /\
  delay_heartbeat (args st) = None.
Proof using Type.
  unfold fetch1, fetch. intros H. cbv zeta in *.
  destruct (validateStreamName stream); [discriminate H|]. cbn [guard] in H.
  destruct (validateDurableName durable); [discriminate H|]. cbn [guard] in H.
  destruct (negb (tracked_max_bytes opts =? 0)%Z && negb feature_ok) eqn:Hg;
    [discriminate H|]. cbn [guard] in H.
  rewrite zero_expires_dead in H.
  assert (Hf : wants_max_bytes opts = true -> feature_ok = true).
  { intros Hw. apply andb_false_iff in Hg. destruct Hg as [Hg|Hg].
    - exfalso. apply negb_false_iff, Z.eqb_eq in Hg.
      apply (tracked_max_bytes_positive opts Hw). exact Hg.
    - now apply negb_false_iff in Hg. }
  assert (Hmb : max_bytes (args_until_no_wait opts)
                = if wants_max_bytes opts then max_bytes opts else None).
  { unfold args_until_no_wait. cbv zeta.
    destruct (wants_max_bytes opts) eqn:Hw.
    - destruct (Z.eqb_spec (tracked_max_bytes opts) 0) as [E|_];
        [now elim (tracked_max_bytes_positive opts Hw)|].
      cbn. unfold tracked_max_bytes. rewrite Hw.
      unfold wants_max_bytes in Hw. destruct (max_bytes opts) as [v|]; [|discriminate].
      apply Z.ltb_lt in Hw. cbn. destruct (Z.eqb_spec v 0); [lia|reflexivity].
    - unfold tracked_max_bytes. rewrite Hw. reflexivity. }
  assert (Hba : batch (args_until_no_wait opts) = Some (num_or (batch opts) 1)).
  { unfold args_until_no_wait. cbv zeta.
    destruct (tracked_max_bytes opts =? 0)%Z; reflexivity. }
  assert (Hhb : idle_heartbeat (args_until_no_wait opts) = None
                /\ delay_heartbeat (args_until_no_wait opts) = None).
  { unfold args_until_no_wait. cbv zeta.
    destruct (tracked_max_bytes opts =? 0)%Z; split; reflexivity. }
  destruct Hhb as [Hhb Hdh].
  destruct (args_until_no_wait_fields opts) as [Hex Hnw].
  destruct (num_or (Util.expires opts) 0 =? 0)%Z eqn:He.
  - rewrite Hnw in H. cbn [bool_or_false andb] in H.
    destruct (bool_or_false (no_wait opts)) eqn:Hn; [|discriminate H].
    cbn [negb guard] in H. injection H as <-. cbn [args captured iterator effects].
    unfold body_heartbeat. cbv zeta.
    destruct (num_or (idle_heartbeat opts) 0 =? 0)%Z;
      [|destruct (delay_heartbeat opts) as [[|]|]]; cbn;
      repeat split; auto.
  - cbn [andb guard] in H. injection H as <-. cbn [args captured iterator effects].
    unfold body_heartbeat. cbv zeta.
    destruct (num_or (idle_heartbeat opts) 0 =? 0)%Z;
      [|destruct (delay_heartbeat opts) as [[|]|]]; cbn;
      repeat split; auto; discriminate.
Qed.

(** X3. Along any run of a fetch: an iterator that is stopped stays
    stopped, a timer or monitor that is gone is never set up again, the
    received count grows by the number of messages dispatched, and the
    received bytes grow by their sizes when a byte cap is tracked and not
    at all otherwise. *)
Theorem fetch_run_invariants :
  forall (c : Captured) (evs : list (Event Frame)) (q : Iterator),
    (done q = true -> done (run c evs q) = true) /\
    (timer q = false -> timer (run c evs q) = false) /\
    (monitor q = false -> monitor (run c evs q) = false) /\
    received (run c evs q) = received q + Z.of_nat (length (dispatched evs)) /\
    receivedBytes (run c evs q)
    = receivedBytes q + (if trackBytes c then total_bytes (dispatched evs) else 0).
Proof using Type.
  exact run_facts.
Qed.

(** X4. A fetch without [expires] (so with [no_wait]) and with a positive
    batch: as long as its iterator is running, fewer messages than the
    batch have been dispatched; the dispatch of the last message of the
    batch stops it. *)
Theorem fetch_without_expires_honours_batch :
  forall (stream durable : string) (opts : PullOptions) (st : Started)
         (evs : list (Event Frame)),
    fetch1 stream durable opts = Normal st ->
    num_or (expires opts) 0 = 0 ->
    0 < num_or (batch opts) 1 ->
    done (run (captured st) evs (iterator st)) = false ->
    Z.of_nat (length (dispatched evs)) < num_or (batch opts) 1.
Proof using Type.
  intros stream durable opts st evs Hf He Hb Hd.
  destruct (fetch_started stream durable opts st Hf)
    as (_ & _ & _ & _ & Hc & Hi & _). cbv zeta in Hi. rewrite He in Hi. cbn in Hi.
  pose proof (below_batch_run (captured st) evs (iterator st)) as Hrun.
  destruct (run_facts (captured st) evs (iterator st)) as (_ & _ & _ & Hr & _).
  rewrite Hi in Hrun, Hr. cbn [timer done received] in Hrun, Hr.
  rewrite Hc in Hrun at 1. cbn [wants] in Hrun.
  rewrite <- Hi in Hrun, Hr. rewrite Hr in Hrun.
  rewrite Hc in Hrun at 2. cbn [wants] in Hrun.
  specialize (Hrun eq_refl (fun _ => Hb) Hd). lia.
Qed.

(** X5. In a fetch without [expires] no timer is ever armed, so at every
    point of a run [dispatchedFn] stops a running iterator exactly when
    one message is pending with [info.pending] 0, or the received count
    equals the batch, or a positive byte cap is reached. *)
Theorem fetch_without_expires_stops_exactly :
  forall (stream durable : string) (opts : PullOptions) (st : Started)
         (evs : list (Event Frame)) (p : Z) (m : JsMsg),
    fetch1 stream durable opts = Normal st ->
    num_or (expires opts) 0 = 0 ->
    done (run (captured st) evs (iterator st)) = false ->
    (done (dispatchedFn (captured st) p (Some m)
             (run (captured st) evs (iterator st))) = true <->
     specified_stop (captured st) p m
       (dispatchedFn (captured st) p (Some m)
          (run (captured st) evs (iterator st)))).
Proof using Type.
  intros stream durable opts st evs p m Hf He Hd.
  destruct (fetch_started stream durable opts st Hf)
    as (_ & _ & _ & _ & _ & Hi & _). cbv zeta in Hi. rewrite He in Hi. cbn in Hi.
  destruct (run_facts (captured st) evs (iterator st)) as (_ & Ht & _).
  assert (Htimer : timer (run (captured st) evs (iterator st)) = false).
  { apply Ht. rewrite Hi. reflexivity. }
  rewrite (dispatchedFn_done (captured st) p m _ Hd). rewrite Htimer.
  split; [intros [_ H]; exact H|]. intros H. split; [|exact H].
  intros [H' _]. discriminate H'.
Qed.

Lemma num_or_one (n : option Z) : num_or n 1 <> 0.
Proof using Type.
  destruct n as [v|]; cbn; [|lia]. destruct (Z.eqb_spec v 0); lia.
Qed.

(** X6. The body of the pull request a fetch publishes: a batch that is
    never 0 (1 when absent or 0), [no_wait] always present, [max_bytes]
    exactly when a positive one was asked for, a heartbeat in
    nanoseconds (four times longer under [delay_heartbeat]) exactly when
    a nonzero one was asked for, the test option itself never; and every
    published request has [no_wait = true] or a nonzero [expires]. *)
Theorem fetch_request_body :
  forall (stream durable : string) (opts : PullOptions) (st : Started),
    fetch1 stream durable opts = Normal st ->
    batch (args st) = Some (num_or (batch opts) 1) /\
    num_or (batch opts) 1 <> 0 /\
    no_wait (args st) = Some (bool_or_false (no_wait opts)) /\
    (no_wait (args st) = Some true \/
     exists e, expires (args st) = Some (nanos e) /\ nanos e <> 0) /\
    (forall v, max_bytes (args st) = Some v <-> max_bytes opts = Some v /\ 0 < v) /\
    idle_heartbeat (args st) = body_heartbeat opts /\
    (body_heartbeat opts = None <-> num_or (idle_heartbeat opts) 0 = 0) /\
    delay_heartbeat (args st) = None.
Proof using Type.
  intros stream durable opts st Hf.
  destruct (fetch_started stream durable opts st Hf)
    as (_ & _ & _ & Hreq & _ & _ & _ & Hb & Hn & Hm & He & Hh & Hd).
  cbv zeta in Hreq, He.
  split; [exact Hb|]. split; [apply num_or_one|]. split; [exact Hn|].
  split; [|split; [|split; [exact Hh|split; [|exact Hd]]]].
  - destruct (num_or (expires opts) 0 =? 0)%Z eqn:E.
    + left. rewrite Hn. f_equal. apply Hreq. reflexivity.
    + right. eexists. split; [exact He|]. apply Z.eqb_neq in E.
      unfold nanos. lia.
  - intros v. rewrite Hm. unfold wants_max_bytes.
    destruct (max_bytes opts) as [w|].
    + destruct (Z.ltb_spec 0 w) as [Hlt|Hge].
      * split; [intros H; injection H as <-; auto|intros [H _]; exact H].
      * split; [discriminate|]. intros [H Hv]. injection H as <-. lia.
    + split; [discriminate|]. intros [H _]. discriminate H.
  - unfold body_heartbeat. cbv zeta.
    destruct (Z.eqb_spec (num_or (idle_heartbeat opts) 0) 0) as [E|NE].
    + split; auto.
    + destruct (delay_heartbeat opts) as [[|]|]; split;
        try discriminate; intros H; now elim NE.
Qed.

(** X7. What a fetch does before it returns: it subscribes on its inbox
    first (with [max] the batch asked for), publishes the request last
    with that same inbox as reply, and in between only arms the timer
    and the monitor; the timer is armed exactly when [expires] is not 0,
    for [expires] milliseconds; the iterator starts running with nothing
    received. *)
Theorem fetch_subscribes_before_publishing :
  forall (stream durable : string) (opts : PullOptions) (st : Started),
    fetch1 stream durable opts = Normal st ->
    exists setup,
      effects st = (Subscribe inbox (batch opts) :: setup
                    ++ [Publish (next_subject prefix stream durable) (args st) inbox])%list /\
      forallb is_setup setup = true /\
      filter is_timer setup
      = (if (num_or (expires opts) 0 =? 0)%Z then []
         else [StartTimer (num_or (expires opts) 0)]) /\
      timer (iterator st) = negb (num_or (expires opts) 0 =? 0)%Z /\
      done (iterator st) = false /\
      received (iterator st) = 0 /\
      receivedBytes (iterator st) = 0.
Proof using Type.
  intros stream durable opts st Hf.
  destruct (fetch_started stream durable opts st Hf)
    as (_ & _ & _ & _ & _ & Hi & He & _). cbv zeta in Hi, He.
  exists ((if (num_or (expires opts) 0 =? 0)%Z then []
           else [StartTimer (num_or (expires opts) 0)])
          ++ (if (num_or (idle_heartbeat opts) 0 =? 0)%Z then []
              else [StartMonitor (num_or (idle_heartbeat opts) 0)]))%list.
  split; [rewrite He; cbn [app]; now rewrite <- app_assoc|].
  rewrite Hi. cbn [timer done received receivedBytes].
  destruct (num_or (expires opts) 0 =? 0)%Z;
    destruct (num_or (idle_heartbeat opts) 0 =? 0)%Z; cbn; auto 10.
Qed.

(** X8. Asking for a positive [max_bytes] from a server without the
    feature fails with the "max_bytes is only supported on servers ..."
    error, naming the minimum version, in [fetch] (once the names are
    valid) and in the [pull] of a pull subscription alike, whatever the
    other options; nothing is subscribed or published. *)
Theorem max_bytes_needs_server_support :
  forall (stream durable : string) (opts : PullOptions)
         (s : Pull.PullSubscription) (i : SubscriptionInfo),
    wants_max_bytes opts = true ->
    feature_ok = false ->
    (validateStreamName stream = None ->
     validateDurableName durable = None ->
     fetch1 stream durable opts = Throw (max_bytes_unsupported feature_min)) /\
    (Pull.info s = Some i ->
     Pull.pull feature_ok feature_min opts s
     = Throw (max_bytes_unsupported feature_min)).
Proof using Type.
  intros stream durable opts s i Hw Hf. split.
  - intros Hs Hd. unfold fetch1, fetch. rewrite Hs, Hd. cbn [guard].
    destruct (Z.eqb_spec (tracked_max_bytes opts) 0) as [E|_];
      [now elim (tracked_max_bytes_positive opts Hw)|].
    rewrite Hf. reflexivity.
  - intros Hi. unfold Pull.pull. rewrite Hi, Hw, Hf. reflexivity.
Qed.

End Runs.

(** A server with the feature, names that are valid, and two requests:
    one that does not wait, one that expires and caps the bytes. *)
Definition valid (name : string) : option JsError := None.
Definition no_error (frame : string) : option JsError := None.
Definition as_msg (frame : string) : JsMsg := mkJsMsg 1 1 3 5.
Definition terminal (e : JsError) : bool := true.

Definition sample_no_wait : PullOptions :=
  mkPullOptions (Some 2) (Some true) None None None None.

Definition sample_capped_request : PullOptions :=
  mkPullOptions (Some 10) None (Some 1024) (Some 5000) (Some 1000) None.

Definition sample_fetch (ok : bool) (opts : PullOptions) : Completion Started :=
  fetch1 valid valid ok "2.8.3" "_INBOX.9" "$JS.API" "ORDERS" "dur" opts.

Definition sample_run (c : Captured) (evs : list (Event string)) (q : Iterator)
  : Iterator :=
  run string no_error as_msg terminal "404" "408" "409" "IDLE_HEARTBEAT"
      "idle heartbeats missed" c evs q.

Lemma fetch_without_expires_honours_batch_witness :
  exists st,
    sample_fetch true sample_no_wait = Normal st /\
    done (sample_run (captured st) [Dispatched 2 (Some (as_msg "m"))] (iterator st))
    = false /\
    done (sample_run (captured st)
            [Dispatched 2 (Some (as_msg "m")); Dispatched 2 (Some (as_msg "m"))]
            (iterator st))
    = true.
Proof.
  eexists. split; [reflexivity|]. split; [reflexivity|].
  destruct (done (sample_run _ [Dispatched 2 (Some (as_msg "m"));
                                Dispatched 2 (Some (as_msg "m"))] _)) eqn:Hd;
    [reflexivity|exfalso].
  pose proof (fetch_without_expires_honours_batch valid valid true "2.8.3"
                "_INBOX.9" "$JS.API" string no_error as_msg terminal "404" "408"
                "409" "IDLE_HEARTBEAT" "idle heartbeats missed" "ORDERS" "dur"
                sample_no_wait _
                [Dispatched 2 (Some (as_msg "m")); Dispatched 2 (Some (as_msg "m"))]
                eq_refl eq_refl eq_refl Hd) as H.
  cbn in H. lia.
Defined.

Lemma fetch_without_expires_stops_exactly_witness :
  exists st,
    sample_fetch true sample_no_wait = Normal st /\
    done (dispatchedFn (captured st) 1 (Some (mkJsMsg 1 1 0 5)) (iterator st)) = true.
Proof.
  eexists. split; [reflexivity|].
  apply (fetch_without_expires_stops_exactly valid valid true "2.8.3"
           "_INBOX.9" "$JS.API" string no_error as_msg terminal "404" "408"
           "409" "IDLE_HEARTBEAT" "idle heartbeats missed" "ORDERS" "dur"
           sample_no_wait _ [] 1 (mkJsMsg 1 1 0 5) eq_refl eq_refl eq_refl).
  left. split; reflexivity.
Defined.

Lemma fetch_request_body_witness :
  exists st,
    sample_fetch true sample_capped_request = Normal st /\
    max_bytes (args st) = Some 1024 /\
    idle_heartbeat (args st) = Some 1000000000.
Proof.
  eexists. split; [reflexivity|].
  destruct (fetch_request_body valid valid true "2.8.3" "_INBOX.9" "$JS.API"
              "ORDERS" "dur" sample_capped_request _ eq_refl)
    as (_ & _ & _ & _ & Hm & Hh & _).
  split; [apply Hm; split; [reflexivity|lia]|exact Hh].
Defined.

Lemma fetch_subscribes_before_publishing_witness :
  exists st setup,
    sample_fetch true sample_capped_request = Normal st /\
    effects st = (Subscribe "_INBOX.9" (Some 10) :: setup
                  ++ [Publish "$JS.API.CONSUMER.MSG.NEXT.ORDERS.dur" (args st)
                              "_INBOX.9"])%list /\
    filter is_timer setup = [StartTimer 5000].
Proof.
  eexists.
  destruct (fetch_subscribes_before_publishing valid valid true "2.8.3"
              "_INBOX.9" "$JS.API" "ORDERS" "dur" sample_capped_request _ eq_refl)
    as (setup & He & _ & Ht & _).
  exists setup. split; [reflexivity|]. split; [exact He|exact Ht].
Defined.

Lemma max_bytes_needs_server_support_witness :
  sample_fetch false sample_capped_request
  = Throw (max_bytes_unsupported "2.8.3") /\
  Pull.pull false "2.8.3" sample_capped_request Pull.sample_sub
  = Throw (max_bytes_unsupported "2.8.3").
Proof.
  destruct (max_bytes_needs_server_support valid valid false "2.8.3" "_INBOX.9"
              "$JS.API" "ORDERS" "dur" sample_capped_request Pull.sample_sub
              Pull.sample_info eq_refl eq_refl) as (Hf & Hp).
  split; [exact (Hf eq_refl eq_refl)|exact (Hp eq_refl)].
Defined.

End FetchRuns.

(** ** The one-shot pull of the client and sequences of subscription pulls *)
Module Pulls.
Import Js Types Util.

(** What the one-shot [pull] hands to [this.nc.request]. *)
Record NextRequest := mkNextRequest {
  nr_subject : string;
  nr_body : PullOptions;
  nr_noMux : bool;
  nr_timeout : Z
}.

Definition is_setup_monitor (e : Pull.Effect) : bool :=
  match e with
  | Pull.SetupMonitor _ _ => true
  | _ => false
  end.

Definition is_publish (e : Pull.Effect) : bool :=
  match e with
  | Pull.Publish _ _ _ => true
  | _ => false
  end.

(** The consumer a pull subscription addresses: [durable_name ?? name]. *)
Definition pull_consumer (i : SubscriptionInfo) : string :=
  match durable_name (config i) with
  | Some d => d
  | None => str_nullish (name i) "undefined"
  end.

Section Client.

Variable validateStreamName : string -> option JsError.
Variable validateDurableName : string -> option JsError.
Variable prefix : string.
(** [this.timeout]. *)
Variable default_timeout : Z.
Variable Frame : Type.
Variable request : NextRequest -> Completion Frame.
Variable checkJsError : Frame -> option JsError.
Variable toJsMsg : Frame -> JsMsg.
(** [this.js.nc.features.get(Feature.JS_PULL_MAX_BYTES)]. *)
Variable feature_ok : bool.
Variable feature_min : string.

(** The request of [pull(stream, durable, expires = 0)]. *)
Definition next_request (stream durable : string) (expires : option Z)
  : NextRequest :=
  let e := match expires with Some v => v | None => 0 end in
  let timeout := if (default_timeout <? e)%Z then e else default_timeout in
  let e' := if (e <? 0)%Z then 0 else nanos e in
  mkNextRequest (prefix ++ ".CONSUMER.MSG.NEXT." ++ stream ++ "." ++ durable)
                (mkPullOptions (Some 1) (Some (e' =? 0)%Z) None (Some e') None None)
                true timeout.

(** [JetStreamClientImpl.pull]. *)
Definition pull (stream durable : string) (expires : option Z)
  : Completion JsMsg :=
  guard (validateStreamName stream)
  (guard (validateDurableName durable)
  (bind (request (next_request stream durable expires)) (fun msg =>
     match checkJsError msg with
     | Some err => Throw err
     | None => Normal (toJsMsg msg)
     end))).

(** A subscription pull that throws leaves the subscription as it was. *)
Definition pull_or_keep (s : Pull.PullSubscription) (opts : PullOptions)
  : Pull.PullSubscription :=
  match Pull.pull feature_ok feature_min opts s with
  | Normal s' => s'
  | Throw _ => s
  end.

Definition pulls (l : list PullOptions) (s : Pull.PullSubscription)
  : Pull.PullSubscription :=
  fold_left pull_or_keep l s.

Definition setups (s : Pull.PullSubscription) : nat :=
  length (filter is_setup_monitor (Pull.effects s)).

Definition publishes (s : Pull.PullSubscription) : nat :=
  length (filter is_publish (Pull.effects s)).

(** *** Properties *)

(** X9. The request of the one-shot pull: one message, on the subject a
    fetch uses, never multiplexed; it does not wait exactly when
    [expires] is absent, 0 or negative, and otherwise carries [expires] in
    nanoseconds; its body never has a negative [expires]; its timeout is
    the larger of the client's timeout and [expires].  The call returns a
    message exactly when both names are valid, the request is answered
    and the answer carries no JetStream error. *)
Theorem pull_one_shot :
  forall (stream durable : string) (expires : option Z),
    let e := match expires with Some v => v | None => 0 end in
    let r := next_request stream durable expires in
    nr_subject r = Fetch.next_subject prefix stream durable /\
    nr_noMux r = true /\
    batch (nr_body r) = Some 1 /\
    (no_wait (nr_body r) = Some true <-> e <= 0) /\
    (no_wait (nr_body r) = Some true \/ no_wait (nr_body r) = Some false) /\
    Util.expires (nr_body r) = Some (nanos (Z.max 0 e)) /\
    nr_timeout r = Z.max default_timeout e /\
    (forall jm,
       pull stream durable expires = Normal jm <->
       validateStreamName stream = None /\
       validateDurableName durable = None /\
       exists msg, request r = Normal msg /\ checkJsError msg = None /\
                   jm = toJsMsg msg).
Proof using Type.
  intros stream durable expires e r. unfold r, next_request. fold e. cbv zeta.
  cbn [nr_subject nr_noMux nr_body nr_timeout batch no_wait Util.expires].
  split; [reflexivity|]. split; [reflexivity|]. split; [reflexivity|].
  split; [|split; [|split; [|split]]].
  - destruct (Z.ltb_spec e 0) as [Hneg|Hpos].
    + cbn. split; [lia|reflexivity].
    + unfold nanos. destruct (Z.eqb_spec (e * 1000000) 0) as [E|NE].
      * split; [lia|reflexivity].
      * split; [discriminate|lia].
  - destruct ((if (e <? 0)%Z then 0 else nanos e) =? 0)%Z; auto.
  - destruct (Z.ltb_spec e 0) as [Hneg|Hpos].
    + rewrite Z.max_l by lia. reflexivity.
    + rewrite Z.max_r by lia. reflexivity.
  - destruct (Z.ltb_spec default_timeout e); lia.
  - intros jm. unfold pull. fold e.
    destruct (validateStreamName stream) as [x|]; cbn [guard].
    { split; [discriminate|]. intros [H _]. discriminate H. }
    destruct (validateDurableName durable) as [x|]; cbn [guard].
    { split; [discriminate|]. intros (_ & H & _). discriminate H. }
    unfold next_request. fold e. cbv zeta.
    destruct (request _) as [msg|x]; cbn [bind].
    + destruct (checkJsError msg) as [err|] eqn:Hc.
      * split; [discriminate|].
        intros (_ & _ & msg' & Hm & Hc' & _). injection Hm as <-.
        rewrite Hc in Hc'. discriminate Hc'.
      * split.
        -- intros H. injection H as <-. repeat split; try reflexivity.
           exists msg. auto.
        -- intros (_ & _ & msg' & Hm & _ & ->). injection Hm as <-. reflexivity.
    + split; [discriminate|].
      intros (_ & _ & msg' & Hm & _). discriminate Hm.
Qed.

(** The monitor work of one subscription pull. *)
Definition monitor_effects (had_monitor : bool) (hb e : Z) : list Pull.Effect :=
  ((if had_monitor then [Pull.CancelMonitor] else [])
   ++ (if negb (e =? 0)%Z && negb (hb =? 0)%Z
       then if had_monitor then [Pull.ChangeMonitor hb e]
            else [Pull.SetupMonitor hb e]
       else []))%list.

(** The body of one subscription pull. *)
Definition pull_body (opts : PullOptions) : PullOptions :=
  let e := Pull.positive_or_zero (expires opts) in
  let hb := Pull.positive_or_zero (idle_heartbeat opts) in
  mkPullOptions (Some (num_or (batch opts) 1))
                (Some (bool_or_false (no_wait opts)))
                (if wants_max_bytes opts then Some (num_or (max_bytes opts) 0) else None)
                (if (e =? 0)%Z then None else Some (nanos e))
                (if (hb =? 0)%Z then None else Some (nanos hb))
                None.

Lemma pull_returns (opts : PullOptions) (s s' : Pull.PullSubscription) :
  Pull.pull feature_ok feature_min opts s = Normal s' ->
  let e := Pull.positive_or_zero (expires opts) in
  let hb := Pull.positive_or_zero (idle_heartbeat opts) in
  exists i,
    Pull.info s = Some i /\
    (hb = 0 \/ (0 < hb /\ hb <= e)) /\
    (wants_max_bytes opts = true -> feature_ok = true) /\
    s' = Pull.mkPullSub (Pull.info s)
           (Pull.monitor s || (negb (e =? 0)%Z && negb (hb =? 0)%Z))
           (Pull.subject s)
           (Pull.effects s ++ monitor_effects (Pull.monitor s) hb e
              ++ [Pull.Publish (api_prefix i ++ ".CONSUMER.MSG.NEXT." ++ stream i
                                  ++ "." ++ pull_consumer i)
                               (pull_body opts) (Pull.subject s)]).
Proof using Type.
  cbv zeta. unfold Pull.pull, monitor_effects, pull_body.
  destruct (Pull.info s) as [i|] eqn:Hi; [|discriminate]. cbv zeta.
  assert (Hpos : (Pull.positive_or_zero (idle_heartbeat opts) =? 0)%Z = false ->
                 0 < Pull.positive_or_zero (idle_heartbeat opts)).
  { unfold Pull.positive_or_zero. destruct (idle_heartbeat opts) as [v|]; [|discriminate].
    destruct (Z.ltb_spec 0 v); [auto|discriminate]. }
  destruct (wants_max_bytes opts) eqn:Hw; destruct feature_ok eqn:Hf;
    cbn [andb negb]; try discriminate;
    destruct (Pull.positive_or_zero (idle_heartbeat opts) =? 0)%Z eqn:Eh;
    destruct (Pull.positive_or_zero (expires opts) =? 0)%Z eqn:Ee;
    cbn [andb negb]; try discriminate;
    destruct (Pull.positive_or_zero (expires opts)
              <? Pull.positive_or_zero (idle_heartbeat opts))%Z eqn:Hlt;
    try discriminate;
    intros H; injection H as <-; exists i;
    (split; [reflexivity|]);
    (split; [first [left; apply Z.eqb_eq; exact Eh
                   |right; split; [apply Hpos; reflexivity
                                  |apply Z.ltb_ge; exact Hlt]]|]);
    (split; [first [reflexivity|discriminate]|]);
    destruct (Pull.monitor s) eqn:Hm;
    unfold Pull.log, Pull.with_monitor, set_batch, set_no_wait, set_max_bytes,
      set_expires, set_idle_heartbeat, no_args;
    cbn [Pull.info Pull.monitor Pull.subject Pull.effects batch no_wait
         max_bytes expires idle_heartbeat delay_heartbeat app negb orb];
    rewrite ?Hi, ?Hm;
    cbn [Pull.info Pull.monitor Pull.subject Pull.effects negb orb app];
    rewrite <- ?app_assoc; cbn [app]; reflexivity.
Qed.

(** X10. A subscription pull that returns has published exactly one
    request, as its last effect, on the next-message subject of the
    subscription's stream and consumer, with the subscription's own
    subject as reply; before it, a monitor that already existed was
    cancelled first; the info and the subject of the subscription are
    untouched.  The body carries [idle_heartbeat] only together with an
    [expires] that is at least as large. *)
Theorem subscription_pull_publishes :
  forall (opts : PullOptions) (s s' : Pull.PullSubscription),
    Pull.pull feature_ok feature_min opts s = Normal s' ->
    exists i rest,
      Pull.info s = Some i /\
      Pull.info s' = Pull.info s /\
      Pull.subject s' = Pull.subject s /\
      Pull.effects s'
      = (Pull.effects s ++ rest
           ++ [Pull.Publish (api_prefix i ++ ".CONSUMER.MSG.NEXT." ++ stream i
                               ++ "." ++ pull_consumer i)
                            (pull_body opts) (Pull.subject s)])%list /\
      filter is_publish rest = [] /\
      (Pull.monitor s = true -> exists r, rest = Pull.CancelMonitor :: r) /\
      (forall hb, idle_heartbeat (pull_body opts) = Some hb ->
         exists e, expires (pull_body opts) = Some e /\ 0 < hb /\ hb <= e).
Proof using Type.
  intros opts s s' H.
  destruct (pull_returns opts s s' H) as (i & Hi & Hhb & _ & ->). cbv zeta in Hhb.
  exists i, (monitor_effects (Pull.monitor s)
               (Pull.positive_or_zero (idle_heartbeat opts))
               (Pull.positive_or_zero (expires opts))).
  cbn [Pull.info Pull.subject Pull.effects].
  split; [exact Hi|]. split; [reflexivity|]. split; [reflexivity|].
  split; [reflexivity|]. split; [|split].
  - unfold monitor_effects.
    destruct (Pull.monitor s);
      destruct (negb (_ =? 0)%Z && negb (_ =? 0)%Z); reflexivity.
  - intros Hm. unfold monitor_effects. rewrite Hm. cbn [app]. eauto.
  - intros hb. unfold pull_body. cbv zeta. cbn [idle_heartbeat expires].
    destruct (Z.eqb_spec (Pull.positive_or_zero (idle_heartbeat opts)) 0) as [E|NE];
      [discriminate|].
    intros Hb. injection Hb as <-.
    destruct Hhb as [Hz|[Hpos Hle]]; [now elim NE|].
    destruct (Z.eqb_spec (Pull.positive_or_zero (expires opts)) 0) as [E|_]; [lia|].
    eexists. split; [reflexivity|]. unfold nanos. lia.
Qed.

Lemma pull_or_keep_step (s : Pull.PullSubscription) (opts : PullOptions) :
  let s' := pull_or_keep s opts in
  (setups s' + (if Pull.monitor s' then 0 else 1)
   <= setups s + (if Pull.monitor s then 0 else 1))%nat /\
  (Pull.monitor s = true -> Pull.monitor s' = true) /\
  (publishes s' <= publishes s + 1)%nat /\
  Pull.info s' = Pull.info s /\
  Pull.subject s' = Pull.subject s.
Proof using Type.
  cbv zeta. unfold pull_or_keep.
  destruct (Pull.pull feature_ok feature_min opts s) as [s'|x] eqn:H.
  - destruct (pull_returns opts s s' H) as (i & Hi & _ & _ & ->).
    unfold setups, publishes, monitor_effects.
    cbn [Pull.info Pull.subject Pull.effects Pull.monitor].
    rewrite !filter_app, !length_app.
    destruct (Pull.monitor s);
      destruct (negb (_ =? 0)%Z && negb (_ =? 0)%Z); cbn; repeat split; lia.
  - destruct (Pull.monitor s); repeat split; lia.
Qed.

(** X11. Over any sequence of subscription pulls (a pull that throws
    changes nothing): a heartbeat monitor is set up at most once, and not
    at all when one existed at the start, later pulls only cancel and
    reconfigure it; a monitor once there stays; at most one request is
    published per pull; the info and subject of the subscription never
    change. *)
Theorem subscription_pulls_single_monitor :
  forall (l : list PullOptions) (s : Pull.PullSubscription),
    (setups (pulls l s) <= setups s + (if Pull.monitor s then 0 else 1))%nat /\
    (Pull.monitor s = true -> Pull.monitor (pulls l s) = true) /\
    (publishes (pulls l s) <= publishes s + length l)%nat /\
    Pull.info (pulls l s) = Pull.info s /\
    Pull.subject (pulls l s) = Pull.subject s.
Proof using Type.
  induction l as [|opts l IH]; intros s.
  - cbn. repeat split; try lia. destruct (Pull.monitor s); lia.
  - cbn [pulls fold_left]. fold (pulls l (pull_or_keep s opts)).
    destruct (pull_or_keep_step s opts) as (H1 & H2 & H3 & H4 & H5). cbv zeta in *.
    destruct (IH (pull_or_keep s opts)) as (I1 & I2 & I3 & I4 & I5).
    split; [|split; [|split; [|split]]].
    + destruct (Pull.monitor (pull_or_keep s opts)); lia.
    + auto.
    + cbn [length]. lia.
    + now rewrite I4.
    + now rewrite I5.
Qed.

Lemma positive_or_zero_nonneg (n : option Z) : 0 <= Pull.positive_or_zero n.
Proof using Type.
  unfold Pull.positive_or_zero. destruct n as [v|]; [|lia].
  destruct (Z.ltb_spec 0 v); lia.
Qed.

(** X30. What a subscription pull refuses ([JetStreamPullSubscriptionImpl.pull]).
    With [e] and [hb] the positive [expires] and [idle_heartbeat] of the
    request (zero when absent or not positive): a positive [max_bytes] on
    a server without the feature is refused first, naming the minimum
    server version; otherwise a heartbeat without [expires] is refused
    with "idle_heartbeat requires expires", and an [expires] below the
    heartbeat with "expires must be greater than idle_heartbeat"; every
    other request, an [expires] equal to the heartbeat included, goes
    through. *)
Theorem subscription_pull_refusals :
  forall (opts : PullOptions) (s : Pull.PullSubscription) (i : SubscriptionInfo),
    Pull.info s = Some i ->
    let e := Pull.positive_or_zero (expires opts) in
    let hb := Pull.positive_or_zero (idle_heartbeat opts) in
    let unsupported := wants_max_bytes opts && negb feature_ok in
    0 <= e /\ 0 <= hb /\
    (unsupported = true ->
     Pull.pull feature_ok feature_min opts s
     = Throw (max_bytes_unsupported feature_min)) /\
    (unsupported = false -> 0 < hb -> e = 0 ->
     Pull.pull feature_ok feature_min opts s
     = Throw (Error "idle_heartbeat requires expires")) /\
    (unsupported = false -> 0 < e < hb ->
     Pull.pull feature_ok feature_min opts s
     = Throw (Error "expires must be greater than idle_heartbeat")) /\
    (unsupported = false -> hb <= e ->
     exists s', Pull.pull feature_ok feature_min opts s = Normal s').
Proof using Type.
  intros opts s i Hi e hb unsupported.
  assert (He : 0 <= e) by apply positive_or_zero_nonneg.
  assert (Hh : 0 <= hb) by apply positive_or_zero_nonneg.
  split; [exact He|]. split; [exact Hh|].
  unfold Pull.pull. rewrite Hi. cbv zeta.
  fold e. fold hb. fold unsupported.
  split; [|split; [|split]].
  - intros ->. reflexivity.
  - intros -> Hpos E. rewrite E.
    destruct (Z.eqb_spec hb 0) as [Z|_]; [lia|]. reflexivity.
  - intros -> [Hpos Hlt].
    destruct (Z.eqb_spec e 0) as [Z|_]; [lia|].
    rewrite Bool.andb_false_r.
    destruct (Z.ltb_spec e hb) as [_|Hge]; [reflexivity|lia].
  - intros -> Hle.
    destruct (Z.eqb_spec hb 0) as [Z0|NZ]; cbn [negb andb].
    + destruct (Z.ltb_spec e hb) as [Hlt|_]; [lia|]. eexists. reflexivity.
    + destruct (Z.eqb_spec e 0) as [Z|_]; [lia|].
      destruct (Z.ltb_spec e hb) as [Hlt|_]; [lia|]. eexists. reflexivity.
Qed.

End Client.

Lemma subscription_pull_publishes_witness :
  exists s' rest,
    Pull.pull true "2.8.3" Pull.equal_durations Pull.sample_sub = Normal s' /\
    Pull.effects s'
    = (rest ++ [Pull.Publish "$JS.API.CONSUMER.MSG.NEXT.ORDERS.dur"
                             (pull_body Pull.equal_durations) "_INBOX.3"])%list.
Proof.
  eexists.
  destruct (subscription_pull_publishes true "2.8.3" Pull.equal_durations
              Pull.sample_sub _ eq_refl) as (i & rest & Hi & _ & _ & He & _).
  exists rest. split; [reflexivity|].
  injection Hi as <-. exact He.
Defined.

Lemma subscription_pull_refusals_witness :
  Pull.pull true "2.8.3"
    (mkPullOptions (Some 10) None None (Some 500) (Some 1000) None)
    Pull.sample_sub
  = Throw (Error "expires must be greater than idle_heartbeat").
Proof.
  destruct (subscription_pull_refusals true "2.8.3"
              (mkPullOptions (Some 10) None None (Some 500) (Some 1000) None)
              Pull.sample_sub Pull.sample_info eq_refl)
    as (_ & _ & _ & _ & H & _).
  apply H; [reflexivity|cbn; lia].
Defined.

End Pulls.

(** ** Option processing, binding and the subscribe factories *)
Module Factories.
Import Js Types Client.

(** What [_buildTypedSubscriptionOpts] reads besides the info: the
    manual-ack flag, whether a callback was given, [max] and [queue]. *)
Record TypedInput := mkTypedInput {
  mack : bool;
  has_callback : bool;
  max : option Z;
  queue : option string
}.

Inductive Adapter := IterAdapter | CbAdapter.

(** [TypedSubscriptionOptions]: the adapter, whether [dispatchedFn] is
    [autoAckJsMsg], whether the callback is passed on, [max], [queue]. *)
Record TypedOptions := mkTypedOptions {
  adapter : Adapter;
  auto_ack : bool;
  with_callback : bool;
  so_max : Z;
  so_queue : option string
}.

(** [_buildTypedSubscriptionOpts(jsi)]. *)
Definition _buildTypedSubscriptionOpts (jsi : SubscriptionInfo) (x : TypedInput)
  : TypedOptions :=
  mkTypedOptions
    (if has_callback x then CbAdapter else IterAdapter)
    (negb (mack x)
     && match ack_policy (config jsi) with
        | Some AckNone => false
        | _ => true
        end)
    (has_callback x)
    (num_or (max x) 0)
    (queue x).

(** The [protocolFilterFn] installed there, on a frame that is or is not
    a flow-control message: whether the frame is kept, and whether it was
    answered. *)
Definition protocolFilterFn (is_flow_control ingest : bool) : bool * bool :=
  if is_flow_control then (false, negb ingest) else (true, false).

(** The consumer [destroy] and [consumerInfo] address:
    [durable_name || name]. *)
Definition info_consumer (i : SubscriptionInfo) : string :=
  if truthy_str (durable_name (config i))
  then str_nullish (durable_name (config i)) ""
  else str_nullish (name i) "undefined".

Definition delete_subject (i : SubscriptionInfo) : string :=
  api_prefix i ++ ".CONSUMER.DELETE." ++ stream i ++ "." ++ info_consumer i.

Definition info_subject (i : SubscriptionInfo) : string :=
  api_prefix i ++ ".CONSUMER.INFO." ++ stream i ++ "." ++ info_consumer i.

Section Methods.

Variable ApiError : string.
Variable createInbox : nat -> string.
Variable prefix : string.
Variable findStream : string -> Completion string.
Variable consumer_info : string -> string -> Completion (option ConsumerInfo).
Variable consumer_add : string -> ConsumerConfig -> Completion ConsumerInfo.
(** [millis] of jsutil: nanoseconds to milliseconds. *)
Variable millis : Z -> Z.

Definition processOptions1 (subject : string) (o : ConsumerOpts)
  : Completion SubscriptionInfo :=
  _processOptions ApiError createInbox prefix findStream consumer_info subject o.

Definition maybeCreateConsumer1 (jsi : SubscriptionInfo)
  : Completion SubscriptionInfo :=
  _maybeCreateConsumer consumer_add jsi.

Definition pullSubscribe1 (subject : string) (o : ConsumerOpts)
  : Completion SubscriptionInfo :=
  pullSubscribe ApiError createInbox prefix findStream consumer_info consumer_add
                subject o.

(** [_maybeSetupHbMonitoring()]: the period of the monitor it installs,
    if any. *)
Definition _maybeSetupHbMonitoring (i : SubscriptionInfo) : option Z :=
  let ns := num_or (idle_heartbeat (config i)) 0 in
  if (ns =? 0)%Z then None else Some (millis ns).

(** [subscribe(subject, opts)]: the info of the subscription it returns
    and the period of its heartbeat monitor. *)
Definition subscribe (subject : string) (o : ConsumerOpts)
  : Completion (SubscriptionInfo * option Z) :=
  bind (processOptions1 subject o) (fun cso =>
    if negb (isBind cso) && negb (truthy_str (deliver_subject (config cso)))
    then Throw (Error "push consumer requires deliver_subject")
    else bind (maybeCreateConsumer1 cso) (fun sub =>
           Normal (sub, _maybeSetupHbMonitoring sub))).

(** The stream a subscription resolves to. *)
Definition resolve_stream (subject : string) (o : ConsumerOpts)
  : Completion string :=
  if truthy_str (opt_stream o)
  then Normal (str_nullish (opt_stream o) "")
  else findStream subject.

(** The config the lookup of an existing durable is made with. *)
Definition requested (o : ConsumerOpts) (c0 : ConsumerConfig) : ConsumerConfig :=
  default_ack_policy
    (if bool_or_false (opt_ordered o) then ordered_config (createInbox 0) c0
     else c0).

(** *** Properties *)

Lemma processOptions_inv (subject : string) (o : ConsumerOpts)
  (cso : SubscriptionInfo) :
  processOptions1 subject o = Normal cso ->
  exists c0 st found,
    opt_config o = Some c0 /\
    (bool_or_false (opt_ordered o) = true -> ordered_checks ApiError c0 = None) /\
    resolve_stream subject o = Normal st /\
    lookup consumer_info st subject (requested o c0) = Normal found /\
    stream cso = st /\
    last cso = found /\
    name cso = match found with
               | Some ci => if truthy_str (durable_name (ci_config ci)) then None
                            else Some (ci_name ci)
               | None => None
               end /\
    attached cso = match found with Some _ => true | None => false end /\
    ordered cso = bool_or_false (opt_ordered o) /\
    isBind cso = bool_or_false (builder_isBind o) /\
    api_prefix cso = prefix /\
    flow_control cso = mkFlow 0 0 0 /\
    ordered_consumer_sequence cso
    = (if bool_or_false (opt_ordered o) then Some (mkSeq 0 0) else None) /\
    config cso
    = match found with
      | Some ci => ci_config ci
      | None =>
        match filter_subject (requested o c0), filter_subjects (requested o c0) with
        | None, None => set_filter_subject subject (requested o c0)
        | _, _ => requested o c0
        end
      end /\
    deliver cso
    = (if truthy_str (deliver_subject (config cso))
       then str_nullish (deliver_subject (config cso)) ""
       else createInbox (if bool_or_false (opt_ordered o) then 1 else 0)).
Proof using Type.
  unfold processOptions1, _processOptions, resolve_stream, requested.
  destruct (opt_config o) as [c0|]; [|discriminate]. cbv zeta.
  intros H. exists c0.
  destruct (bool_or_false (opt_ordered o)) eqn:Ho.
  - destruct (ordered_checks ApiError c0) eqn:Hck; [discriminate H|]. cbn [guard] in H.
    destruct (if truthy_str (opt_stream o)
              then Normal (str_nullish (opt_stream o) "")
              else findStream subject) as [st|]; [|discriminate H].
    cbn [bind] in H.
    destruct (lookup consumer_info st subject _) as [[ci|]|] eqn:Hl;
      [| |discriminate H]; cbn [bind] in H; injection H as <-;
      eexists; eexists; cbn; repeat split; try reflexivity; try exact Hl;
      try (destruct (filter_subject _); [reflexivity|];
           destruct (filter_subjects _); reflexivity).
  - cbn [guard] in H.
    destruct (if truthy_str (opt_stream o)
              then Normal (str_nullish (opt_stream o) "")
              else findStream subject) as [st|]; [|discriminate H].
    cbn [bind] in H.
    destruct (lookup consumer_info st subject _) as [[ci|]|] eqn:Hl;
      [| |discriminate H]; cbn [bind] in H; injection H as <-;
      eexists; eexists; cbn; repeat split; try reflexivity; try exact Hl;
      try discriminate;
      try (destruct (filter_subject _); [reflexivity|];
           destruct (filter_subjects _); reflexivity).
Qed.

Lemma bind_checks_plain (subject : string) (c : ConsumerConfig) (ci : ConsumerInfo)
  (e : JsError) :
  bind_checks subject c ci = Some e -> exists m, e = Error m.
Proof using Type.
  unfold bind_checks. cbv zeta. intros Hb.
  repeat match type of Hb with
         | (if ?b then _ else _) = _ => destruct b
         end; try discriminate Hb; injection Hb as <-; eexists; reflexivity.
Qed.

(** The [catch] clause lets through only the absence of a consumer, and
    only for the code "404". *)
Lemma catch_404_result (err : JsError) (x : option ConsumerInfo) :
  catch_404 err = Normal x -> code_of err = Some "404" /\ x = None.
Proof using Type.
  unfold catch_404. intros H.
  destruct (code_of err) as [code|]; [|discriminate H].
  repeat match type of H with
         | context [match ?v with _ => _ end] => destruct v; try discriminate H
         end.
  injection H as <-. split; reflexivity.
Qed.

Lemma catch_404_other (err : JsError) :
  code_of err <> Some "404" -> catch_404 err = Throw err.
Proof using Type.
  intros Hc. destruct (catch_404 err) as [x|e] eqn:H.
  - destruct (catch_404_result err x H) as [H' _]. now elim Hc.
  - unfold catch_404 in H.
    destruct (code_of err) as [code|]; [|congruence].
    repeat match type of H with
           | context [match ?v with _ => _ end] => destruct v; try congruence
           end.
Qed.

Lemma lookup_found (st subject : string) (c : ConsumerConfig) (ci : ConsumerInfo) :
  lookup consumer_info st subject c = Normal (Some ci) ->
  exists d,
    durable_name c = Some d /\ d <> "" /\
    consumer_info st d = Normal (Some ci) /\
    bind_checks subject c ci = None.
Proof using Type.
  unfold lookup. destruct (durable_name c) as [d|] eqn:Hd; cbn [truthy_str];
    [|discriminate].
  destruct (String.eqb_spec d "") as [E|NE]; cbn [negb]; [discriminate|].
  cbn [str_nullish].
  destruct (consumer_info st d) as [[ci'|]|err] eqn:Hi.
  - destruct (bind_checks subject c ci') as [e|] eqn:Hb.
    + destruct (bind_checks_plain subject c ci' e Hb) as (m & ->). discriminate.
    + intros H. injection H as <-. exists d. auto.
  - discriminate.
  - intros H. destruct (catch_404_result err _ H) as [_ H']. discriminate H'.
Qed.

Lemma bind_checks_passed (subject : string) (c : ConsumerConfig) (ci : ConsumerInfo) :
  bind_checks subject c ci = None ->
  (forall f, filter_subject (ci_config ci) = Some f -> f <> "" -> f = subject) /\
  ~ (str_nullish (deliver_group c) "" = "" /\ push_bound ci = Some true) /\
  str_nullish (deliver_group c) "" = str_nullish (deliver_group (ci_config ci)) "".
Proof using Type.
  unfold bind_checks. cbv zeta.
  destruct (filter_subject (ci_config ci)) as [f|] eqn:Hf; cbn [truthy_str str_nullish].
  - destruct (String.eqb_spec f "") as [E|NE]; cbn [negb andb].
    + destruct (String.eqb_spec (str_nullish (deliver_group c) "") "") as [Eq|Nq];
        cbn [andb].
      * destruct (push_bound ci) as [[|]|]; [discriminate| |];
          (destruct (String.eqb_spec (str_nullish (deliver_group c) "")
                       (str_nullish (deliver_group (ci_config ci)) "")) as [Er|Nr];
           cbn [negb];
           [|destruct (str_nullish (deliver_group (ci_config ci)) "" =? "")%string;
             discriminate]);
          intros _; (split; [intros f' H N; injection H as <-; now elim N|]);
          (split; [intros [_ H]; discriminate H|exact Er]).
      * destruct (String.eqb_spec (str_nullish (deliver_group c) "")
                    (str_nullish (deliver_group (ci_config ci)) "")) as [Er|Nr];
          cbn [negb];
          [|destruct (str_nullish (deliver_group (ci_config ci)) "" =? "")%string;
            discriminate].
        intros _. split; [intros f' H N; injection H as <-; now elim N|].
        split; [intros [H _]; now elim Nq|exact Er].
    + destruct (String.eqb_spec f subject) as [Es|Ns]; cbn [negb]; [|discriminate].
      destruct (String.eqb_spec (str_nullish (deliver_group c) "") "") as [Eq|Nq];
        cbn [andb].
      * destruct (push_bound ci) as [[|]|]; [discriminate| |];
          (destruct (String.eqb_spec (str_nullish (deliver_group c) "")
                       (str_nullish (deliver_group (ci_config ci)) "")) as [Er|Nr];
           cbn [negb];
           [|destruct (str_nullish (deliver_group (ci_config ci)) "" =? "")%string;
             discriminate]);
          intros _; (split; [intros f' H N; injection H as <-; exact Es|]);
          (split; [intros [_ H]; discriminate H|exact Er]).
      * destruct (String.eqb_spec (str_nullish (deliver_group c) "")
                    (str_nullish (deliver_group (ci_config ci)) "")) as [Er|Nr];
          cbn [negb];
          [|destruct (str_nullish (deliver_group (ci_config ci)) "" =? "")%string;
            discriminate].
        intros _. split; [intros f' H N; injection H as <-; exact Es|].
        split; [intros [H _]; now elim Nq|exact Er].
  - cbn [andb].
    destruct (String.eqb_spec (str_nullish (deliver_group c) "") "") as [Eq|Nq];
      cbn [andb].
    + destruct (push_bound ci) as [[|]|]; [discriminate| |];
        (destruct (String.eqb_spec (str_nullish (deliver_group c) "")
                     (str_nullish (deliver_group (ci_config ci)) "")) as [Er|Nr];
         cbn [negb];
         [|destruct (str_nullish (deliver_group (ci_config ci)) "" =? "")%string;
           discriminate]);
        intros _; (split; [intros f' H; discriminate H|]);
        (split; [intros [_ H]; discriminate H|exact Er]).
    + destruct (String.eqb_spec (str_nullish (deliver_group c) "")
                  (str_nullish (deliver_group (ci_config ci)) "")) as [Er|Nr];
        cbn [negb];
        [|destruct (str_nullish (deliver_group (ci_config ci)) "" =? "")%string;
          discriminate].
      intros _. split; [intros f' H; discriminate H|].
      split; [intros [H _]; now elim Nq|exact Er].
Qed.

Lemma ordered_checks_passed (c : ConsumerConfig) :
  ordered_checks ApiError c = None ->
  (ack_policy c = Some AckNotSet \/ ack_policy c = Some AckNone) /\
  truthy_str (durable_name c) = false /\
  truthy_str (deliver_subject c) = false /\
  (forall n, max_deliver c = Some n -> n <= 1) /\
  truthy_str (deliver_group c) = false.
Proof using Type.
  unfold ordered_checks.
  destruct (ack_policy c) as [[| | |]|]; try discriminate;
    (destruct (truthy_str (durable_name c)); [discriminate|]);
    (destruct (truthy_str (deliver_subject c)); [discriminate|]);
    (destruct (max_deliver c) as [n|];
     [destruct (Z.ltb_spec 1 n) as [Hlt|Hge]; [discriminate|]|]);
    (destruct (truthy_str (deliver_group c)); [discriminate|]);
    intros _; repeat split; auto;
    try (intros n' Hn; injection Hn as <-; exact Hge);
    try (intros n' Hn; discriminate Hn).
Qed.

Lemma requested_fields (o : ConsumerOpts) (c0 : ConsumerConfig) :
  durable_name (requested o c0) = durable_name c0 /\
  deliver_group (requested o c0) = deliver_group c0 /\
  filter_subject (requested o c0) = filter_subject c0 /\
  filter_subjects (requested o c0) = filter_subjects c0.
Proof using Type.
  unfold requested, default_ack_policy.
  destruct (bool_or_false (opt_ordered o)); cbn;
    [repeat split|destruct (ack_policy c0) as [[| | |]|]; repeat split].
Qed.

Lemma processOptions_ordered_facts :
  forall (subject : string) (o : ConsumerOpts) (cso : SubscriptionInfo),
    processOptions1 subject o = Normal cso ->
    opt_ordered o = Some true ->
    exists c0,
      opt_config o = Some c0 /\
      (ack_policy c0 = Some AckNotSet \/ ack_policy c0 = Some AckNone) /\
      truthy_str (durable_name c0) = false /\
      truthy_str (deliver_subject c0) = false /\
      (forall n, max_deliver c0 = Some n -> n <= 1) /\
      truthy_str (deliver_group c0) = false /\
      attached cso = false /\ last cso = None /\ ordered cso = true /\
      ack_policy (config cso) = Some AckNone /\
      max_deliver (config cso) = Some 1 /\
      cfg_flow_control (config cso) = Some true /\
      mem_storage (config cso) = Some true /\
      num_replicas (config cso) = Some 1 /\
      ack_wait (config cso) = Some 79200000000000 /\
      idle_heartbeat (config cso) = Some (num_or (idle_heartbeat c0) 5000000000) /\
      deliver_subject (config cso) = Some (createInbox 0) /\
      (createInbox 0 <> "" -> deliver cso = createInbox 0) /\
      ordered_consumer_sequence cso = Some (mkSeq 0 0) /\
      flow_control cso = mkFlow 0 0 0.
Proof using Type.
  intros subject o cso H Hord.
  destruct (processOptions_inv subject o cso H)
    as (c0 & st & found & Hc & Hck & _ & Hl & _ & Hlast & _ & Hatt & Ho & _ & _
        & Hfc & Hseq & Hcfg & Hdel).
  rewrite Hord in *. cbn [bool_or_false] in *.
  destruct (ordered_checks_passed c0 (Hck eq_refl)) as (Hack & Hdur & Hds & Hmax & Hgrp).
  assert (Hnone : found = None).
  { unfold lookup in Hl.
    destruct (requested_fields o c0) as (Hd & _). rewrite Hd, Hdur in Hl.
    injection Hl as <-. reflexivity. }
  rewrite Hnone in Hcfg, Hlast, Hatt.
  assert (Hreq : requested o c0 = ordered_config (createInbox 0) c0).
  { unfold requested. rewrite Hord. reflexivity. }
  rewrite Hreq in Hcfg.
  assert (Hfields :
    ack_policy (config cso) = Some AckNone /\
    max_deliver (config cso) = Some 1 /\
    cfg_flow_control (config cso) = Some true /\
    mem_storage (config cso) = Some true /\
    num_replicas (config cso) = Some 1 /\
    ack_wait (config cso) = Some 79200000000000 /\
    idle_heartbeat (config cso) = Some (num_or (idle_heartbeat c0) 5000000000) /\
    deliver_subject (config cso) = Some (createInbox 0)).
  { rewrite Hcfg.
    destruct (filter_subject (ordered_config (createInbox 0) c0));
      [|destruct (filter_subjects (ordered_config (createInbox 0) c0))];
      repeat split. }
  destruct Hfields as (F1 & F2 & F3 & F4 & F5 & F6 & F7 & F8).
  exists c0. repeat split; auto.
  intros Hne. rewrite Hdel, F8. cbn [truthy_str str_nullish].
  destruct (String.eqb_spec (createInbox 0) "") as [E|_]; [now elim Hne|reflexivity].
Qed.

(** X12. Processing ordered options.  It succeeds only on options that
    respect the ordered invariants (ack policy [NotSet] or [None], no
    durable name, no deliver subject, no deliver group, [max_deliver] at
    most 1); it never looks up or attaches to an existing consumer; and
    the config it returns has ack policy [None], [max_deliver] 1, flow
    control on, memory storage, one replica, an [ack_wait] of 22 hours, the
    caller's idle heartbeat or 5 seconds, and a fresh inbox as deliver
    subject, with the recorded sequences and counters at 0. *)
Theorem processOptions_ordered :
  forall (subject : string) (o : ConsumerOpts) (cso : SubscriptionInfo),
    processOptions1 subject o = Normal cso ->
    opt_ordered o = Some true ->
    exists c0,
      opt_config o = Some c0 /\
      (ack_policy c0 = Some AckNotSet \/ ack_policy c0 = Some AckNone) /\
      truthy_str (durable_name c0) = false /\
      truthy_str (deliver_subject c0) = false /\
      (forall n, max_deliver c0 = Some n -> n <= 1) /\
      truthy_str (deliver_group c0) = false /\
      attached cso = false /\ last cso = None /\ ordered cso = true /\
      ack_policy (config cso) = Some AckNone /\
      max_deliver (config cso) = Some 1 /\
      cfg_flow_control (config cso) = Some true /\
      mem_storage (config cso) = Some true /\
      num_replicas (config cso) = Some 1 /\
      ack_wait (config cso) = Some 79200000000000 /\
      idle_heartbeat (config cso) = Some (num_or (idle_heartbeat c0) 5000000000) /\
      deliver_subject (config cso) = Some (createInbox 0) /\
      (createInbox 0 <> "" -> deliver cso = createInbox 0) /\
      ordered_consumer_sequence cso = Some (mkSeq 0 0) /\
      flow_control cso = mkFlow 0 0 0.
Proof using Type.
  exact processOptions_ordered_facts.
Qed.

(** X13. Attaching to an existing durable.  The info returned by option
    processing is attached only when the options are not ordered and name
    a durable that the server knows; then the server's info is kept as
    [last] and its config replaces the caller's; the durable's filter
    subject, when it has one, is the subscribe subject; the caller's and
    the durable's queue groups are the same; and a durable that is
    already bound is attached to only with a queue group. *)
Theorem processOptions_attached :
  forall (subject : string) (o : ConsumerOpts) (cso : SubscriptionInfo),
    processOptions1 subject o = Normal cso ->
    attached cso = true ->
    exists c0 d ci,
      opt_config o = Some c0 /\
      bool_or_false (opt_ordered o) = false /\
      durable_name c0 = Some d /\ d <> "" /\
      consumer_info (stream cso) d = Normal (Some ci) /\
      last cso = Some ci /\
      config cso = ci_config ci /\
      (forall f, filter_subject (ci_config ci) = Some f -> f <> "" -> f = subject) /\
      str_nullish (deliver_group c0) ""
      = str_nullish (deliver_group (ci_config ci)) "" /\
      (push_bound ci = Some true -> str_nullish (deliver_group c0) "" <> "").
Proof using Type.
  intros subject o cso H Hatt.
  destruct (processOptions_inv subject o cso H)
    as (c0 & st & found & Hc & Hck & _ & Hl & Hst & Hlast & _ & Ha & _ & _ & _
        & _ & _ & Hcfg & _).
  rewrite Hatt in Ha. destruct found as [ci|]; [|discriminate Ha].
  destruct (lookup_found st subject _ ci Hl) as (d & Hd & Hne & Hi & Hb).
  destruct (requested_fields o c0) as (Hdn & Hdg & _ & _).
  rewrite Hdn in Hd.
  destruct (bind_checks_passed subject _ ci Hb) as (Hf & Hdup & Hgrp).
  rewrite Hdg in Hdup, Hgrp.
  exists c0, d, ci. rewrite Hst.
  split; [exact Hc|]. split.
  - destruct (bool_or_false (opt_ordered o)) eqn:Ho; [|reflexivity].
    destruct (ordered_checks_passed c0 (Hck eq_refl)) as (_ & Hdur & _).
    rewrite Hd in Hdur. cbn in Hdur.
    destruct (String.eqb_spec d ""); [now elim Hne|discriminate Hdur].
  - repeat split; auto.
Qed.

(** X14. The filter of an unattached subscription.  When option
    processing does not attach, the caller's [filter_subjects] are kept,
    the caller's [filter_subject] is kept when there is one, and the
    subscribe subject becomes the filter subject exactly when the caller
    gave neither; so an unattached info always has a filter. *)
Theorem processOptions_unattached_filter :
  forall (subject : string) (o : ConsumerOpts) (cso : SubscriptionInfo),
    processOptions1 subject o = Normal cso ->
    attached cso = false ->
    exists c0,
      opt_config o = Some c0 /\
      filter_subjects (config cso) = filter_subjects c0 /\
      filter_subject (config cso)
      = match filter_subject c0, filter_subjects c0 with
        | None, None => Some subject
        | f, _ => f
        end /\
      (filter_subject (config cso) <> None \/ filter_subjects (config cso) <> None).
Proof using Type.
  intros subject o cso H Hatt.
  destruct (processOptions_inv subject o cso H)
    as (c0 & st & found & Hc & _ & _ & _ & _ & _ & _ & Ha & _ & _ & _
        & _ & _ & Hcfg & _).
  rewrite Hatt in Ha. destruct found as [ci|]; [discriminate Ha|].
  destruct (requested_fields o c0) as (_ & _ & Hf & Hfs).
  rewrite Hf, Hfs in Hcfg.
  exists c0. split; [exact Hc|]. rewrite Hcfg.
  destruct (filter_subject c0) as [f|] eqn:E1;
    [|destruct (filter_subjects c0) as [fs|] eqn:E2]; cbn;
    rewrite ?Hf, ?Hfs, ?E1, ?E2; repeat split; auto;
    first [left; discriminate|right; discriminate].
Qed.

Lemma catch_404_404 (err : JsError) :
  code_of err = Some "404" -> catch_404 err = Normal None.
Proof using Type.
  intros H. unfold catch_404. rewrite H. reflexivity.
Qed.

(** Processing options that are not ordered, once the stream is known:
    everything hangs on the lookup. *)
Lemma processOptions_plain (subject : string) (o : ConsumerOpts)
  (c0 : ConsumerConfig) (st : string) :
  opt_config o = Some c0 ->
  bool_or_false (opt_ordered o) = false ->
  resolve_stream subject o = Normal st ->
  (forall e, lookup consumer_info st subject (requested o c0) = Throw e ->
             processOptions1 subject o = Throw e) /\
  (forall found, lookup consumer_info st subject (requested o c0) = Normal found ->
                 exists cso, processOptions1 subject o = Normal cso /\
                             stream cso = st /\ last cso = found /\
                             attached cso = match found with
                                            | Some _ => true
                                            | None => false
                                            end).
Proof using Type.
  intros Hc Ho Hs. unfold processOptions1, _processOptions, requested.
  unfold resolve_stream in Hs. rewrite Hc, Ho. cbv zeta. cbn [guard].
  rewrite Hs. cbn [bind]. split.
  - intros e He. rewrite He. reflexivity.
  - intros found Hf. rewrite Hf. cbn [bind]. eexists. split; [reflexivity|].
    cbn. auto.
Qed.

(** X15. Looking up the durable named by options that are not ordered.
    A lookup that fails with code "404", or that finds nothing, lets
    processing go on unattached; a lookup that fails with any other error
    makes processing fail with that error; and a durable that is found
    but does not fit (another filter subject, already bound, another
    queue group) makes processing fail with the error of that check,
    which is never taken for a 404. *)
Theorem durable_lookup_outcomes :
  forall (subject : string) (o : ConsumerOpts) (c0 : ConsumerConfig)
         (d st : string),
    opt_config o = Some c0 ->
    bool_or_false (opt_ordered o) = false ->
    durable_name c0 = Some d -> d <> "" ->
    resolve_stream subject o = Normal st ->
    (forall err, consumer_info st d = Throw err ->
       (code_of err = Some "404" ->
        exists cso, processOptions1 subject o = Normal cso /\ attached cso = false) /\
       (code_of err <> Some "404" -> processOptions1 subject o = Throw err)) /\
    (consumer_info st d = Normal None ->
     exists cso, processOptions1 subject o = Normal cso /\ attached cso = false) /\
    (forall ci e, consumer_info st d = Normal (Some ci) ->
       bind_checks subject (requested o c0) ci = Some e ->
       processOptions1 subject o = Throw e) /\
    (forall ci, consumer_info st d = Normal (Some ci) ->
       bind_checks subject (requested o c0) ci = None ->
       exists cso, processOptions1 subject o = Normal cso /\
                   attached cso = true /\ last cso = Some ci).
Proof using Type.
  intros subject o c0 d st Hc Ho Hd Hne Hs.
  destruct (processOptions_plain subject o c0 st Hc Ho Hs) as (Hthrow & Hnormal).
  assert (Hl : lookup consumer_info st subject (requested o c0)
               = match consumer_info st d with
                 | Normal (Some info) =>
                   match bind_checks subject (requested o c0) info with
                   | Some e => catch_404 e
                   | None => Normal (Some info)
                   end
                 | Normal None => Normal None
                 | Throw err => catch_404 err
                 end).
  { unfold lookup. destruct (requested_fields o c0) as (-> & _). rewrite Hd.
    cbn [truthy_str str_nullish].
    destruct (String.eqb_spec d "") as [E|_]; [now elim Hne|]. reflexivity. }
  split; [|split; [|split]].
  - intros err He. rewrite He in Hl. split.
    + intros H4. rewrite (catch_404_404 err H4) in Hl.
      destruct (Hnormal None Hl) as (cso & H1 & _ & _ & H2). eauto.
    + intros Hn. rewrite (catch_404_other err Hn) in Hl. auto.
  - intros He. rewrite He in Hl.
    destruct (Hnormal None Hl) as (cso & H1 & _ & _ & H2). eauto.
  - intros ci e He Hb. rewrite He, Hb in Hl.
    destruct (bind_checks_plain subject _ ci e Hb) as (m & ->).
    apply Hthrow. exact Hl.
  - intros ci He Hb. rewrite He, Hb in Hl.
    destruct (Hnormal (Some ci) Hl) as (cso & H1 & _ & H2 & H3). eauto.
Qed.

(** X16. [_maybeCreateConsumer].  On an attached info it returns the info
    as it is; on an unattached bind-only info it fails, naming the
    durable and the stream; in both cases the outcome does not depend on
    the server's create call.  Otherwise the create call is made with
    [Object.assign(defaults, config)]; its failure is the failure of the
    call, and on success the info adopts the server's name and config,
    whatever filter subjects came back.  In the config that is sent, a
    value the caller gave is never replaced; of the four defaulted
    properties (ack policy [Explicit], [ack_wait] 30 seconds, deliver
    policy [All], replay policy [Instant]) one that the caller's object
    lacks gets its default, and one that the object has with the value
    [undefined] is sent as [undefined]. *)
Theorem maybeCreateConsumer_outcomes :
  forall (add1 add2 : string -> ConsumerConfig -> Completion ConsumerInfo)
         (jsi : SubscriptionInfo),
    (attached jsi = true -> _maybeCreateConsumer add1 jsi = Normal jsi) /\
    (attached jsi = false -> isBind jsi = true ->
     _maybeCreateConsumer add1 jsi
     = Throw (Error ("unable to bind - durable consumer "
                     ++ str_nullish (durable_name (config jsi)) "undefined"
                     ++ " doesn't exist in " ++ stream jsi))) /\
    (attached jsi = true \/ isBind jsi = true ->
     _maybeCreateConsumer add1 jsi = _maybeCreateConsumer add2 jsi) /\
    (attached jsi = false -> isBind jsi = false ->
     (forall ci, add1 (stream jsi) (with_defaults (config jsi)) = Normal ci ->
                 _maybeCreateConsumer add1 jsi = Normal (adopt ci jsi)) /\
     (forall e, add1 (stream jsi) (with_defaults (config jsi)) = Throw e ->
                _maybeCreateConsumer add1 jsi = Throw e)) /\
    ((forall p, ack_policy (config jsi) = Some p ->
                ack_policy (with_defaults (config jsi)) = Some p) /\
     (forall n, ack_wait (config jsi) = Some n ->
                ack_wait (with_defaults (config jsi)) = Some n) /\
     (forall p, deliver_policy (config jsi) = Some p ->
                deliver_policy (with_defaults (config jsi)) = Some p) /\
     (forall p, replay_policy (config jsi) = Some p ->
                replay_policy (with_defaults (config jsi)) = Some p)) /\
    ((ack_policy (config jsi) = None ->
      ack_policy (with_defaults (config jsi))
      = if has_undefined AckPolicyProp (config jsi)
        then None else Some AckExplicit) /\
     (ack_wait (config jsi) = None ->
      ack_wait (with_defaults (config jsi))
      = if has_undefined AckWaitProp (config jsi)
        then None else Some 30000000000) /\
     (deliver_policy (config jsi) = None ->
      deliver_policy (with_defaults (config jsi))
      = if has_undefined DeliverPolicyProp (config jsi)
        then None else Some DeliverAll) /\
     (replay_policy (config jsi) = None ->
      replay_policy (with_defaults (config jsi))
      = if has_undefined ReplayPolicyProp (config jsi)
        then None else Some Instant)) /\
    (durable_name (with_defaults (config jsi)) = durable_name (config jsi) /\
     deliver_subject (with_defaults (config jsi)) = deliver_subject (config jsi) /\
     deliver_group (with_defaults (config jsi)) = deliver_group (config jsi) /\
     filter_subject (with_defaults (config jsi)) = filter_subject (config jsi) /\
     filter_subjects (with_defaults (config jsi)) = filter_subjects (config jsi) /\
     idle_heartbeat (with_defaults (config jsi)) = idle_heartbeat (config jsi) /\
     opt_start_seq (with_defaults (config jsi)) = opt_start_seq (config jsi)).
Proof using Type.
  intros add1 add2 jsi. unfold _maybeCreateConsumer.
  split; [intros ->; reflexivity|].
  split; [intros -> ->; reflexivity|].
  split; [intros [->| ->]; [reflexivity|destruct (attached jsi); reflexivity]|].
  split; [|split; [|split]].
  - intros -> ->. split.
    + intros ci ->. cbn [bind]. now rewrite filter_subjects_test_false.
    + intros e ->. reflexivity.
  - repeat split; intros p Hp; cbn; rewrite Hp; reflexivity.
  - repeat split; intros Hp; cbn; rewrite Hp; reflexivity.
  - repeat split; reflexivity.
Qed.

(** X17. What [pullSubscribe] refuses.  A failure of option processing is
    its failure; processed options that are ordered are refused with "pull
    subscribers cannot be be ordered"; a processed config with a deliver
    subject (the caller's, or that of the durable it attached to) is
    refused as a push consumer.  So a pull subscription is never
    ordered, and when it is attached to an existing consumer, that
    consumer has no deliver subject. *)
Theorem pullSubscribe_refusals :
  forall (subject : string) (o : ConsumerOpts),
    (forall e, processOptions1 subject o = Throw e ->
               pullSubscribe1 subject o = Throw e) /\
    (forall cso, processOptions1 subject o = Normal cso -> ordered cso = true ->
       pullSubscribe1 subject o
       = Throw (Error "pull subscribers cannot be be ordered")) /\
    (forall cso, processOptions1 subject o = Normal cso -> ordered cso = false ->
       truthy_str (deliver_subject (config cso)) = true ->
       pullSubscribe1 subject o
       = Throw (Error "consumer info specifies deliver_subject - pull consumers cannot have deliver_subject set")) /\
    (forall sub, pullSubscribe1 subject o = Normal sub ->
       ordered sub = false /\
       bool_or_false (opt_ordered o) = false /\
       (attached sub = true ->
        truthy_str (deliver_subject (config sub)) = false)).
Proof using Type.
  intros subject o. unfold pullSubscribe1, pullSubscribe.
  fold (processOptions1 subject o).
  split; [intros e ->; reflexivity|].
  split; [intros cso Hp Ho; rewrite Hp; cbn [bind]; rewrite Ho; reflexivity|].
  split; [intros cso Hp Ho Hd; rewrite Hp; cbn [bind]; rewrite Ho, Hd; reflexivity|].
  intros sub H.
  destruct (processOptions1 subject o) as [cso|] eqn:Hp; [|discriminate H].
  cbn [bind] in H.
  destruct (ordered cso) eqn:Ho; [discriminate H|].
  destruct (truthy_str (deliver_subject (config cso))) eqn:Hd; [discriminate H|].
  assert (Hm : _maybeCreateConsumer consumer_add cso = Normal sub).
  { destruct (ack_policy (config cso)) as [[| | |]|];
      try discriminate H; exact H. }
  destruct (processOptions_inv subject o cso Hp)
    as (c0 & st & found & _ & _ & _ & _ & _ & _ & _ & _ & Hord & _).
  destruct (maybeCreateConsumer_attached consumer_add cso sub Hm) as (Hsame & Hid).
  assert (Hos : ordered sub = false).
  { unfold _maybeCreateConsumer in Hm. destruct (attached cso).
    - injection Hm as <-. exact Ho.
    - destruct (isBind cso); [discriminate Hm|].
      destruct (consumer_add _ _) as [ci|]; [|discriminate Hm]. cbn [bind] in Hm.
      rewrite filter_subjects_test_false in Hm. injection Hm as <-. exact Ho. }
  split; [exact Hos|]. split; [rewrite <- Hord; exact Ho|].
  intros Ha. rewrite Hsame in Ha. rewrite (Hid Ha). exact Hd.
Qed.

(** X18. What [subscribe] requires.  A failure of option processing is
    its failure; a processed info that is neither bind-only nor has a
    deliver subject is refused with "push consumer requires
    deliver_subject", before any consumer is created; ordered options
    that were processed are never refused for that reason (their deliver
    subject is the fresh inbox).  A subscription that is returned monitors
    heartbeats exactly when the config it ended up with has a nonzero
    idle heartbeat, with that period converted to milliseconds. *)
Theorem subscribe_outcomes :
  forall (subject : string) (o : ConsumerOpts),
    (forall e, processOptions1 subject o = Throw e -> subscribe subject o = Throw e) /\
    (forall cso, processOptions1 subject o = Normal cso ->
       isBind cso = false ->
       truthy_str (deliver_subject (config cso)) = false ->
       subscribe subject o = Throw (Error "push consumer requires deliver_subject")) /\
    (forall cso, processOptions1 subject o = Normal cso ->
       ordered cso = true -> createInbox 0 <> "" ->
       subscribe subject o
       = bind (maybeCreateConsumer1 cso)
              (fun sub => Normal (sub, _maybeSetupHbMonitoring sub))) /\
    (forall sub mon, subscribe subject o = Normal (sub, mon) ->
       exists cso,
         processOptions1 subject o = Normal cso /\
         (isBind cso = true \/ truthy_str (deliver_subject (config cso)) = true) /\
         maybeCreateConsumer1 cso = Normal sub /\
         mon = (if (num_or (idle_heartbeat (config sub)) 0 =? 0)%Z then None
                else Some (millis (num_or (idle_heartbeat (config sub)) 0)))).
Proof using Type.
  intros subject o. unfold subscribe.
  split; [intros e ->; reflexivity|].
  split; [intros cso Hp Hb Hd; rewrite Hp; cbn [bind]; rewrite Hb, Hd; reflexivity|].
  split.
  - intros cso Hp Ho Hne. rewrite Hp. cbn [bind].
    destruct (processOptions_ordered_facts subject o cso Hp) as (c0 & Hfacts).
    { destruct (processOptions_inv subject o cso Hp)
        as (c1 & st & found & _ & _ & _ & _ & _ & _ & _ & _ & Hord & _).
      rewrite Ho in Hord. destruct (opt_ordered o) as [[|]|]; try discriminate Hord.
      reflexivity. }
    destruct Hfacts as (_ & _ & _ & _ & _ & _ & _ & _ & _ & _ & _ & _ & _ & _ & _
                        & _ & Hds & _).
    rewrite Hds. cbn [truthy_str].
    destruct (String.eqb_spec (createInbox 0) "") as [E|_]; [now elim Hne|].
    cbn [negb]. rewrite andb_false_r. reflexivity.
  - intros sub mon H.
    destruct (processOptions1 subject o) as [cso|] eqn:Hp; [|discriminate H].
    cbn [bind] in H. exists cso. split; [reflexivity|].
    destruct (isBind cso) eqn:Hb; cbn [negb andb] in H.
    + destruct (maybeCreateConsumer1 cso) as [sub'|]; [|discriminate H].
      cbn [bind] in H. injection H as <- <-. auto.
    + destruct (truthy_str (deliver_subject (config cso))) eqn:Hd;
        cbn [negb] in H; [|discriminate H].
      destruct (maybeCreateConsumer1 cso) as [sub'|]; [|discriminate H].
      cbn [bind] in H. injection H as <- <-. auto.
Qed.

(** X19. The typed-subscription options.  Messages are acknowledged
    automatically exactly when manual ack was not asked for and the ack
    policy is not [None]; the iterator adapter is chosen exactly when no
    callback was given.  Since processed ordered options always have ack
    policy [None], a subscription built from them never acknowledges
    automatically. *)
Theorem typed_subscription_options :
  forall (jsi : SubscriptionInfo) (x : TypedInput),
    (auto_ack (_buildTypedSubscriptionOpts jsi x) = true <->
     mack x = false /\ ack_policy (config jsi) <> Some AckNone) /\
    (adapter (_buildTypedSubscriptionOpts jsi x) = IterAdapter <->
     has_callback x = false) /\
    (forall subject o,
       processOptions1 subject o = Normal jsi -> ordered jsi = true ->
       auto_ack (_buildTypedSubscriptionOpts jsi x) = false).
Proof using Type.
  intros jsi x. unfold _buildTypedSubscriptionOpts. cbn [auto_ack adapter].
  split; [|split].
  - destruct (mack x); cbn [negb andb].
    + split; [discriminate|]. intros [H _]. discriminate H.
    + destruct (ack_policy (config jsi)) as [[| | |]|]; split; auto;
        try discriminate; try (intros _; split; [reflexivity|discriminate]).
      intros [_ H]. now elim H.
  - destruct (has_callback x); split; auto; discriminate.
  - intros subject o Hp Ho.
    destruct (processOptions_ordered_facts subject o jsi Hp) as (c0 & Hfacts).
    { destruct (processOptions_inv subject o jsi Hp)
        as (c1 & st & found & _ & _ & _ & _ & _ & _ & _ & _ & Hord & _).
      rewrite Ho in Hord. destruct (opt_ordered o) as [[|]|]; try discriminate Hord.
      reflexivity. }
    destruct Hfacts as (_ & _ & _ & _ & _ & _ & _ & _ & _ & Hack & _).
    rewrite Hack. apply andb_false_r.
Qed.

End Methods.

(** X20. The consumer a subscription addresses.  The pull of a pull
    subscription names the consumer [durable_name ?? name], while
    [destroy] and [consumerInfo] name it [durable_name || name]: the two
    agree unless the durable name is the empty string, in which case the
    pull addresses the empty name and the other two the server-assigned
    one; [destroy] and [consumerInfo] always address the same consumer. *)
Theorem consumer_names :
  forall i : SubscriptionInfo,
    (durable_name (config i) <> Some "" ->
     Pulls.pull_consumer i = info_consumer i) /\
    (durable_name (config i) = Some "" ->
     Pulls.pull_consumer i = "" /\
     info_consumer i = str_nullish (name i) "undefined") /\
    (exists suffix,
       delete_subject i = api_prefix i ++ ".CONSUMER.DELETE." ++ suffix /\
       info_subject i = api_prefix i ++ ".CONSUMER.INFO." ++ suffix).
Proof.
  intros i. unfold Pulls.pull_consumer, info_consumer, delete_subject, info_subject.
  split; [|split].
  - intros Hne. destruct (durable_name (config i)) as [d|]; [|reflexivity].
    cbn [truthy_str str_nullish].
    destruct (String.eqb_spec d "") as [E|_]; [subst d; now elim Hne|reflexivity].
  - intros ->. split; reflexivity.
  - eexists. split; reflexivity.
Qed.

(** A server that knows the durable "dur" on the stream "ORDERS", bound
    to the subject "orders.>", and nothing else; ordered options; options
    naming that durable; options naming an unknown one. *)
Definition inbox_of (n : nat) : string := "_INBOX." ++ show (Z.of_nat n).
Definition stream_of (subject : string) : Completion string := Normal "ORDERS".

Definition known_durable : ConsumerInfo :=
  mkConsumerInfo "dur"
    (mkConfig (Some AckExplicit) (Some "dur") None None None None None None None
              None (Some "orders.>") None (Some DeliverAll) None (Some Instant))
    None.

Definition server_info (stream durable : string) : Completion (option ConsumerInfo) :=
  if (durable =? "dur")%string then Normal (Some known_durable)
  else Throw (NatsError "consumer not found" "404").

Definition ordered_options : ConsumerOpts :=
  mkConsumerOpts
    (Some (mkConfig (Some AckNotSet) None None None None None None None None
                    None None None None None None))
    None (Some true) (Some false).

Definition options_for (durable : string) : ConsumerOpts :=
  mkConsumerOpts
    (Some (mkConfig (Some AckExplicit) (Some durable) None None None None None
                    None None None None None None None None))
    (Some "ORDERS") None (Some false).

Definition sample_process (subject : string) (o : ConsumerOpts)
  : Completion SubscriptionInfo :=
  processOptions1 "BAD API" inbox_of "$JS.API" stream_of server_info subject o.

Lemma processOptions_ordered_witness :
  exists cso,
    sample_process "orders.>" ordered_options = Normal cso /\
    ack_policy (config cso) = Some AckNone /\
    deliver cso = "_INBOX.0".
Proof.
  eexists. split; [reflexivity|].
  destruct (processOptions_ordered "BAD API" inbox_of "$JS.API" stream_of
              server_info "orders.>" ordered_options _ eq_refl eq_refl)
    as (c0 & _ & _ & _ & _ & _ & _ & _ & _ & _ & Hack & _ & _ & _ & _ & _ & _ & _
        & Hd & _).
  split; [exact Hack|]. apply Hd. discriminate.
Defined.

Lemma processOptions_attached_witness :
  exists cso ci,
    sample_process "orders.>" (options_for "dur") = Normal cso /\
    last cso = Some ci /\
    config cso = ci_config ci.
Proof.
  eexists.
  destruct (processOptions_attached "BAD API" inbox_of "$JS.API" stream_of
              server_info "orders.>" (options_for "dur") _ eq_refl eq_refl)
    as (c0 & d & ci & _ & _ & _ & _ & _ & Hl & Hc & _).
  exists ci. split; [reflexivity|]. split; [exact Hl|exact Hc].
Defined.

Lemma processOptions_unattached_filter_witness :
  exists cso,
    sample_process "orders.>" (options_for "other") = Normal cso /\
    filter_subject (config cso) = Some "orders.>".
Proof.
  eexists. split; [reflexivity|].
  destruct (processOptions_unattached_filter "BAD API" inbox_of "$JS.API"
              stream_of server_info "orders.>" (options_for "other") _
              eq_refl eq_refl) as (c0 & Hc & _ & Hf & _).
  injection Hc as <-. exact Hf.
Defined.

Lemma durable_lookup_outcomes_witness :
  exists cso,
    sample_process "orders.>" (options_for "other") = Normal cso /\
    attached cso = false.
Proof.
  destruct (durable_lookup_outcomes "BAD API" inbox_of "$JS.API" stream_of
              server_info "orders.>" (options_for "other") _ "other" "ORDERS"
              eq_refl eq_refl eq_refl) as (H & _).
  - discriminate.
  - reflexivity.
  - destruct (H (NatsError "consumer not found" "404") eq_refl) as (H4 & _).
    exact (H4 eq_refl).
Defined.

(** A config object that has [ack_policy] and [ack_wait] with the value
    [undefined]: both are sent as [undefined], the two properties the
    object lacks get their defaults. *)
Definition sample_undefined : SubscriptionInfo :=
  mkInfo "ORDERS"
         (mkConfigObject None None None None None None None None None None
                         (Some "orders.>") None None None None
                         [AckPolicyProp; AckWaitProp])
         "_INBOX.5" false false false None None None (mkFlow 0 0 0) "$JS.API".

Lemma maybeCreateConsumer_outcomes_witness :
  ack_policy (with_defaults (config sample_undefined)) = None /\
  ack_wait (with_defaults (config sample_undefined)) = None /\
  deliver_policy (with_defaults (config sample_undefined)) = Some DeliverAll /\
  replay_policy (with_defaults (config sample_undefined)) = Some Instant /\
  ack_policy (with_defaults empty_config) = Some AckExplicit.
Proof.
  destruct (maybeCreateConsumer_outcomes sample_echo sample_echo sample_undefined)
    as (_ & _ & _ & _ & _ & (H1 & H2 & H3 & H4) & _).
  split; [exact (H1 eq_refl)|]. split; [exact (H2 eq_refl)|].
  split; [exact (H3 eq_refl)|]. split; [exact (H4 eq_refl)|]. reflexivity.
Defined.

End Factories.

(** ** The ordered consumer over several frames; heartbeats; ingestion *)
Module Ingress.
Import Js Types Subscription.

(** What [_checkHbOrderConsumer] reads from a heartbeat: the stalled
    consumer header ([""] when absent) and the parsed last-consumer
    sequence ([None] when it does not parse). *)
Record Heartbeat := mkHeartbeat {
  stalled : string;
  lastConsumerSeq : option Z
}.

Definition set_flow (f : FlowControl) (i : SubscriptionInfo) : SubscriptionInfo :=
  mkInfo (stream i) (config i) (deliver i) (attached i) (isBind i) (ordered i)
         (name i) (last i) (ordered_consumer_sequence i) f (api_prefix i).

Definition bump_heartbeat (i : SubscriptionInfo) : SubscriptionInfo :=
  let f := flow_control i in
  set_flow (mkFlow (heartbeat_count f + 1) (fc_count f) (consumer_restarts f)) i.

Definition bump_fc (i : SubscriptionInfo) : SubscriptionInfo :=
  let f := flow_control i in
  set_flow (mkFlow (heartbeat_count f) (fc_count f + 1) (consumer_restarts f)) i.

(** The counters of a subscription. *)
Definition counters (s : Subscription) : option FlowControl :=
  match info s with
  | Some i => Some (flow_control i)
  | None => None
  end.

(** The pair [_checkOrderedConsumer] records for an accepted message. *)
Definition pair_of (m : JsMsg) : OrderedConsumerSequence :=
  mkSeq (streamSequence m) (deliverySequence m).

(** Messages whose delivery sequences continue [d] without a gap. *)
Fixpoint in_order (d : Z) (ms : list JsMsg) : Prop :=
  match ms with
  | [] => True
  | m :: rest => deliverySequence m = d + 1 /\ in_order (d + 1) rest
  end.

Section Methods.

Variable createInbox : nat -> string.
(** Raw frames and the helpers of jsutil that classify them. *)
Variable Frame : Type.
Variable checkJsError : Frame -> option JsError.
Variable isHeartbeatMsg : Frame -> bool.
Variable isFlowControlMsg : Frame -> bool.
Variable heartbeat_of : Frame -> Heartbeat.
Variable toJsMsg : Frame -> JsMsg.

Definition reset (sseq : Z) (s : Subscription) : Result unit :=
  _resetOrderedConsumer createInbox sseq s.

Definition check (jm : JsMsg) (s : Subscription) : Result bool :=
  _checkOrderedConsumer createInbox jm s.

(** Recreates requested one after the other. *)
Fixpoint reset_all (l : list Z) (s : Subscription) : Result unit :=
  match l with
  | [] => Ok s tt
  | sseq :: rest =>
    match reset sseq s with
    | Ok s' _ => reset_all rest s'
    | Thrown s' e => Thrown s' e
    end
  end.

(** Messages checked one after the other: the ingest decisions. *)
Fixpoint check_all (ms : list JsMsg) (s : Subscription) : Result (list bool) :=
  match ms with
  | [] => Ok s []
  | m :: rest =>
    match check m s with
    | Ok s' b =>
      match check_all rest s' with
      | Ok s'' bs => Ok s'' (b :: bs)
      | Thrown s'' e => Thrown s'' e
      end
    | Thrown s' e => Thrown s' e
    end
  end.

(** [_checkHbOrderConsumer(msg)]: the subjects published to, and the
    ingest decision. *)
Definition _checkHbOrderConsumer (hb : Heartbeat) (s : Subscription)
  : list string * Result bool :=
  (if (stalled hb =? "")%string then [] else [stalled hb],
   match info s with
   | None => Thrown s TypeError
   | Some i =>
     let s1 := set_info (bump_heartbeat i) s in
     match ordered_consumer_sequence i with
     | None => Thrown s1 TypeError
     | Some ord =>
       if match lastConsumerSeq hb with
          | Some n => negb (n =? delivery_seq ord)%Z
          | None => true
          end
       then match reset (stream_seq ord + 1) s1 with
            | Ok s' _ => Ok s' false
            | Thrown s' e => Thrown s' e
            end
       else Ok s1 false
     end
   end).

(** What the ingestion filter reports: whether the monitor was told of
    the frame, the subjects published to, and the pair
    [{ingest, protocol}]. *)
Record Ingested := mkIngested {
  worked : bool;
  published : list string;
  outcome : Result (bool * bool)
}.

(** [JetStreamClientImpl.ingestionFn(ordered)]. *)
Definition ingestionFn (is_ordered : bool) (jm : option Frame) (s : Subscription)
  : Ingested :=
  match jm with
  | None => mkIngested false [] (Ok s (false, false))
  | Some msg =>
    let work := match checkJsError msg with Some _ => false | None => true end in
    if isHeartbeatMsg msg then
      if is_ordered then
        let (pubs, r) := _checkHbOrderConsumer (heartbeat_of msg) s in
        mkIngested work pubs
          match r with
          | Ok s' b => Ok s' (b, true)
          | Thrown s' e => Thrown s' e
          end
      else
        mkIngested work []
          match info s with
          | Some i => Ok (set_info (bump_heartbeat i) s) (true, true)
          | None => Thrown s TypeError
          end
    else if isFlowControlMsg msg then
      mkIngested work []
        match info s with
        | Some i => Ok (set_info (bump_fc i) s) (true, true)
        | None => Thrown s TypeError
        end
    else
      mkIngested work []
        (if is_ordered then
           match check (toJsMsg msg) s with
           | Ok s' b => Ok s' (b, false)
           | Thrown s' e => Thrown s' e
           end
         else Ok s (true, false))
  end.


(** A recreate on a live ordered subscription, field by field. *)
Lemma reset_fields (sseq : Z) (s : Subscription) (i : SubscriptionInfo)
  (ord : OrderedConsumerSequence) :
  info s = Some i ->
  ordered_consumer_sequence i = Some ord ->
  isClosed s = false ->
  exists s' i',
    reset sseq s = Ok s' tt /\
    info s' = Some i' /\
    isClosed s' = false /\
    inboxes s' = S (inboxes s) /\
    subject s' = createInbox (inboxes s) /\
    deliver i' = createInbox (inboxes s) /\
    deliver_subject (config i') = Some (createInbox (inboxes s)) /\
    opt_start_seq (config i') = Some sseq /\
    deliver_policy (config i') = Some StartSequence /\
    ordered_consumer_sequence i' = Some (mkSeq (stream_seq ord) 0) /\
    flow_control i' = mkFlow 0 0 (consumer_restarts (flow_control i) + 1) /\
    effects s' =
      (effects s ++
       [Resub (createInbox (inboxes s));
        Request (create_subject i) (stream i)
                (recreate_config (createInbox (inboxes s)) sseq (config i))])%list.
Proof using Type.
  intros Hi Ho Hc.
  unfold reset, _resetOrderedConsumer. rewrite Hi, Hc, Ho.
  eexists. eexists. split; [reflexivity|].
  cbn. rewrite <- app_assoc. cbn [app].
  repeat split; try reflexivity. exact Hc.
Qed.

Lemma reset_all_app (l1 l2 : list Z) (s : Subscription) :
  reset_all (l1 ++ l2)%list s =
  match reset_all l1 s with
  | Ok s' _ => reset_all l2 s'
  | Thrown s' e => Thrown s' e
  end.
Proof using Type.
  revert s. induction l1 as [|x l1 IH]; intros s; cbn [app reset_all].
  - reflexivity.
  - destruct (reset x s) as [s' []|s' e]; [apply IH|reflexivity].
Qed.


(** X21. Recreates compose ([_resetOrderedConsumer] called again and
    again on a live ordered subscription).  Every call succeeds, takes
    one fresh inbox, adds one to [consumer_restarts], sends one rebind and
    one create request, and leaves the recorded stream sequence alone;
    after the last call the subscription listens on the inbox that call
    took, which is also [info.deliver] and the configured deliver subject,
    the start sequence is the one of that call, and the delivery sequence
    and the heartbeat and flow-control counters are zero. *)
Theorem resets_accumulate :
  forall (l : list Z) (s : Subscription) (i : SubscriptionInfo)
         (ord : OrderedConsumerSequence),
    info s = Some i ->
    ordered_consumer_sequence i = Some ord ->
    isClosed s = false ->
    exists s' i' d,
      reset_all l s = Ok s' tt /\
      info s' = Some i' /\
      isClosed s' = false /\
      inboxes s' = (inboxes s + length l)%nat /\
      consumer_restarts (flow_control i') =
        consumer_restarts (flow_control i) + Z.of_nat (length l) /\
      ordered_consumer_sequence i' = Some (mkSeq (stream_seq ord) d) /\
      length (effects s') = (length (effects s) + 2 * length l)%nat /\
      (forall l0 sseq,
         l = (l0 ++ [sseq])%list ->
         subject s' = createInbox (inboxes s + length l0) /\
         deliver i' = subject s' /\
         deliver_subject (config i') = Some (subject s') /\
         deliver_policy (config i') = Some StartSequence /\
         opt_start_seq (config i') = Some sseq /\
         d = 0 /\
         heartbeat_count (flow_control i') = 0 /\
         fc_count (flow_control i') = 0).
Proof using Type.
  induction l as [|x l IH] using rev_ind; intros s i ord Hi Ho Hc.
  - exists s, i, (delivery_seq ord). cbn [reset_all length].
    split; [reflexivity|]. split; [exact Hi|]. split; [exact Hc|].
    split; [lia|]. split; [cbn; lia|].
    split; [rewrite Ho; now destruct ord|]. split; [lia|].
    intros l0 sseq E. destruct l0; discriminate E.
  - destruct (IH s i ord Hi Ho Hc)
      as (s1 & i1 & d1 & R1 & Hi1 & Hc1 & Hn1 & Hr1 & Ho1 & He1 & _).
    destruct (reset_fields x s1 i1 _ Hi1 Ho1 Hc1)
      as (s2 & i2 & R2 & Hi2 & Hc2 & Hn2 & Hs2 & Hd2 & Hds2 & Hos2 & Hp2 & Ho2
          & Hf2 & He2).
    exists s2, i2, 0.
    rewrite reset_all_app, R1. cbn [reset_all]. rewrite R2.
    rewrite length_app. cbn [length].
    split; [reflexivity|]. split; [exact Hi2|]. split; [exact Hc2|].
    split; [lia|]. split; [rewrite Hf2; cbn; lia|].
    split; [exact Ho2|].
    split; [rewrite He2, length_app; cbn [length]; lia|].
    intros l0 sseq E. apply app_inj_tail in E. destruct E as [<- <-].
    rewrite Hs2, Hd2, Hds2, Hos2, Hp2, Hf2, Hn1. cbn.
    repeat split; reflexivity.
Qed.

(** X22. The first message after a recreate.  Once a live ordered
    subscription has been recreated, the only message it ingests is the
    one with delivery sequence 1, whatever its stream sequence; that
    message sends nothing and becomes the recorded pair.  Any other
    message is dropped and recreates the consumer once more, again from
    the stream sequence recorded before the first recreate plus one. *)
Theorem first_delivery_after_reset :
  forall (sseq : Z) (s s1 : Subscription) (i : SubscriptionInfo)
         (ord : OrderedConsumerSequence) (jm : JsMsg),
    info s = Some i ->
    ordered_consumer_sequence i = Some ord ->
    isClosed s = false ->
    reset sseq s = Ok s1 tt ->
    (deliverySequence jm = 1 ->
     exists s2,
       check jm s1 = Ok s2 true /\
       recorded s2 = Some (mkSeq (streamSequence jm) 1) /\
       effects s2 = effects s1) /\
    (deliverySequence jm <> 1 ->
     exists s2 i2 cfg,
       check jm s1 = Ok s2 false /\
       info s2 = Some i2 /\
       recorded s2 = Some (mkSeq (stream_seq ord) 0) /\
       consumer_restarts (flow_control i2) =
         consumer_restarts (flow_control i) + 2 /\
       config i2 = cfg /\
       opt_start_seq cfg = Some (stream_seq ord + 1) /\
       effects s2 =
         (effects s1 ++
          [Resub (createInbox (S (inboxes s)));
           Request (create_subject i) (stream i) cfg])%list).
Proof using Type.
  intros sseq s s1 i ord jm Hi Ho Hc R.
  assert (R' := R). unfold reset, _resetOrderedConsumer in R'.
  rewrite Hi, Hc, Ho in R'. injection R' as R'.
  split.
  - intros E. unfold check, _checkOrderedConsumer. rewrite <- R'. cbn.
    rewrite E. cbn. eexists. split; [reflexivity|]. split; reflexivity.
  - intros NE. unfold check, _checkOrderedConsumer. rewrite <- R'. cbn.
    apply Z.eqb_neq in NE. rewrite NE. cbn [negb].
    unfold _resetOrderedConsumer. cbn. rewrite Hc. cbn.
    eexists. eexists. eexists. split; [reflexivity|]. cbn.
    rewrite <- !app_assoc. cbn [app].
    repeat split; try reflexivity.
    cbn. lia.
Qed.


Lemma last_cons {A : Type} (l : list A) (a d : A) :
  List.last (a :: l) d = List.last l a.
Proof.
  revert a d. induction l as [|b l IH]; intros a d; [reflexivity|].
  change (List.last (a :: b :: l) d) with (List.last (b :: l) d).
  now rewrite !IH.
Qed.

Lemma check_all_app (l1 l2 : list JsMsg) (s : Subscription) :
  check_all (l1 ++ l2)%list s =
  match check_all l1 s with
  | Ok s' bs =>
    match check_all l2 s' with
    | Ok s'' bs' => Ok s'' (bs ++ bs')%list
    | Thrown s'' e => Thrown s'' e
    end
  | Thrown s' e => Thrown s' e
  end.
Proof using Type.
  revert s. induction l1 as [|x l1 IH]; intros s; cbn [app check_all].
  - now destruct (check_all l2 s).
  - destruct (check x s) as [s' b|s' e]; [|reflexivity].
    rewrite IH. destruct (check_all l1 s') as [s'' bs|s'' e]; [|reflexivity].
    now destruct (check_all l2 s'').
Qed.

(** A run without a gap: everything is accepted and only the recorded
    pair moves. *)
Lemma in_order_run (ms : list JsMsg) :
  forall (s : Subscription) (i : SubscriptionInfo) (ord : OrderedConsumerSequence),
    info s = Some i ->
    ordered_consumer_sequence i = Some ord ->
    in_order (delivery_seq ord) ms ->
    exists s' i',
      check_all ms s = Ok s' (repeat true (length ms)) /\
      info s' = Some i' /\
      ordered_consumer_sequence i' = Some (List.last (map pair_of ms) ord) /\
      delivery_seq (List.last (map pair_of ms) ord) =
        delivery_seq ord + Z.of_nat (length ms) /\
      effects s' = effects s /\
      inboxes s' = inboxes s /\
      isClosed s' = isClosed s /\
      stream i' = stream i /\
      config i' = config i /\
      api_prefix i' = api_prefix i /\
      flow_control i' = flow_control i.
Proof using Type.
  induction ms as [|m ms IH]; intros s i ord Hi Ho Hin.
  - exists s, i. cbn. rewrite Z.add_0_r. repeat split; auto.
  - destruct Hin as [E Hin].
    pose (i1 := set_sequence (pair_of m) i).
    pose (s1 := set_info i1 s).
    assert (R : check m s = Ok s1 true).
    { unfold check, _checkOrderedConsumer. rewrite Hi, Ho. cbv zeta.
      rewrite E, Z.eqb_refl. cbn [negb]. rewrite <- E. reflexivity. }
    destruct (IH s1 i1 (pair_of m) eq_refl eq_refl) as
      (s' & i' & R' & Hi' & Ho' & Hd' & He' & Hn' & Hc' & Hs' & Hcf' & Ha' & Hf').
    { cbn. rewrite E. exact Hin. }
    exists s', i'. cbn [check_all]. rewrite R, R'.
    cbn [map]. rewrite last_cons. cbn [length repeat].
    split; [reflexivity|]. split; [exact Hi'|]. split; [exact Ho'|].
    split; [rewrite Hd'; cbn [pair_of delivery_seq]; rewrite E; lia|].
    repeat split; assumption.
Qed.

(** X23. A run of messages on an ordered subscription
    ([_checkOrderedConsumer], message after message).  While the delivery
    sequences continue the recorded one without a gap, every message is
    ingested, nothing is sent, and the recorded pair is the one of the last
    message.  The first message that breaks the run is dropped and, on a
    live subscription, the consumer is recreated starting one past the
    stream sequence of the last message ingested. *)
Theorem in_order_run_then_gap :
  forall (ms : list JsMsg) (m : JsMsg) (s : Subscription)
         (i : SubscriptionInfo) (ord : OrderedConsumerSequence),
    info s = Some i ->
    ordered_consumer_sequence i = Some ord ->
    in_order (delivery_seq ord) ms ->
    (exists s',
       check_all ms s = Ok s' (repeat true (length ms)) /\
       effects s' = effects s /\
       recorded s' = Some (List.last (map pair_of ms) ord)) /\
    (deliverySequence m <> delivery_seq ord + Z.of_nat (length ms) + 1 ->
     isClosed s = false ->
     exists s' cfg,
       check_all (ms ++ [m])%list s =
         Ok s' (repeat true (length ms) ++ [false])%list /\
       effects s' =
         (effects s ++
          [Resub (createInbox (inboxes s));
           Request (create_subject i) (stream i) cfg])%list /\
       deliver_policy cfg = Some StartSequence /\
       opt_start_seq cfg =
         Some (stream_seq (List.last (map pair_of ms) ord) + 1) /\
       recorded s' =
         Some (mkSeq (stream_seq (List.last (map pair_of ms) ord)) 0)).
Proof using Type.
  intros ms m s i ord Hi Ho Hin.
  destruct (in_order_run ms s i ord Hi Ho Hin) as
    (s1 & i1 & R1 & Hi1 & Ho1 & Hd1 & He1 & Hn1 & Hc1 & Hs1 & Hcf1 & Ha1 & Hf1).
  split.
  - exists s1. split; [exact R1|]. split; [exact He1|].
    unfold recorded. rewrite Hi1. exact Ho1.
  - intros NE Hc. rewrite check_all_app, R1. cbn [check_all].
    unfold check at 1. unfold _checkOrderedConsumer. rewrite Hi1, Ho1. cbv zeta.
    rewrite Hd1. apply Z.eqb_neq in NE. rewrite NE. cbn [negb].
    rewrite Hc in Hc1.
    destruct (reset_fields (stream_seq (List.last (map pair_of ms) ord) + 1)
                s1 i1 _ Hi1 Ho1 Hc1)
      as (s2 & i2 & R2 & Hi2 & _ & _ & _ & _ & _ & _ & _ & Ho2 & _ & He2).
    unfold reset in R2. rewrite R2.
    exists s2. eexists. split; [reflexivity|].
    split; [rewrite He2, He1, Hn1; unfold create_subject; rewrite Ha1, Hs1;
            reflexivity|].
    split; [reflexivity|]. split; [reflexivity|].
    unfold recorded. rewrite Hi2. exact Ho2.
Qed.


Lemma heartbeat_check_facts (hb : Heartbeat) (s : Subscription)
  (i : SubscriptionInfo) (ord : OrderedConsumerSequence) :
  info s = Some i ->
  ordered_consumer_sequence i = Some ord ->
  (lastConsumerSeq hb = Some (delivery_seq ord) ->
   exists s',
     snd (_checkHbOrderConsumer hb s) = Ok s' false /\
     counters s' =
       Some (mkFlow (heartbeat_count (flow_control i) + 1)
                    (fc_count (flow_control i))
                    (consumer_restarts (flow_control i))) /\
     recorded s' = Some ord /\
     effects s' = effects s) /\
  (lastConsumerSeq hb <> Some (delivery_seq ord) ->
   isClosed s = false ->
   exists s' cfg,
     snd (_checkHbOrderConsumer hb s) = Ok s' false /\
     counters s' =
       Some (mkFlow 0 0 (consumer_restarts (flow_control i) + 1)) /\
     recorded s' = Some (mkSeq (stream_seq ord) 0) /\
     opt_start_seq cfg = Some (stream_seq ord + 1) /\
     deliver_subject cfg = Some (createInbox (inboxes s)) /\
     effects s' =
       (effects s ++
        [Resub (createInbox (inboxes s));
         Request (create_subject i) (stream i) cfg])%list) /\
  (lastConsumerSeq hb <> Some (delivery_seq ord) ->
   isClosed s = true ->
   exists s',
     snd (_checkHbOrderConsumer hb s) = Ok s' false /\
     recorded s' = Some ord /\
     effects s' = effects s).
Proof using Type.
  intros Hi Ho. unfold _checkHbOrderConsumer. cbn [snd]. rewrite Hi. cbv zeta.
  rewrite Ho.
  split; [|split].
  - intros ->. rewrite Z.eqb_refl. cbn [negb].
    eexists. split; [reflexivity|]. cbn. rewrite Ho. repeat split; reflexivity.
  - intros NE Hc.
    assert (T : match lastConsumerSeq hb with
                | Some n => negb (n =? delivery_seq ord)%Z
                | None => true
                end = true).
    { destruct (lastConsumerSeq hb) as [n|]; [|reflexivity].
      destruct (Z.eqb_spec n (delivery_seq ord)) as [->|]; [now elim NE|reflexivity]. }
    rewrite T. unfold reset, _resetOrderedConsumer. cbn. rewrite Hc, Ho.
    eexists. eexists. split; [reflexivity|]. cbn.
    rewrite <- app_assoc. cbn [app]. repeat split; reflexivity.
  - intros NE Hc.
    assert (T : match lastConsumerSeq hb with
                | Some n => negb (n =? delivery_seq ord)%Z
                | None => true
                end = true).
    { destruct (lastConsumerSeq hb) as [n|]; [|reflexivity].
      destruct (Z.eqb_spec n (delivery_seq ord)) as [->|]; [now elim NE|reflexivity]. }
    rewrite T. unfold reset, _resetOrderedConsumer. cbn. rewrite Hc.
    eexists. split; [reflexivity|]. cbn. rewrite Ho. split; reflexivity.
Qed.

(** X24. Heartbeats of an ordered consumer ([_checkHbOrderConsumer]).
    A heartbeat is never ingested.  When the last consumer sequence it
    reports is the recorded delivery sequence, the heartbeat counter grows
    by one and nothing else happens.  When it differs, or does not parse,
    a live subscription recreates its consumer one past the recorded
    stream sequence, on a fresh inbox, and the heartbeat counter ends at
    zero; a closed subscription is not recreated.  The only subject
    published to is the one of a non-empty stalled-consumer header. *)
Theorem heartbeat_check :
  forall (hb : Heartbeat) (s : Subscription) (i : SubscriptionInfo)
         (ord : OrderedConsumerSequence),
    info s = Some i ->
    ordered_consumer_sequence i = Some ord ->
    (forall s' b, snd (_checkHbOrderConsumer hb s) = Ok s' b -> b = false) /\
    (forall subj, In subj (fst (_checkHbOrderConsumer hb s)) <->
                  subj = stalled hb /\ stalled hb <> ""%string) /\
    (lastConsumerSeq hb = Some (delivery_seq ord) ->
     exists s',
       snd (_checkHbOrderConsumer hb s) = Ok s' false /\
       counters s' =
         Some (mkFlow (heartbeat_count (flow_control i) + 1)
                      (fc_count (flow_control i))
                      (consumer_restarts (flow_control i))) /\
       recorded s' = Some ord /\
       effects s' = effects s) /\
    (lastConsumerSeq hb <> Some (delivery_seq ord) ->
     isClosed s = false ->
     exists s' cfg,
       snd (_checkHbOrderConsumer hb s) = Ok s' false /\
       counters s' =
         Some (mkFlow 0 0 (consumer_restarts (flow_control i) + 1)) /\
       recorded s' = Some (mkSeq (stream_seq ord) 0) /\
       opt_start_seq cfg = Some (stream_seq ord + 1) /\
       deliver_subject cfg = Some (createInbox (inboxes s)) /\
       effects s' =
         (effects s ++
          [Resub (createInbox (inboxes s));
           Request (create_subject i) (stream i) cfg])%list) /\
    (lastConsumerSeq hb <> Some (delivery_seq ord) ->
     isClosed s = true ->
     exists s',
       snd (_checkHbOrderConsumer hb s) = Ok s' false /\
       recorded s' = Some ord /\
       effects s' = effects s).
Proof using Type.
  intros hb s i ord Hi Ho.
  split; [|split; [|exact (heartbeat_check_facts hb s i ord Hi Ho)]].
  - intros s' b. unfold _checkHbOrderConsumer. cbn [snd]. rewrite Hi. cbv zeta.
    rewrite Ho.
    destruct (match lastConsumerSeq hb with
              | Some n => negb (n =? delivery_seq ord)%Z
              | None => true
              end).
    + destruct (reset _ _); intros H; [now injection H|discriminate H].
    + intros H. now injection H.
  - intros subj. unfold _checkHbOrderConsumer. cbn [fst].
    destruct (String.eqb_spec (stalled hb) "") as [E|NE].
    + cbn. split; [tauto|]. intros [_ H]. now apply H.
    + cbn. split.
      * intros [<-|[]]. split; [reflexivity|exact NE].
      * intros [-> _]. now left.
Qed.


(** X25. Ingestion on a subscription that is not ordered
    ([ingestionFn(false)]).  Every frame is ingested; it is reported as
    protocol exactly when it is a heartbeat or a flow-control frame; a
    heartbeat adds one to the heartbeat counter, a flow-control frame that
    is not a heartbeat adds one to the flow-control counter, any other
    frame leaves the counters alone; the monitor is told of the frame
    exactly when the frame carries no JetStream error; nothing is
    published or requested. *)
Theorem ingestion_unordered :
  forall (msg : Frame) (s : Subscription) (i : SubscriptionInfo),
    info s = Some i ->
    exists s',
      outcome (ingestionFn false (Some msg) s) =
        Ok s' (true, isHeartbeatMsg msg || isFlowControlMsg msg) /\
      counters s' =
        Some (mkFlow
                (heartbeat_count (flow_control i) +
                 (if isHeartbeatMsg msg then 1 else 0))
                (fc_count (flow_control i) +
                 (if isHeartbeatMsg msg then 0
                  else if isFlowControlMsg msg then 1 else 0))
                (consumer_restarts (flow_control i))) /\
      recorded s' = recorded s /\
      effects s' = effects s /\
      published (ingestionFn false (Some msg) s) = [] /\
      (worked (ingestionFn false (Some msg) s) = true <->
       checkJsError msg = None).
Proof using Type.
  intros msg s i Hi. unfold ingestionFn.
  assert (W : (match checkJsError msg with Some _ => false | None => true end
               = true) <-> checkJsError msg = None).
  { destruct (checkJsError msg); split; intros H; try reflexivity;
      discriminate H. }
  destruct (isHeartbeatMsg msg); [|destruct (isFlowControlMsg msg)];
    cbn [outcome published worked orb]; rewrite ?Hi.
  - eexists. split; [reflexivity|]. unfold counters, recorded. cbn.
    rewrite Hi, Z.add_0_r. repeat split; try reflexivity; apply W.
  - eexists. split; [reflexivity|]. unfold counters, recorded. cbn.
    rewrite Hi, Z.add_0_r. repeat split; try reflexivity; apply W.
  - exists s. split; [reflexivity|]. unfold counters. rewrite Hi.
    rewrite !Z.add_0_r. destruct (flow_control i).
    repeat split; try reflexivity; apply W.
Qed.

(** X26. Ingestion on an ordered subscription ([ingestionFn(true)]).
    A heartbeat is never ingested; a flow-control frame that is not a
    heartbeat is ingested without any sequence check and only counted; any
    other frame is ingested exactly when its delivery sequence continues
    the recorded one.  The frame is reported as protocol exactly when it
    is a heartbeat or a flow-control frame. *)
Theorem ingestion_ordered :
  forall (msg : Frame) (s : Subscription) (i : SubscriptionInfo)
         (ord : OrderedConsumerSequence),
    info s = Some i ->
    ordered_consumer_sequence i = Some ord ->
    exists s',
      outcome (ingestionFn true (Some msg) s) =
        Ok s'
           (if isHeartbeatMsg msg then false
            else if isFlowControlMsg msg then true
            else (deliverySequence (toJsMsg msg) =? delivery_seq ord + 1)%Z,
            isHeartbeatMsg msg || isFlowControlMsg msg) /\
      (isHeartbeatMsg msg = false ->
       isFlowControlMsg msg = true ->
       recorded s' = Some ord /\
       effects s' = effects s /\
       counters s' =
         Some (mkFlow (heartbeat_count (flow_control i))
                      (fc_count (flow_control i) + 1)
                      (consumer_restarts (flow_control i)))) /\
      (isHeartbeatMsg msg = false ->
       isFlowControlMsg msg = false ->
       counters s' = Some (flow_control i) \/
       counters s' =
         Some (mkFlow 0 0 (consumer_restarts (flow_control i) + 1))).
Proof using Type.
  intros msg s i ord Hi Ho. unfold ingestionFn.
  destruct (isHeartbeatMsg msg); [|destruct (isFlowControlMsg msg)];
    cbn [orb].
  - destruct (_checkHbOrderConsumer (heartbeat_of msg) s) as [pubs r] eqn:E.
    cbn [outcome].
    assert (Hr : r = snd (_checkHbOrderConsumer (heartbeat_of msg) s))
      by now rewrite E.
    destruct (heartbeat_check_facts (heartbeat_of msg) s i ord Hi Ho)
      as (Heq & Hlive & Hclosed).
    assert (D : {lastConsumerSeq (heartbeat_of msg) = Some (delivery_seq ord)}
                + {lastConsumerSeq (heartbeat_of msg) <> Some (delivery_seq ord)})
      by (decide equality; apply Z.eq_dec).
    destruct D as [Y|N].
    + destruct (Heq Y) as (s' & R & _). rewrite <- Hr in R. rewrite R.
      exists s'. split; [reflexivity|]. split; intros; discriminate.
    + destruct (isClosed s) eqn:Hc.
      * destruct (Hclosed N eq_refl) as (s' & R & _). rewrite <- Hr in R.
        rewrite R. exists s'. split; [reflexivity|]. split; intros; discriminate.
      * destruct (Hlive N eq_refl) as (s' & cfg & R & _). rewrite <- Hr in R.
        rewrite R. exists s'. split; [reflexivity|]. split; intros; discriminate.
  - cbn [outcome]. rewrite Hi. eexists. split; [reflexivity|].
    split; [|intros _ H; discriminate H].
    intros _ _. unfold recorded, counters. cbn. rewrite Ho.
    repeat split; reflexivity.
  - cbn [outcome]. unfold check, _checkOrderedConsumer. rewrite Hi, Ho. cbv zeta.
    destruct (deliverySequence (toJsMsg msg) =? delivery_seq ord + 1)%Z;
      cbn [negb].
    + eexists. split; [reflexivity|]. split; [intros _ H; discriminate H|].
      intros _ _. left. reflexivity.
    + unfold _resetOrderedConsumer. rewrite Hi, Ho.
      destruct (isClosed s); cbn.
      * eexists. split; [reflexivity|]. split; [intros _ H; discriminate H|].
        intros _ _. left. unfold counters. now rewrite Hi.
      * eexists. split; [reflexivity|]. split; [intros _ H; discriminate H|].
        intros _ _. right. reflexivity.
Qed.

End Methods.

(** Frames as the samples need them, with the classifiers of jsutil. *)
Inductive Wire :=
| WireHeartbeat (hb : Heartbeat)
| WireFlowControl
| WireData (jm : JsMsg)
| WireStatus (e : JsError).

Definition wire_error (w : Wire) : option JsError :=
  match w with WireStatus e => Some e | _ => None end.

Definition wire_is_heartbeat (w : Wire) : bool :=
  match w with WireHeartbeat _ => true | _ => false end.

Definition wire_is_flow_control (w : Wire) : bool :=
  match w with WireFlowControl => true | _ => false end.

Definition wire_heartbeat (w : Wire) : Heartbeat :=
  match w with WireHeartbeat hb => hb | _ => mkHeartbeat "" None end.

Definition wire_msg (w : Wire) : JsMsg :=
  match w with WireData jm => jm | _ => mkJsMsg 0 0 0 0 end.

Definition sample_ingest (is_ordered : bool) (w : Wire) (s : Subscription)
  : Ingested :=
  ingestionFn sample_inbox Wire wire_error wire_is_heartbeat
              wire_is_flow_control wire_heartbeat wire_msg is_ordered (Some w) s.

Lemma resets_accumulate_witness :
  exists s',
    reset_all sample_inbox [18; 18; 30] sample_sub = Ok s' tt /\
    inboxes s' = 4%nat /\
    subject s' = "_INBOX.3"%string.
Proof.
  destruct (resets_accumulate sample_inbox [18; 18; 30] sample_sub sample_info
              (mkSeq 17 4) eq_refl eq_refl eq_refl)
    as (s' & i' & d & R & _ & _ & Hn & _ & _ & _ & Hl).
  destruct (Hl [18; 18] 30 eq_refl) as (Hs & _).
  exists s'. split; [exact R|]. split; [exact Hn|exact Hs].
Defined.

Lemma first_delivery_after_reset_witness :
  exists s1 s2,
    reset sample_inbox 18 sample_sub = Ok s1 tt /\
    check sample_inbox (mkJsMsg 18 1 0 5) s1 = Ok s2 true /\
    recorded s2 = Some (mkSeq 18 1).
Proof.
  eexists.
  destruct (first_delivery_after_reset sample_inbox 18 sample_sub _ sample_info
              (mkSeq 17 4) (mkJsMsg 18 1 0 5) eq_refl eq_refl eq_refl eq_refl)
    as (H & _).
  destruct (H eq_refl) as (s2 & R & Hr & _).
  exists s2. split; [reflexivity|]. split; [exact R|exact Hr].
Defined.

Lemma in_order_run_then_gap_witness :
  exists s' cfg,
    check_all sample_inbox
      [mkJsMsg 18 5 0 5; mkJsMsg 21 6 0 5; mkJsMsg 30 9 0 5] sample_sub
    = Ok s' [true; true; false] /\
    opt_start_seq cfg = Some 22 /\
    effects s' =
      [Resub "_INBOX.1"; Request "$JS.API.CONSUMER.CREATE.ORDERS" "ORDERS" cfg].
Proof.
  destruct (in_order_run_then_gap sample_inbox
              [mkJsMsg 18 5 0 5; mkJsMsg 21 6 0 5] (mkJsMsg 30 9 0 5)
              sample_sub sample_info (mkSeq 17 4) eq_refl eq_refl)
    as (_ & H).
  { cbn. repeat split; reflexivity. }
  destruct H as (s' & cfg & R & He & _ & Ho & _).
  { cbn. lia. }
  { reflexivity. }
  exists s', cfg. split; [exact R|]. split; [exact Ho|exact He].
Defined.

Lemma heartbeat_check_witness :
  exists s' cfg,
    snd (_checkHbOrderConsumer sample_inbox (mkHeartbeat "" (Some 3)) sample_sub)
    = Ok s' false /\
    opt_start_seq cfg = Some 18 /\
    effects s' =
      [Resub "_INBOX.1"; Request "$JS.API.CONSUMER.CREATE.ORDERS" "ORDERS" cfg].
Proof.
  destruct (heartbeat_check sample_inbox (mkHeartbeat "" (Some 3)) sample_sub
              sample_info (mkSeq 17 4) eq_refl eq_refl)
    as (_ & _ & _ & H & _).
  destruct H as (s' & cfg & R & _ & _ & Ho & _ & He).
  { cbn. discriminate. }
  { reflexivity. }
  exists s', cfg. split; [exact R|]. split; [exact Ho|exact He].
Defined.

Lemma ingestion_unordered_witness :
  exists s',
    outcome (sample_ingest false WireFlowControl sample_sub) = Ok s' (true, true) /\
    counters s' = Some (mkFlow 0 1 0).
Proof.
  destruct (ingestion_unordered sample_inbox Wire wire_error wire_is_heartbeat
              wire_is_flow_control wire_heartbeat wire_msg WireFlowControl
              sample_sub sample_info eq_refl)
    as (s' & R & Hc & _).
  exists s'. split; [exact R|exact Hc].
Defined.

Lemma ingestion_ordered_witness :
  exists s',
    outcome (sample_ingest true (WireData (mkJsMsg 18 5 0 5)) sample_sub)
    = Ok s' (true, false).
Proof.
  destruct (ingestion_ordered sample_inbox Wire wire_error wire_is_heartbeat
              wire_is_flow_control wire_heartbeat wire_msg
              (WireData (mkJsMsg 18 5 0 5)) sample_sub sample_info (mkSeq 17 4)
              eq_refl eq_refl)
    as (s' & R & _).
  exists s'. exact R.
Defined.

End Ingress.

(** ** Publish: how many requests go out, and what the headers carry *)
Module Publishing.
Import Js Publish.

(** The five header names [publish] may set. *)
Definition publish_header_names : list string :=
  ["Nats-Msg-Id"; "Nats-Expected-Last-Msg-Id"; "Nats-Expected-Stream";
   "Nats-Expected-Last-Sequence"; "Nats-Expected-Last-Subject-Sequence"].

(** [opts.headers || headers()]. *)
Definition user_headers (o : PublishOptions) : Headers :=
  match headers o with
  | Some h => h
  | None => []
  end.

(** [opts.expect || {}]. *)
Definition expect_of (o : PublishOptions) : Expect :=
  match expect o with
  | Some e => e
  | None => mkExpect None None None None
  end.

(** One conditional [mh.set]: whether it runs, the key and the value. *)
Definition Setting : Type := bool * (string * string).

Definition key_of (x : Setting) : string := fst (snd x).

Definition number_setting (k : string) (n : option Z) : Setting :=
  match n with
  | Some v => (true, (k, show v))
  | None => (false, (k, ""))
  end.

(** The five conditional sets of [publish], in program order. *)
Definition settings (o : PublishOptions) : list Setting :=
  let e := expect_of o in
  [(truthy_str (msgID o), ("Nats-Msg-Id", str_nullish (msgID o) ""));
   (truthy_str (lastMsgID e),
    ("Nats-Expected-Last-Msg-Id", str_nullish (lastMsgID e) ""));
   (truthy_str (streamName e),
    ("Nats-Expected-Stream", str_nullish (streamName e) ""));
   number_setting "Nats-Expected-Last-Sequence" (lastSequence e);
   number_setting "Nats-Expected-Last-Subject-Sequence" (lastSubjectSequence e)].

(** The values [publish] hands to [mh.set]. *)
Definition values_set (o : PublishOptions) : list string :=
  map (fun x => snd (snd x)) (filter fst (settings o)).

Section Client.

Variable validHeaderValue : string -> Completion string.
Variable Msg : Type.
Variable request : Z -> Msg + JsError.
Variable parseJsResponse : option Msg -> Completion PubAck.
Variable InvalidAck : JsError.
Variable default_timeout : Z.

Definition header_block (o : PublishOptions) : Completion Headers :=
  build_headers validHeaderValue o.

Definition apply_sets (l : list Setting) (mh : Completion Headers)
  : Completion Headers :=
  fold_left (fun mh x => set_if validHeaderValue (fst x) (fst (snd x))
                                (snd (snd x)) mh) l mh.

Definition publish1 (subj data : string) (opts : option PublishOptions)
  : list Event * option (Completion PubAck) :=
  publish validHeaderValue Msg request parseJsResponse InvalidAck
          default_timeout subj data opts.

(** The request of a call whose header block has left the headers [mh]. *)
Definition wire_with (subj data : string) (o : PublishOptions) (mh : Headers)
  : Event :=
  let to := num_or (timeout o) default_timeout in
  Wire subj data
       (mkRequestOptions (if (to =? 0)%Z then None else Some to) (Some mh)).

(** A call whose header block throws sends nothing and throws the same. *)
Lemma publish_bad_header (subj data : string) (opts : option PublishOptions)
  (e : JsError) :
  header_block (options_of opts) = Throw e ->
  publish1 subj data opts = ([], Some (Throw e)).
Proof using Type.
  unfold header_block, publish1, publish. intros ->. reflexivity.
Qed.

(** The loop of one call whose header block has completed, with the fuel
    [publish] gives it. *)
Lemma publish_loop (subj data : string) (opts : option PublishOptions)
  (mh : Headers) :
  header_block (options_of opts) = Normal mh ->
  let r := effective_retries (options_of opts) in
  exists (n : nat) (e : LoopEnd Msg),
    publish1 subj data opts =
      (schedule (wire_with subj data (options_of opts) mh)
                (effective_delay (options_of opts)) n,
       match e with
       | Replied m => Some (ack_of InvalidAck (parseJsResponse (Some m)))
       | Raised err => Some (Throw err)
       | NoReply => Some (ack_of InvalidAck (parseJsResponse None))
       | OutOfFuel => None
       end) /\
    Z.of_nat n <= Z.max 0 r /\
    (0 < r -> (0 < n)%nat) /\
    (forall k, (S k < n)%nat ->
       exists err, request (Z.of_nat k) = inr err /\
                   is_503 err = true /\ Z.of_nat k + 1 < r) /\
    match n with
    | O => e = NoReply
    | S m =>
      match request (Z.of_nat m) with
      | inl rep => e = Replied rep
      | inr err => e = Raised err /\ (is_503 err = false \/ r <= Z.of_nat m + 1)
      end
    end.
Proof using Type.
  intros Hb r. unfold header_block in Hb.
  unfold publish1, publish, wire_with, request_options, headers_of.
  rewrite Hb. cbv zeta. fold r.
  match goal with
  | |- context [attempts _ _ _ ?w _ _ _] =>
    destruct (attempts_spec Msg request w r
                (effective_delay (options_of opts)) (S (Z.to_nat r)) 0)
      as (n & e & Ha & Hn & Hpos & Hmid & Hend); [rewrite Z.sub_0_r; lia|]
  end.
  rewrite Ha. rewrite Z.sub_0_r in Hn. exists n, e.
  split; [reflexivity|]. split; [exact Hn|]. split; [exact Hpos|].
  split; [exact Hmid|exact Hend].
Qed.

(** X27. Publish when every attempt is turned away ([publish], the
    header block and the retry loop).  A header value that the header
    object refuses ends the call with that error before anything is
    sent.  Once the header block has completed, with [r] the effective
    retry count: when [r] is not positive nothing is sent and the missing
    reply goes to the parser; when every one of the [r] attempts is
    rejected with code 503, exactly [r] requests go out, each with the
    headers the block left, with the retry delay between consecutive
    ones, and the rejection of the last attempt is what the caller
    gets. *)
Theorem publish_exhausts_retries :
  forall (subj data : string) (opts : option PublishOptions),
    let o := options_of opts in
    let r := effective_retries o in
    (forall e, header_block o = Throw e ->
       publish1 subj data opts = ([], Some (Throw e))) /\
    (forall mh, header_block o = Normal mh ->
       (r <= 0 ->
        publish1 subj data opts =
          ([], Some (ack_of InvalidAck (parseJsResponse None)))) /\
       (0 < r ->
        (forall k, 0 <= k < r ->
           exists err, request k = inr err /\ code_of err = Some "503") ->
        exists err,
          request (r - 1) = inr err /\
          publish1 subj data opts =
            (schedule (wire_with subj data o mh) (effective_delay o)
                      (Z.to_nat r),
             Some (Throw err)) /\
          wire_requests (fst (publish1 subj data opts)) = Z.to_nat r)).
Proof using Type.
  intros subj data opts o r. subst o r.
  split; [intros e; apply publish_bad_header|].
  intros mh Hb.
  destruct (publish_loop subj data opts mh Hb)
    as (n & e & Hp & Hn & Hpos & Hmid & Hend).
  cbv zeta in Hn, Hpos, Hmid, Hend.
  split.
  - intros Hr. assert (n = 0%nat) as -> by lia. subst e. exact Hp.
  - intros Hr Hall. specialize (Hpos Hr).
    destruct n as [|m]; [lia|].
    destruct (Hall (Z.of_nat m)) as (err & Hreq & Hcode); [lia|].
    rewrite Hreq in Hend. destruct Hend as [-> Hlast].
    apply is_503_code in Hcode.
    assert (Hm : Z.of_nat m = effective_retries (options_of opts) - 1).
    { destruct Hlast as [Hno|Hle]; [congruence|lia]. }
    exists err. rewrite <- Hm. split; [exact Hreq|].
    assert (Hto : Z.to_nat (effective_retries (options_of opts)) = S m) by lia.
    rewrite Hp, Hto. split; [reflexivity|].
    cbn [fst]. unfold wire_with. apply wire_requests_schedule.
Qed.

(** X28. The first answer that is not a 503 decides a publish.  When the
    header block has completed, the attempts before attempt [k] are all
    rejected with code 503, [k] is within the retry count, and attempt
    [k] is answered, exactly [k + 1] requests go out and the call
    completes with the ack computed from that reply; when attempt [k] is
    rejected with another error, exactly [k + 1] requests go out and that
    error is thrown. *)
Theorem publish_first_answer :
  forall (subj data : string) (opts : option PublishOptions) (k : nat)
         (mh : Headers),
    let o := options_of opts in
    let w := wire_with subj data o mh in
    header_block o = Normal mh ->
    Z.of_nat k < effective_retries o ->
    (forall j, (j < k)%nat ->
       exists err, request (Z.of_nat j) = inr err /\ code_of err = Some "503") ->
    (forall rep, request (Z.of_nat k) = inl rep ->
       publish1 subj data opts =
         (schedule w (effective_delay o) (S k),
          Some (ack_of InvalidAck (parseJsResponse (Some rep))))) /\
    (forall err, request (Z.of_nat k) = inr err ->
       code_of err <> Some "503" ->
       publish1 subj data opts =
         (schedule w (effective_delay o) (S k), Some (Throw err))).
Proof using Type.
  intros subj data opts k mh o w Hb Hk Hbefore. subst o w.
  destruct (publish_loop subj data opts mh Hb)
    as (n & e & Hp & Hn & Hpos & Hmid & Hend).
  cbv zeta in Hn, Hpos, Hmid, Hend.
  assert (Hn0 : (0 < n)%nat) by (apply Hpos; lia).
  destruct n as [|m]; [lia|].
  assert (Hge : (k <= m)%nat).
  { destruct (Nat.le_gt_cases k m) as [H|H]; [exact H|exfalso].
    destruct (Hbefore m H) as (err & Hreq & Hcode).
    rewrite Hreq in Hend. destruct Hend as [_ [Hno|Hle]].
    - apply is_503_code in Hcode. congruence.
    - lia. }
  split.
  - intros rep Hrep.
    assert (m = k) as ->.
    { destruct (Nat.eq_dec m k) as [E|NE]; [exact E|exfalso].
      destruct (Hmid k) as (err & Hreq & _); [lia|]. congruence. }
    rewrite Hrep in Hend. subst e. exact Hp.
  - intros err Herr Hcode.
    assert (m = k) as ->.
    { destruct (Nat.eq_dec m k) as [E|NE]; [exact E|exfalso].
      destruct (Hmid k) as (err' & Hreq & H5 & _); [lia|].
      rewrite Herr in Hreq. injection Hreq as <-.
      apply is_503_code in H5. congruence. }
    rewrite Herr in Hend. destruct Hend as [-> _]. exact Hp.
Qed.

Lemma hdr_set_in (k v : string) (h : Headers) (k' v' : string) :
  In (k', v') (hdr_set k v h) <->
  (k' = k /\ v' = v) \/ (k' <> k /\ In (k', v') h).
Proof using Type.
  unfold hdr_set. rewrite in_app_iff, filter_In. cbn [In fst].
  destruct (String.eqb_spec k' k) as [E|NE]; cbn [negb].
  - split.
    + intros [[_ H]|[H|[]]]; [discriminate H|injection H as <- <-; auto].
    + intros [[_ ->]|[H _]]; [subst; auto|contradiction].
  - split.
    + intros [[H _]|[H|[]]]; [auto|injection H as <- <-; now elim NE].
    + intros [[H _]|[_ H]]; [contradiction|auto].
Qed.

Lemma set_if_false (k v : string) (mh : Completion Headers) :
  set_if validHeaderValue false k v mh = mh.
Proof using Type.
  now destruct mh.
Qed.

Lemma apply_sets_thrown (l : list Setting) (e : JsError) :
  apply_sets l (Throw e) = Throw e.
Proof using Type.
  induction l as [|x l IH]; [reflexivity|exact IH].
Qed.

(** One conditional set that is followed by a completed block. *)
Lemma apply_sets_step (b : bool) (k0 v0 : string) (l : list Setting)
  (h h' : Headers) :
  apply_sets ((b, (k0, v0)) :: l) (Normal h) = Normal h' ->
  exists h1,
    apply_sets l (Normal h1) = Normal h' /\
    ((b = false /\ h1 = h) \/
     (b = true /\ exists v1, validHeaderValue v0 = Normal v1 /\
                             h1 = hdr_set k0 v1 h)).
Proof using Type.
  unfold apply_sets. cbn [fold_left fst snd set_if bind].
  destruct b.
  - unfold mh_set. destruct (validHeaderValue v0) as [v1|e]; cbn [bind].
    + intros H. exists (hdr_set k0 v1 h). split; [exact H|]. right. eauto.
    + intros H. fold (apply_sets l (Throw e)) in H.
      rewrite apply_sets_thrown in H. discriminate H.
  - intros H. exists h. split; [exact H|]. left. auto.
Qed.

(** Every entry is the caller's or carries one of the keys set. *)
Lemma apply_sets_origin (l : list Setting) :
  forall (h h' : Headers) (k v : string),
    apply_sets l (Normal h) = Normal h' ->
    In (k, v) h' -> In (k, v) h \/ In k (map key_of l).
Proof using Type.
  induction l as [|[b [k0 v0]] l IH]; intros h h' k v Hr H.
  - injection Hr as <-. now left.
  - destruct (apply_sets_step _ _ _ _ _ _ Hr) as (h1 & Hr1 & Hstep).
    destruct (IH _ _ _ _ Hr1 H) as [H'|H']; [|right; now right].
    destruct Hstep as [[_ ->]|[_ (v1 & _ & ->)]]; [now left|].
    apply hdr_set_in in H'.
    destruct H' as [[-> _]|[_ H']]; [right; now left|now left].
Qed.

(** An entry whose key is not among the keys set is carried through, and
    nothing else appears under such a key. *)
Lemma apply_sets_other (l : list Setting) :
  forall (h h' : Headers) (k v : string),
    apply_sets l (Normal h) = Normal h' ->
    ~ In k (map key_of l) ->
    (In (k, v) h' <-> In (k, v) h).
Proof using Type.
  induction l as [|[b [k0 v0]] l IH]; intros h h' k v Hr Hk.
  - injection Hr as <-. reflexivity.
  - cbn [map In key_of fst snd] in Hk.
    destruct (apply_sets_step _ _ _ _ _ _ Hr) as (h1 & Hr1 & Hstep).
    rewrite (IH _ _ _ _ Hr1) by (intros Hc; apply Hk; now right).
    destruct Hstep as [[_ ->]|[_ (v1 & _ & ->)]]; [reflexivity|].
    rewrite hdr_set_in. split.
    + intros [[-> _]|[_ H]]; [exfalso; apply Hk; now left|exact H].
    + intros H. right. split; [intros ->; apply Hk; now left|exact H].
Qed.

(** A set that runs, under a key set once, leaves the checked value as
    the only entry of its key. *)
Lemma apply_sets_set (l : list Setting) :
  forall (h h' : Headers) (k v : string),
    apply_sets l (Normal h) = Normal h' ->
    NoDup (map key_of l) ->
    In (true, (k, v)) l ->
    exists v1, validHeaderValue v = Normal v1 /\
               forall v', In (k, v') h' <-> v' = v1.
Proof using Type.
  induction l as [|[b [k0 v0]] l IH]; intros h h' k v Hr Hnd Hin; [destruct Hin|].
  cbn [map key_of fst snd] in Hnd. inversion Hnd as [|? ? Hnot Hnd']; subst.
  destruct (apply_sets_step _ _ _ _ _ _ Hr) as (h1 & Hr1 & Hstep).
  destruct Hin as [E|Hin].
  - injection E as -> -> ->.
    destruct Hstep as [[Hf _]|[_ (v1 & Hv & ->)]]; [discriminate Hf|].
    exists v1. split; [exact Hv|]. intros v'.
    rewrite (apply_sets_other _ _ _ _ _ Hr1 Hnot).
    rewrite hdr_set_in. split.
    + intros [[_ H]|[H _]]; [exact H|now elim H].
    + intros ->. now left.
  - exact (IH _ _ _ _ Hr1 Hnd' Hin).
Qed.

(** A block that throws throws the error of the check on one of the
    values it sets. *)
Lemma apply_sets_failure (l : list Setting) :
  forall (h : Headers) (e : JsError),
    apply_sets l (Normal h) = Throw e ->
    exists k v, In (true, (k, v)) l /\ validHeaderValue v = Throw e.
Proof using Type.
  induction l as [|[b [k0 v0]] l IH]; intros h e Hr; [discriminate Hr|].
  unfold apply_sets in Hr. cbn [fold_left fst snd set_if bind] in Hr.
  destruct b.
  - unfold mh_set in Hr. destruct (validHeaderValue v0) as [v1|e0] eqn:Hv;
      cbn [bind] in Hr.
    + destruct (IH _ _ Hr) as (k & v & Hin & Hth).
      exists k, v. split; [now right|exact Hth].
    + fold (apply_sets l (Throw e0)) in Hr. rewrite apply_sets_thrown in Hr.
      injection Hr as <-. exists k0, v0. split; [now left|exact Hv].
  - destruct (IH _ _ Hr) as (k & v & Hin & Hth).
    exists k, v. split; [now right|exact Hth].
Qed.

(** A block all of whose values pass the check completes. *)
Lemma apply_sets_completes (l : list Setting) :
  forall (h : Headers),
    (forall k v, In (true, (k, v)) l ->
       exists v1, validHeaderValue v = Normal v1) ->
    exists h', apply_sets l (Normal h) = Normal h'.
Proof using Type.
  induction l as [|[b [k0 v0]] l IH]; intros h Hall; [eexists; reflexivity|].
  unfold apply_sets. cbn [fold_left fst snd set_if bind].
  destruct b.
  - destruct (Hall k0 v0) as (v1 & Hv); [now left|].
    unfold mh_set. rewrite Hv. cbn [bind].
    apply IH. intros k v Hin. apply (Hall k v). now right.
  - apply IH. intros k v Hin. apply (Hall k v). now right.
Qed.

Lemma build_headers_settings (o : PublishOptions) :
  header_block o = apply_sets (settings o) (Normal (user_headers o)).
Proof using Type.
  unfold header_block, build_headers, settings, expect_of, user_headers,
    apply_sets, number_setting.
  destruct (expect o) as [e|]; cbv zeta.
  - destruct (lastSequence e), (lastSubjectSequence e);
      cbn [fold_left fst snd]; rewrite ?set_if_false; reflexivity.
  - cbn [lastSequence lastSubjectSequence lastMsgID streamName
         fold_left fst snd].
    rewrite ?set_if_false. reflexivity.
Qed.

Lemma settings_keys (o : PublishOptions) :
  map key_of (settings o) = publish_header_names.
Proof using Type.
  unfold settings, number_setting. cbn [map key_of fst snd].
  destruct (lastSequence (expect_of o)), (lastSubjectSequence (expect_of o));
    reflexivity.
Qed.

Lemma publish_header_names_nodup : NoDup publish_header_names.
Proof using Type.
  unfold publish_header_names.
  repeat (constructor; [cbn [In]; intros H;
                        repeat (destruct H as [H|H]; [discriminate H|]);
                        exact H|]).
  constructor.
Qed.

Lemma values_set_in (o : PublishOptions) (v : string) :
  In v (values_set o) <-> exists k, In (true, (k, v)) (settings o).
Proof using Type.
  unfold values_set. rewrite in_map_iff. split.
  - intros ([b [k v0]] & Hv & Hin). cbn in Hv. subst v0.
    apply filter_In in Hin. destruct Hin as [Hin Hb]. cbn in Hb. subst b.
    exists k. exact Hin.
  - intros (k & Hin). exists (true, (k, v)). split; [reflexivity|].
    apply filter_In. split; [exact Hin|reflexivity].
Qed.

(** X29. The headers of a publish request ([publish], the header block).
    The block throws only the error of the header object's check on one
    of the values it sets, and it completes when the check accepts them
    all.  When it completes: headers the caller supplied under other
    names are passed on as they are, and nothing is added under other
    names; a non-empty message id, expected last message id and expected
    stream, and any expected sequence number (as the template literal
    prints it), zero included, each end up, in the form the check stores,
    as the single value of their header, replacing what the caller had
    put there.  Without any of the five options (an empty string counts
    as none) the caller's headers go out unchanged, whatever the check. *)
Theorem publish_headers :
  forall (o : PublishOptions),
    (forall e, header_block o = Throw e ->
       exists v, In v (values_set o) /\ validHeaderValue v = Throw e) /\
    ((forall v, In v (values_set o) ->
        exists v1, validHeaderValue v = Normal v1) ->
     exists mh, header_block o = Normal mh) /\
    (truthy_str (msgID o) = false ->
     truthy_str (lastMsgID (expect_of o)) = false ->
     truthy_str (streamName (expect_of o)) = false ->
     lastSequence (expect_of o) = None ->
     lastSubjectSequence (expect_of o) = None ->
     header_block o = Normal (user_headers o)) /\
    (forall mh, header_block o = Normal mh ->
       (forall k v, In (k, v) mh ->
          In (k, v) (user_headers o) \/ In k publish_header_names) /\
       (forall k v, ~ In k publish_header_names ->
          (In (k, v) mh <-> In (k, v) (user_headers o))) /\
       (forall id, msgID o = Some id -> id <> ""%string ->
          exists v1, validHeaderValue id = Normal v1 /\
            forall v, In ("Nats-Msg-Id"%string, v) mh <-> v = v1) /\
       (forall id, lastMsgID (expect_of o) = Some id -> id <> ""%string ->
          exists v1, validHeaderValue id = Normal v1 /\
            forall v, In ("Nats-Expected-Last-Msg-Id"%string, v) mh <-> v = v1) /\
       (forall nm, streamName (expect_of o) = Some nm -> nm <> ""%string ->
          exists v1, validHeaderValue nm = Normal v1 /\
            forall v, In ("Nats-Expected-Stream"%string, v) mh <-> v = v1) /\
       (forall n, lastSequence (expect_of o) = Some n ->
          exists v1, validHeaderValue (show n) = Normal v1 /\
            forall v, In ("Nats-Expected-Last-Sequence"%string, v) mh
                      <-> v = v1) /\
       (forall n, lastSubjectSequence (expect_of o) = Some n ->
          exists v1, validHeaderValue (show n) = Normal v1 /\
            forall v, In ("Nats-Expected-Last-Subject-Sequence"%string, v) mh
                      <-> v = v1)).
Proof using Type.
  intros o. rewrite build_headers_settings.
  assert (Hnd : NoDup (map key_of (settings o)))
    by (rewrite settings_keys; apply publish_header_names_nodup).
  assert (T : forall s : string, s <> ""%string -> truthy_str (Some s) = true).
  { intros s Hs. cbn. now destruct (String.eqb_spec s ""). }
  split; [|split; [|split]].
  - intros e He. destruct (apply_sets_failure _ _ _ He) as (k & v & Hin & Hv).
    exists v. split; [apply values_set_in; eauto|exact Hv].
  - intros Hall. apply apply_sets_completes. intros k v Hin.
    apply Hall. apply values_set_in. eauto.
  - intros H1 H2 H3 H4 H5. unfold settings. rewrite H1, H2, H3, H4, H5.
    reflexivity.
  - intros mh Hb.
    split; [|split; [|split; [|split; [|split; [|split]]]]].
    + intros k v H. rewrite <- (settings_keys o).
      exact (apply_sets_origin _ _ _ _ _ Hb H).
    + intros k v Hk. apply (apply_sets_other _ _ _ _ _ Hb).
      now rewrite settings_keys.
    + intros id Hid Hne. apply (apply_sets_set _ _ _ _ _ Hb Hnd).
      unfold settings. rewrite Hid, (T id Hne). now left.
    + intros id Hid Hne. apply (apply_sets_set _ _ _ _ _ Hb Hnd).
      unfold settings. rewrite Hid, (T id Hne). right. now left.
    + intros nm Hnm Hne. apply (apply_sets_set _ _ _ _ _ Hb Hnd).
      unfold settings. rewrite Hnm, (T nm Hne). right. right. now left.
    + intros n Hn. apply (apply_sets_set _ _ _ _ _ Hb Hnd).
      unfold settings. rewrite Hn. right. right. right. now left.
    + intros n Hn. apply (apply_sets_set _ _ _ _ _ Hb Hnd).
      unfold settings. rewrite Hn. right. right. right. right. now left.
Qed.

End Client.

(** Sequence numbers as the template literal prints them: in full below
    2^53, with the fewest digits that read back above, and in exponent
    form from 10^21 on. *)
Lemma show_large_numbers :
  show 17 = "17"%string /\
  show (2 ^ 60) = "1152921504606847000"%string /\
  show (10 ^ 21) = "1e+21"%string /\
  show (2 ^ 70) = "1.1805916207174113e+21"%string.
Proof.
  repeat split; vm_compute; reflexivity.
Qed.

(** A message id with a carriage return in it. *)
Definition sample_bad_id : PublishOptions :=
  mkPublishOptions (Some (String "013" "id")) None None None (Some 3) None.

(** The header object refuses the message id: nothing is sent. *)
Lemma publish_exhausts_retries_witness :
  publish1 sample_check string sample_request sample_parse (Error "invalid ack")
           5000 "orders.new" "hello" (Some sample_bad_id)
  = ([], Some (Throw (NatsError "invalid header value" "BAD_HEADER"))).
Proof.
  destruct (publish_exhausts_retries sample_check string sample_request
              sample_parse (Error "invalid ack") 5000 "orders.new" "hello"
              (Some sample_bad_id)) as [H _].
  apply H. reflexivity.
Defined.

(** Three attempts allowed, the first two rejected with 503. *)
Lemma publish_first_answer_witness :
  publish1 sample_check string sample_request sample_parse (Error "invalid ack")
           5000 "orders.new" "hello" (Some sample_options)
  = (schedule (wire_with 5000 "orders.new" "hello" sample_options
                         [("Nats-Msg-Id", "id-1")]) 250 3,
     Some (Normal (mkPubAck "ORDERS" 7 (Some false)))).
Proof.
  destruct (publish_first_answer sample_check string sample_request sample_parse
              (Error "invalid ack") 5000 "orders.new" "hello"
              (Some sample_options) 2%nat [("Nats-Msg-Id", "id-1")]) as [H _].
  - reflexivity.
  - cbn. lia.
  - intros j Hj. exists (NatsError "no responders" "503").
    destruct j as [|[|j]]; [split; reflexivity|split; reflexivity|lia].
  - exact (H "reply"%string eq_refl).
Defined.

(** The sequence 0 is set, and printed as the template literal does. *)
Lemma publish_headers_witness :
  header_block sample_check
    (mkPublishOptions (Some "id-1") None (Some [("Nats-Msg-Id", "old"); ("X", "1")])
                      (Some (mkExpect None None (Some 0) None)) None None)
  = Normal [("X", "1"); ("Nats-Msg-Id", "id-1");
            ("Nats-Expected-Last-Sequence", "0")].
Proof.
  destruct (publish_headers sample_check
              (mkPublishOptions (Some "id-1") None
                 (Some [("Nats-Msg-Id", "old"); ("X", "1")])
                 (Some (mkExpect None None (Some 0) None)) None None))
    as (_ & H & _).
  destruct H as (mh & Hmh).
  - intros v Hv. cbn in Hv.
    destruct Hv as [<-|[<-|[]]]; eexists; reflexivity.
  - rewrite Hmh. apply (f_equal Normal).
    unfold header_block in Hmh. cbn in Hmh. injection Hmh as <-. reflexivity.
Defined.

End Publishing.
